(* ===== verification/_CoqProject ===== *)
-Q . S2P
Prelude.v
Format.v
Records.v
Aggregate.v
Allocation.v
Tables.v
Sankey.v
ResourceMap.v
SankeyConsole.v
MapConsole.v
LoopSemantics.v
