(* ===== verification/Prelude.v ===== *)
(** * Forest-biomass resource map and Sankey scripts: a verification development

    The repository has two one-shot Python scripts that share a loader:
    - [src/create_sankey_diagram.py] reads four CSV files listed in
      [data_files], tags each row with its [resource_category], sums
      [resource_amount] per category with pandas' [groupby], prints the
      totals, spreads each category total over six end uses with the fixed
      fraction table [end_uses] (the allocation loop, lines 114-127, which
      prints one line per flow), prints the totals by end use with their
      share of the grand total, and hands node labels, colours, hover
      values and the three link lists to Plotly;
    - [src/create_resource_map.py] reads the same files, printing a line
      per file, prints a per-category summary, centres a folium map on the
      mean coordinates, keeps at most 500 points per category with
      [nlargest] and draws one circle marker per kept row, its radius
      clamped to [3, 15], with a popup showing the row.
    The two scripts share no state; each aborts on the first Python
    exception (a failed [pd.read_csv], a [KeyError] on a dict, a
    [ValueError], a [ZeroDivisionError]), the lines printed before it
    staying on the console.

    ** Files, in dependency order
    - [Prelude.v] (this file): the [result] monad for code that raises
      ([Ok]/[Err] with the exceptions as the [error] type, stdpp's
      [x ← c; k] notation through [MBind]); the console monad [io], a
      writer over [result] with [print], [lift] and [for_each]; Python
      dicts as association lists ([dict_get], [getitem] for [d[k]],
      [dict_iadd] for [d[k] += x], [dict_get_default] for
      [d.get(k, v)]); [qsum] for sums; a stable insertion sort [sort_by];
      Python's string order [str_lt]; the shared lemmas on sums, dicts and
      sorting; the [dict_equiv] setoid with its [Proper] instances; the
      [bio] hint databases and the [case_streq], [compute_decide], [io_ok]
      and [io_simpl] tactics.
    - [Format.v], Module [Format]: the part of Python's format
      mini-language the f-strings use ([{n:,}], [{x:.Nf}], [{x:,.Nf}],
      [{s:.<w}], [{x:>w}]), with round-half-even rounding, [nan]/[inf],
      numpy's division ([np_div]), Python's [/] on Python or numpy
      numbers ([py_truediv], which raises only when no operand is numpy)
      and a
      parser [parse_number] for the round trips; the [pyfloat] setoid and
      the [Proper] instances saying that printing depends on the value
      only.
    - [Records.v], Module [Records]: the CSV [Row], the tagged
      [ResourcePoint], [data_files], and the loader loop [load_loop] /
      [pd_concat] / [load_combined] (both scripts), in a Section whose
      variable [read_csv] stands for [pd.read_csv].
    - [Aggregate.v], Module [Aggregate]: [group_keys], [group_sum],
      [resource_totals] (Sankey line 29) and the map script's [summarize]
      (lines 45-52).
    - [Allocation.v], Module [Allocation]: the [end_uses] table, the loop
      state [link_state] and the loop [flow_step] (with its update
      [flow_update]) / [inner_loop] / [outer_loop] / [allocate] (lines
      114-125), with its closed-form
      reference ([ref_state], [ref_end_use_total], [first_missing]) and
      the link sums [link_sum_from] / [link_sum_to] that describe what the
      diagram draws.
    - [Tables.v], Module [Tables]: the class [AllocationMatrix], the
      contract the Sankey pipeline needs from the allocation table
      (distinct end uses, a fraction for every category, rows summing to
      1), client lemmas proved against any instance, and the instance
      [end_uses_matrix] for the code's table.
    - [Sankey.v], Module [Sankey]: colour tables, [node_labels],
      [node_colors], [node_value], the end-use percentages of line 133
      ([end_use_pct], whose divisor is the Python [int] [0] exactly when
      no row was loaded) and [sankey_script], the Sankey script from loading
      to the data of [go.Sankey]; its lemmas use the table through
      [AllocationMatrix].
    - [ResourceMap.v], Module [ResourceMap]: [nlargest], [sample_points],
      [marker_radius], [popup_html], the [circle_marker] arguments,
      [markers_loop], [add_layers], [ca_center], [folium_map] and
      [map_script].
    - [SankeyConsole.v], Module [SankeyConsole]: every print of the Sankey
      script; [sankey_main] is the script in the [io] monad, its
      allocation loop instrumented as [outer_loop_io] / [inner_loop_io] /
      [flow_step_io], which run the lookup and update of Allocation.v and
      print the [flow_amount] they computed.
    - [MapConsole.v], Module [MapConsole]: every print of the map script;
      [map_main] is the script in the [io] monad.
    - [LoopSemantics.v], Module [LoopSemantics]: the allocation loop as a
      transition system [step] over loop configurations [cfg] (outer loop,
      inner loop, done, crashed).

    ** Modelling choices
    Amounts, fractions and coordinates are exact rationals [Q]: the
    theorems state equalities up to [Qeq] ([==]), and Python's float
    rounding is not modelled (spec 8.1 asks for equality up to floating
    tolerance); printed numbers are the exact value correctly rounded,
    which is what CPython prints for a value a double holds exactly.
    Every loop is structural recursion over a list; the one fuelled
    function, [Format.digits], gets [1 + bits n] steps, which bounds the
    number of decimal digits, and [digits_complete] (C38) proves the fuel
    enough.
    pandas' behaviours the code relies on are written out: [groupby] keeps
    the occurring keys sorted by Python's string order, [mean] of nothing
    is NaN ([None]), [concat] of no frames raises [ValueError], [nlargest]
    is a stable sort by decreasing amount cut to [n] rows; numpy divides
    by zero to [nan] or [inf]; folium refuses a NaN location. Python's
    [int], Python's [float] and numpy's scalars are told apart where it
    matters, at the division of line 133: [end_use_totals] starts with the
    [int] [0] and becomes a [float] at its first [+=], and
    [resource_totals.sum()] is a numpy scalar, except on an empty Series
    (a header-only CSV gives [object] columns) whose sum is the [int]
    [0], so that with no row [0 / 0] raises. Link indices
    are [nat]: Python's integers do not overflow. A printed line is a
    Rocq [string] of bytes; the padded fields hold ASCII names, so widths
    in bytes are widths in characters.

    ** What is proved
    - Allocation (C1-C8): the loop refines its reference (C1); each
      end-use total is the sum of [total * fraction] (C2, the spec's
      132.5); the links into an end use add up to its printed total (C3)
      and the links out of a category to [total * sum of its fractions]
      (C4); the loop fails exactly when a category lacks a fraction, with
      a [KeyError] naming it (C5, C6); with the code's table mass is
      conserved (C7); every link index lies in the node list (C8).
    - Sankey script (C9-C12, C27): it never raises [KeyError]; it
      succeeds exactly when every file is read and one has a row (C9),
      and fails only on a read error or, with no row, with
      [ZeroDivisionError] at line 133 (C10); each link joins the right
      labels with value [shown total * fraction] (C11); each node's hover
      value is the flow through the node (C12); colours line up with
      labels (C27).
    - Aggregation (C13-C18): grouping conserves the grand total (C13), is
      indexed by the distinct categories in sorted order (C14), follows
      [data_files] order (C15), ignores row order (C16), agrees with the
      map script's summary (C17), whose mean is [total / count] (C18).
    - Map script (C19-C23): at most 500 largest points per category
      (C19, C20), radius bounds (C21), failure only on reads or on an
      empty dataset (C22), one layer per category whose markers are those
      of its rows with their popups and colour (C23).
    - Loader (C24-C26): success and failure of loading (C24, C25), and
      selecting a category returns exactly its file's rows (C26).
    - Console output (C28-C35): the exact output of a failing Sankey run,
      including the [ZeroDivisionError] after the [TOTAL BY END USE]
      banner (C28) and of a failing map run (C33); a successful Sankey
      run prints the closed-form transcript computed from the reference
      totals (C29); the end-use percentages are finite and add up to 100
      (C30), and are [nan] when every amount is zero (C31); the sampling
      lines describe the layers (C32); printed end-use lines (C34) and
      summaries (C35) read back as the computed values.
    - The loop as a transition system (C36, C39): an invariant of every
      reachable configuration (C36) and every link eventually emitted
      from wherever the loop is (C39).
    - Number formatting (C37, C38): the rounding is Python's, nearest
      with ties to even (C37), and the fuel of the digit loop suffices
      (C38).
    - The table's contract (C40): any [AllocationMatrix] balances the
      flows; the instance [end_uses_matrix] proves the code's table meets
      it.

    ** Not modelled
    Plotly's figure layout and [write_html], folium's tiles, title box,
    [FeatureGroup] and [LayerControl] objects, fullscreen button and
    [save]: these build the HTML pages from the data the model computes
    (figure data, map centre, layers, marker arguments and popups), and
    writing them is I/O. CSV parsing is abstracted as [read_csv]. NaN
    values inside the CSV columns are outside the model: the spec leaves
    the schema to the input files. *)

From Stdlib Require Import QArith Lqa String OrdersEx.
From stdpp Require Import base list options strings sets sorting.

(** ** Scope, errors and the result monad *)

Declare Scope bio_scope.
Delimit Scope bio_scope with bio.
Open Scope Q_scope.

(** The Python exceptions the scripts can raise: [pd.read_csv] failing on a path, a [dict] subscript [d[k]] on
    a missing key, [pd.concat] of an empty list (and folium's refusal of
    a NaN location), and the true division [/] of two Python [int]s by
    zero. *)
Inductive error :=
| FileNotFoundError (path : string)
| KeyError (key : string)
| ValueError (msg : string)
| ZeroDivisionError (msg : string).

#[export] Instance error_eq_dec : EqDecision error.
Proof. solve_decision. Defined.

(** A computation that either returns a value or aborts the script. *)
Inductive result (A : Type) :=
| Ok (a : A)
| Err (e : error).
Arguments Ok {A} a.
Arguments Err {A} e.

#[export] Instance result_ret : MRet result := fun _ a => Ok a.
#[export] Instance result_bind : MBind result :=
  fun _ _ f r => match r with Ok a => f a | Err e => Err e end.
#[export] Instance result_fmap : FMap result :=
  fun _ _ f r => match r with Ok a => Ok (f a) | Err e => Err e end.

Definition is_ok {A} (r : result A) : bool :=
  match r with Ok _ => true | Err _ => false end.

(** ** Console output: a writer monad over [result]

    A script's run as the lines it has printed so far ([print(s)] adds
    one) and its outcome: when a statement raises, the lines printed
    before it stay on the console and nothing after it runs. *)

Record io (A : Type) := mk_io {
  io_out : list string;
  io_res : result A
}.
Arguments mk_io {A} io_out io_res.
Arguments io_out {A} _.
Arguments io_res {A} _.

#[export] Instance io_ret : MRet io := fun _ a => mk_io [] (Ok a).
#[export] Instance io_bind : MBind io := fun _ _ k c =>
  match io_res c with
  | Ok a => mk_io (io_out c ++ io_out (k a)) (io_res (k a))
  | Err e => mk_io (io_out c) (Err e)
  end.

(** [print(s)]. *)
Definition print (s : string) : io unit := mk_io [s] (Ok tt).

(** A statement that prints nothing and may raise. *)
Definition lift {A} (r : result A) : io A := mk_io [] r.

(** [for x in l: body(x)] for a body that returns nothing. *)
Fixpoint for_each {A} (l : list A) (body : A -> io unit) : io unit :=
  match l with
  | [] => mret tt
  | x :: l' => body x;; for_each l' body
  end.

(** ** Python dicts with string keys

    The scripts only build dicts from literals and comprehensions, so keys
    are distinct and insertion order is the iteration order: an association
    list is the faithful model. *)

Abbreviation dict V := (list (string * V)).

Fixpoint dict_get {V} (k : string) (d : dict V) : option V :=
  match d with
  | [] => None
  | (k', v) :: d' => if String.eqb k k' then Some v else dict_get k d'
  end.

Definition dict_keys {V} (d : dict V) : list string := fst <$> d.

(** [d[k]]: raises [KeyError k] on a missing key. *)
Definition getitem {V} (k : string) (d : dict V) : result V :=
  match dict_get k d with Some v => Ok v | None => Err (KeyError k) end.

(** [d.get(k, default)]. *)
Definition dict_get_default {V} (k : string) (d : dict V) (dflt : V) : V :=
  match dict_get k d with Some v => v | None => dflt end.

(** [d[k] += x] on a numeric dict: the entry keeps its position. *)
Fixpoint dict_iadd (k : string) (x : Q) (d : dict Q) : result (dict Q) :=
  match d with
  | [] => Err (KeyError k)
  | (k', v) :: d' =>
      if String.eqb k k' then Ok ((k', v + x) :: d')
      else (fun r => (k', v) :: r) <$> dict_iadd k x d'
  end.

(** ** Sums of rationals (Python [sum] / pandas [.sum()] on exact values) *)

Definition qsum (l : list Q) : Q := foldr Qplus 0 l.

(** ** A stable insertion sort by a boolean order

    [le x y = true] means that [x] may come before [y]; an element is placed
    before the first element it may precede, so equal elements keep their
    input order. *)

Section InsertionSort.
Context {A : Type} (le : A -> A -> bool).

Fixpoint insert_by (x : A) (l : list A) : list A :=
  match l with
  | [] => [x]
  | y :: l' => if le x y then x :: y :: l' else y :: insert_by x l'
  end.

Fixpoint sort_by (l : list A) : list A :=
  match l with
  | [] => []
  | x :: l' => insert_by x (sort_by l')
  end.
End InsertionSort.

Section InsertionSortFacts.
Context {A : Type} (le : A -> A -> bool).
Hypothesis le_total : forall x y, le x y = false -> le y x = true.

Lemma insert_by_Permutation x l : insert_by le x l ≡ₚ x :: l.
Proof.
  induction l as [|y l IH]; cbn; [done|]. destruct (le x y); [done|].
  rewrite IH. constructor.
Qed.

Lemma sort_by_Permutation l : sort_by le l ≡ₚ l.
Proof. induction l as [|x l IH]; cbn; [done|]. by rewrite insert_by_Permutation, IH. Qed.

Lemma insert_by_Sorted x l :
  Sorted (fun a b => le a b = true) l -> Sorted (fun a b => le a b = true) (insert_by le x l).
Proof using le_total.
  induction 1 as [|y l Hl IH Hhd]; cbn; [by repeat constructor|].
  destruct (le x y) eqn:Hxy; [by repeat constructor|].
  constructor; [done|]. destruct l as [|z l]; cbn in *; [constructor; by apply le_total|].
  inversion Hhd; subst. destruct (le x z); constructor; [by apply le_total|done].
Qed.

Lemma sort_by_Sorted l : Sorted (fun a b => le a b = true) (sort_by le l).
Proof using le_total. induction l as [|x l IH]; cbn; [constructor|]. by apply insert_by_Sorted. Qed.
End InsertionSortFacts.

(** ** Python's string order

    Python compares [str] values by code point, which on ASCII strings is
    Stdlib's lexicographic [String.compare]. *)

Definition str_lt (a b : string) : Prop := String.compare a b = Lt.

Lemma string_compare_as_OT a b : String.compare a b = String_as_OT.compare a b.
Proof.
  revert b. induction a as [|x a IH]; intros [|y b]; cbn; done.
Qed.

#[export] Instance str_lt_strorder : StrictOrder str_lt.
Proof.
  unfold str_lt. split.
  - intros x H. rewrite string_compare_as_OT in H. by apply (StrictOrder_Irreflexive (R := String_as_OT.lt) x).
  - intros x y z H1 H2. rewrite string_compare_as_OT in *.
    exact (StrictOrder_Transitive (R := String_as_OT.lt) x y z H1 H2).
Qed.

Lemma string_leb_lt a b : String.leb a b = true -> a <> b -> str_lt a b.
Proof.
  unfold String.leb, str_lt. destruct (String.compare a b) eqn:H; try done.
  intros _ Hne. by apply String.compare_eq_iff in H.
Qed.

Lemma string_leb_total a b : String.leb a b = false -> String.leb b a = true.
Proof. intros H. destruct (String.leb_total a b); congruence. Qed.

Lemma string_leb_trans a b c : String.leb a b = true -> String.leb b c = true -> String.leb a c = true.
Proof.
  intros Hab Hbc. destruct (decide (a = b)) as [->|Hab']; [done|].
  destruct (decide (b = c)) as [->|Hbc']; [done|].
  pose proof (transitivity (string_leb_lt _ _ Hab Hab') (string_leb_lt _ _ Hbc Hbc')) as H.
  unfold str_lt in H. unfold String.leb. by rewrite H.
Qed.

Lemma Permutation_list_filter {A} (f : A -> bool) (l l' : list A) :
  l ≡ₚ l' -> List.filter f l ≡ₚ List.filter f l'.
Proof.
  induction 1; cbn; try done.
  - destruct (f x); [by constructor|done].
  - destruct (f x), (f y); try done. constructor.
  - by etrans.
Qed.

Lemma elem_of_list_filter_bool {A} (f : A -> bool) (l : list A) x :
  x ∈ List.filter f l <-> x ∈ l /\ f x = true.
Proof. rewrite !list_elem_of_In. apply filter_In. Qed.

Lemma StronglySorted_list_filter {A} (R : A -> A -> Prop) (f : A -> bool) (l : list A) :
  StronglySorted R l -> StronglySorted R (List.filter f l).
Proof.
  induction 1 as [|x l _ IH Hx]; cbn; [constructor|].
  destruct (f x); [|done]. constructor; [done|].
  apply Forall_forall. intros y [Hy _]%elem_of_list_filter_bool.
  by eapply Forall_forall in Hx.
Qed.

(** A list sorted by [String.leb] without duplicates is strictly
    increasing. *)
Lemma string_sorted_strict (l : list string) :
  Sorted (fun a b => String.leb a b = true) l -> NoDup l -> StronglySorted str_lt l.
Proof.
  intros Hs. apply Sorted_StronglySorted in Hs; [|intros ???; apply string_leb_trans].
  induction Hs as [|x l _ IH Hx]; intros Hnd; constructor.
  - apply IH. apply NoDup_cons in Hnd. by destruct Hnd.
  - apply NoDup_cons in Hnd. destruct Hnd as [Hxl _]. apply Forall_forall. intros y Hy.
    rewrite Forall_forall in Hx. apply string_leb_lt; [by apply Hx|]. by intros ->.
Qed.

Lemma str_sorted_NoDup (l : list string) : StronglySorted str_lt l -> NoDup l.
Proof.
  induction 1 as [|x l _ IH Hx]; constructor; [|done].
  intros Hin. rewrite Forall_forall in Hx. by apply (irreflexivity str_lt x), Hx.
Qed.

(** Two strictly increasing lists with the same elements are equal. *)
Lemma str_sorted_unique (l1 l2 : list string) :
  StronglySorted str_lt l1 -> StronglySorted str_lt l2 -> (forall x, x ∈ l1 <-> x ∈ l2) -> l1 = l2.
Proof.
  intros H1 H2 Hx. apply (StronglySorted_unique_strong str_lt); [|done|done|].
  - intros a b _ _ Hab Hba. destruct (irreflexivity str_lt a (transitivity Hab Hba)).
  - apply NoDup_Permutation; [by apply str_sorted_NoDup..|done].
Qed.

(** ** Automation *)

Create HintDb bio discriminated.
Create Rewrite HintDb bio_rw.

(** * Generic lemmas *)

Lemma string_eqb_refl (s : string) : String.eqb s s = true.
Proof. apply String.eqb_eq. reflexivity. Qed.

Lemma string_eqb_neq (s t : string) : s <> t -> String.eqb s t = false.
Proof. apply String.eqb_neq. Qed.

#[export] Hint Rewrite string_eqb_refl : bio_rw.

Ltac case_streq a b :=
  let E := fresh "Hs" in
  destruct (String.eqb a b) eqn:E;
  [apply String.eqb_eq in E; subst | apply String.eqb_neq in E].


(** ** Sums *)

Section QSum.
Context {A : Type}.
Implicit Types (l : list A) (f g : A -> Q).

Lemma qsum_nil : qsum [] = 0.
Proof. reflexivity. Qed.

Lemma qsum_cons (x : Q) (l' : list Q) : qsum (x :: l') = x + qsum l'.
Proof. reflexivity. Qed.

Lemma qsum_app (l1 l2 : list Q) : qsum (l1 ++ l2) == qsum l1 + qsum l2.
Proof.
  induction l1 as [|x l1 IH]; cbn [app]; rewrite ?qsum_nil; [lra|].
  rewrite !qsum_cons, IH. lra.
Qed.

#[export] Instance qsum_Forall2 : Proper (Forall2 Qeq ==> Qeq) qsum.
Proof.
  intros l1 l2 H. induction H as [|x y l1 l2 Hxy _ IH]; [reflexivity|].
  rewrite !qsum_cons, Hxy, IH. reflexivity.
Qed.

#[export] Instance qsum_Permutation : Proper (Permutation ==> Qeq) qsum.
Proof.
  apply foldr_permutation_proper'; [apply _| |intros ???; lra|intros ??; lra].
  intros a x y Hxy. rewrite Hxy. reflexivity.
Qed.

Lemma qsum_map_ext l f g :
  (forall x, x ∈ l -> f x == g x) -> qsum (map f l) == qsum (map g l).
Proof.
  intros H. induction l as [|x l IH]; [reflexivity|]. cbn [map].
  rewrite !qsum_cons, IH by (intros; apply H; set_solver).
  rewrite (H x) by set_solver. reflexivity.
Qed.

Lemma qsum_map_scale c l f :
  qsum (map (fun x => c * f x) l) == c * qsum (map f l).
Proof.
  induction l as [|x l IH]; cbn [map]; rewrite ?qsum_cons, ?qsum_nil; [lra|].
  rewrite IH. lra.
Qed.

Lemma qsum_map_scale_r c l f :
  qsum (map (fun x => f x * c) l) == qsum (map f l) * c.
Proof.
  rewrite (qsum_map_ext _ _ (fun x => c * f x)) by (intros; lra).
  rewrite qsum_map_scale. lra.
Qed.

Lemma qsum_map_plus l f g :
  qsum (map (fun x => f x + g x) l) == qsum (map f l) + qsum (map g l).
Proof.
  induction l as [|x l IH]; cbn [map]; rewrite ?qsum_cons, ?qsum_nil; [lra|].
  rewrite IH. lra.
Qed.

Lemma qsum_map_zero l f :
  (forall x, x ∈ l -> f x == 0) -> qsum (map f l) == 0.
Proof.
  intros H. rewrite (qsum_map_ext _ _ (fun _ => 0)) by exact H.
  induction l as [|x l IH]; [reflexivity|]. cbn [map]. rewrite qsum_cons, IH by set_solver. lra.
Qed.

Lemma qsum_nonneg (l : list Q) : Forall (Qle 0) l -> 0 <= qsum l.
Proof.
  induction 1 as [|x l Hx _ IH]; [apply Qle_refl|]. rewrite qsum_cons. lra.
Qed.

(** Non-negative numbers that add up to zero are all zero. *)
Lemma qsum_nonneg_zero (l : list Q) : Forall (Qle 0) l -> qsum l == 0 -> Forall (fun x => x == 0) l.
Proof.
  induction 1 as [|x l Hx Hl IH]; [done|]. rewrite qsum_cons. intros H.
  pose proof (qsum_nonneg l Hl). constructor; [lra|]. apply IH. lra.
Qed.

(** A sum over a list splits along a boolean test. *)
Lemma qsum_filter_split (p : A -> bool) l f :
  qsum (map f l) ==
  qsum (map f (List.filter p l)) + qsum (map f (List.filter (fun x => negb (p x)) l)).
Proof.
  induction l as [|x l IH]; [cbn; lra|]. cbn [map List.filter].
  destruct (p x); cbn [negb map]; rewrite ?qsum_cons, IH; lra.
Qed.

Lemma qsum_filter_false (p : A -> bool) l f :
  (forall x, x ∈ l -> p x = false) -> qsum (map f (List.filter p l)) == 0.
Proof.
  intros H. induction l as [|x l IH]; [reflexivity|]. cbn [List.filter].
  rewrite H by set_solver. apply IH. set_solver.
Qed.
Lemma qsum_filter_if (p : A -> bool) l f :
  qsum (map f (List.filter p l)) == qsum (map (fun x => if p x then f x else 0) l).
Proof.
  induction l as [|x l IH]; [reflexivity|]. cbn [List.filter map].
  destruct (p x); cbn [map]; rewrite ?qsum_cons, IH; lra.
Qed.
End QSum.

(** Summing an indicator over a list of distinct keys picks one term. *)
Lemma qsum_indicator (ks : list string) (x : string) (c : Q) :
  NoDup ks -> x ∈ ks -> qsum (map (fun k => if String.eqb x k then c else 0) ks) == c.
Proof.
  induction ks as [|k ks IH]; [set_solver|]. intros [Hk Hnd]%NoDup_cons Hx.
  cbn [map]. rewrite qsum_cons. case_streq x k.
  - rewrite qsum_map_zero; [lra|]. intros k' Hk'. case_streq k k'; [done|reflexivity].
  - rewrite IH by set_solver. lra.
Qed.

(** Exchange of a double sum. *)
Lemma qsum_swap {A B} (la : list A) (lb : list B) (g : A -> B -> Q) :
  qsum (map (fun a => qsum (map (g a) lb)) la) ==
  qsum (map (fun b => qsum (map (fun a => g a b) la)) lb).
Proof.
  induction la as [|a la IH]; cbn [map].
  - rewrite qsum_map_zero; [reflexivity|]. reflexivity.
  - rewrite qsum_cons, IH, <- qsum_map_plus. reflexivity.
Qed.

#[export] Hint Resolve qsum_nonneg : bio.

(** ** Sums over pairs of lists (Plotly's links are three parallel lists) *)

Lemma zip_with_map {A B C D E} (h : C -> D -> E) (f : A -> C) (g : B -> D) la lb :
  zip_with h (map f la) (map g lb) = zip_with (fun x y => h (f x) (g y)) la lb.
Proof. revert lb. induction la as [|x la IH]; intros [|y lb]; cbn; f_equal; auto. Qed.

Lemma zip_with_diag {A C} (h : A -> A -> C) (l : list A) :
  zip_with h l l = map (fun x => h x x) l.
Proof. induction l; cbn; f_equal; auto. Qed.

Lemma lookup_map {A B} (f : A -> B) (l : list A) j :
  map f l !! j = f <$> l !! j.
Proof. revert j. induction l as [|x l IH]; intros [|j]; cbn; auto. Qed.

(** Indexing into a concatenation of blocks of length [m]. *)
Lemma lookup_concat_blocks {A} (L : list (list A)) (m i j : nat) (b : list A) :
  Forall (fun x => length x = m) L -> L !! i = Some b -> (j < m)%nat ->
  concat L !! (i * m + j)%nat = b !! j.
Proof.
  intros HL. revert i. induction HL as [|b0 L Hb0 _ IH]; intros [|i] Hi Hj; cbn in Hi; try done.
  - injection Hi as <-. cbn. rewrite lookup_app_l by lia. done.
  - cbn. rewrite lookup_app_r by lia. rewrite Hb0.
    replace (m + i * m + j - m)%nat with (i * m + j)%nat by lia. by apply IH.
Qed.

(** An index below [n * m] splits into a block and an offset. *)
Lemma index_split (m n k : nat) :
  (0 < m)%nat -> (k < n * m)%nat -> exists i j, k = (i * m + j)%nat /\ (i < n)%nat /\ (j < m)%nat.
Proof.
  intros Hm Hk. exists (k / m)%nat, (k mod m)%nat.
  pose proof (Nat.div_mod_eq k m). pose proof (Nat.mod_upper_bound k m ltac:(lia)).
  split_and!; [lia| |lia]. apply Nat.div_lt_upper_bound; lia.
Qed.

(** Selecting an index that does not occur sums to zero. *)
Lemma qsum_zip_sel_absent (xs : list nat) (vs : list Q) (s : nat) :
  Forall (fun x => x <> s) xs ->
  qsum (zip_with (fun x v => if Nat.eqb x s then v else 0) xs vs) == 0.
Proof.
  intros H. revert vs. induction H as [|x xs Hx _ IH]; intros [|v vs]; cbn [zip_with];
    try reflexivity.
  rewrite qsum_cons, IH. replace (Nat.eqb x s) with false by (symmetry; by apply Nat.eqb_neq).
  lra.
Qed.

Lemma length_concat_map_const {A B} (f : A -> list B) (m : nat) (l : list A) :
  (forall x, length (f x) = m) -> length (concat (map f l)) = (length l * m)%nat.
Proof.
  intros H. induction l as [|x l IH]; cbn; [done|]. rewrite length_app, H, IH. lia.
Qed.

Lemma Forall2_map_lengths {A B C D} (f : A -> list C) (g : B -> list D) la lb m :
  length la = length lb -> (forall a, length (f a) = m) -> (forall b, length (g b) = m) ->
  Forall2 (fun x y => length x = length y) (map f la) (map g lb).
Proof.
  intros Hl Hf Hg. revert lb Hl. induction la as [|x la IH]; intros [|y lb] Hl; cbn in *;
    try discriminate; constructor; [by rewrite Hf, Hg|auto].
Qed.

Lemma qsum_zip_with_ext {A B} (f g : A -> B -> Q) la lb :
  (forall x y, f x y == g x y) -> qsum (zip_with f la lb) == qsum (zip_with g la lb).
Proof.
  intros H. revert lb. induction la as [|x la IH]; intros [|y lb];
    cbn [zip_with]; try reflexivity.
  rewrite !qsum_cons, H, IH. reflexivity.
Qed.

(** A sum over two concatenations of blocks of equal lengths is the sum of
    the per-block sums. *)
Lemma qsum_zip_with_concat {A B} (f : A -> B -> Q) LA LB :
  Forall2 (fun a b => length a = length b) LA LB ->
  qsum (zip_with f (concat LA) (concat LB)) ==
  qsum (zip_with (fun a b => qsum (zip_with f a b)) LA LB).
Proof.
  induction 1 as [|a b LA LB Hab _ IH]; cbn [concat zip_with]; [reflexivity|].
  rewrite zip_with_app by done. rewrite qsum_app, IH, qsum_cons. reflexivity.
Qed.

(** Selecting the entry at index [i] from a list numbered from [s]. *)
Lemma qsum_select_seq {A} (g : A -> Q) (l : list A) s i :
  qsum (zip_with (fun k x => if Nat.eqb k i then g x else 0) (seq s (length l)) l) ==
  (if Nat.leb s i then match l !! (i - s)%nat with Some x => g x | None => 0 end else 0).
Proof.
  revert s. induction l as [|x l IH]; intros s; cbn [length seq zip_with].
  - by destruct (Nat.leb s i), (i - s)%nat.
  - rewrite qsum_cons, IH.
    destruct (Nat.compare_spec s i) as [<-|Hlt|Hgt].
    + rewrite Nat.eqb_refl, Nat.sub_diag.
      replace (Nat.leb s s) with true by (symmetry; apply Nat.leb_le; lia).
      replace (Nat.leb (S s) s) with false by (symmetry; apply Nat.leb_gt; lia). cbn. lra.
    + replace (Nat.eqb s i) with false by (symmetry; apply Nat.eqb_neq; lia).
      replace (Nat.leb s i) with true by (symmetry; apply Nat.leb_le; lia).
      replace (Nat.leb (S s) i) with true by (symmetry; apply Nat.leb_le; lia).
      replace (i - s)%nat with (S (i - S s)) by lia.
      rewrite lookup_cons_ne_0 by lia. cbn [pred]. lra.
    + replace (Nat.eqb s i) with false by (symmetry; apply Nat.eqb_neq; lia).
      replace (Nat.leb s i) with false by (symmetry; apply Nat.leb_gt; lia).
      replace (Nat.leb (S s) i) with false by (symmetry; apply Nat.leb_gt; lia). lra.
Qed.

Lemma qsum_zip_replicate (vals : list Q) k i :
  qsum (zip_with (fun s v => if Nat.eqb s i then v else 0) (replicate (length vals) k) vals) ==
  (if Nat.eqb k i then qsum vals else 0).
Proof.
  induction vals as [|v vals IH]; cbn [length replicate zip_with]; [by destruct (Nat.eqb k i)|].
  rewrite !qsum_cons, IH. destruct (Nat.eqb k i); lra.
Qed.

Lemma forallb_false_elem {A} (f : A -> bool) (l : list A) :
  forallb f l = false -> exists x, x ∈ l /\ f x = false.
Proof.
  induction l as [|x l IH]; cbn; [done|]. destruct (f x) eqn:Hx; cbn.
  - intros (y & ? & ?)%IH. exists y. set_solver.
  - intros _. exists x. set_solver.
Qed.

(** ** Dicts *)

Section Dict.
Context {V : Type}.
Implicit Types (d : dict V).

Lemma dict_get_None k d : dict_get k d = None <-> k ∉ dict_keys d.
Proof.
  induction d as [|[k' v] d IH]; cbn; [set_solver|].
  case_streq k k'; [split; [discriminate|set_solver]|].
  rewrite IH, elem_of_cons. naive_solver.
Qed.

Lemma dict_get_elem_of k v d : dict_get k d = Some v -> (k, v) ∈ d.
Proof.
  induction d as [|[k' v'] d IH]; cbn; [discriminate|].
  case_streq k k'; [intros [= ->]; left|intros; right; auto].
Qed.

Lemma dict_get_is_Some k d : is_Some (dict_get k d) <-> k ∈ dict_keys d.
Proof.
  destruct (dict_get k d) eqn:E.
  - split; [intros _|eauto]. apply dict_get_elem_of in E.
    apply list_elem_of_fmap. exists (k, v). auto.
  - apply dict_get_None in E. split; [intros []; discriminate|contradiction].
Qed.

Lemma dict_get_app k (d1 d2 : dict V) :
  dict_get k (d1 ++ d2) = match dict_get k d1 with Some v => Some v | None => dict_get k d2 end.
Proof. induction d1 as [|[k' v] d1 IH]; cbn; [done|]. by destruct (String.eqb k k'). Qed.

Lemma getitem_Some k d v : dict_get k d = Some v -> getitem k d = Ok v.
Proof. unfold getitem. by intros ->. Qed.

Lemma getitem_None k d : dict_get k d = None -> getitem k d = Err (KeyError k).
Proof. unfold getitem. by intros ->. Qed.

Lemma dict_get_map_keys (g : string -> V) (ks : list string) k :
  k ∈ ks -> dict_get k (map (fun e => (e, g e)) ks) = Some (g k).
Proof.
  induction ks as [|k' ks IH]; cbn; [set_solver|].
  case_streq k k'; [done|]. intros ?. apply IH. set_solver.
Qed.

Lemma dict_keys_map_keys (g : string -> V) (ks : list string) :
  dict_keys (map (fun e => (e, g e)) ks) = ks.
Proof. induction ks as [|k ks IH]; cbn; [done|]. by f_equal. Qed.
End Dict.

#[export] Hint Resolve getitem_Some getitem_None : bio.

Definition dict_val (k : string) (d : dict Q) : Q := dict_get_default k d 0.

(** Two numeric dicts with the same keys in the same order and equal
    values as rationals. *)
Definition dict_equiv (d1 d2 : dict Q) : Prop :=
  Forall2 (fun p q => p.1 = q.1 /\ p.2 == q.2) d1 d2.

#[export] Instance dict_equiv_equivalence : Equivalence dict_equiv.
Proof.
  split.
  - intros d. apply Forall_Forall2_diag, Forall_forall. intros; split; reflexivity.
  - intros d1 d2 H. induction H; constructor; [|done]. naive_solver.
  - intros d1 d2 d3 H12. revert d3.
    induction H12 as [|p q d1 d2 [Hk Hv] _ IH]; intros d3 H23; [done|].
    inversion H23 as [|? r ? d3' [Hk' Hv'] ?]; subst. constructor; [|by apply IH].
    split; [congruence|]. by rewrite Hv.
Qed.

#[export] Instance dict_val_proper : Proper (eq ==> dict_equiv ==> Qeq) dict_val.
Proof.
  intros k ? <- d1 d2 H. unfold dict_val, dict_get_default.
  induction H as [|[k1 v1] [k2 v2] d1 d2 [Hk Hv] _ IH]; cbn in *; [reflexivity|].
  subst. by destruct (String.eqb k k2).
Qed.

#[export] Instance dict_keys_proper : Proper (dict_equiv ==> eq) (@dict_keys Q).
Proof.
  intros d1 d2 H. induction H as [|p q d1 d2 [Hk _] _ IH]; [done|]. cbn. by f_equal.
Qed.

(** With distinct keys, a dict is determined up to [dict_equiv] by its keys
    and the value read at each key. *)
Lemma dict_equiv_by_val d1 d2 :
  NoDup (dict_keys d1) -> dict_keys d1 = dict_keys d2 ->
  (forall k, k ∈ dict_keys d1 -> dict_val k d1 == dict_val k d2) ->
  dict_equiv d1 d2.
Proof.
  revert d2. induction d1 as [|[k1 v1] d1 IH]; intros [|[k2 v2] d2] Hnd Hk Hv; try done.
  cbn in Hk. injection Hk as <- Hk. apply NoDup_cons in Hnd as [Hk1 Hnd].
  constructor.
  - split; [done|]. specialize (Hv k1 ltac:(cbn; set_solver)).
    unfold dict_val, dict_get_default in Hv. cbn in Hv. by rewrite string_eqb_refl in Hv.
  - apply IH; [done..|]. intros k Hk'. specialize (Hv k ltac:(cbn; set_solver)).
    unfold dict_val, dict_get_default in *. cbn in Hv.
    rewrite string_eqb_neq in Hv by set_solver. done.
Qed.

#[export] Instance dict_sum_proper : Proper (dict_equiv ==> Qeq) (fun d => qsum (map snd d)).
Proof.
  intros d1 d2 H. induction H as [|p q d1 d2 [_ Hv] _ IH]; [reflexivity|].
  cbn [map]. rewrite !qsum_cons, Hv, IH. reflexivity.
Qed.

(** A function of key and value that respects [==] maps equivalent
    dicts to the same list. *)
Lemma map_dict_equiv {B} (f : string -> Q -> B) d1 d2 :
  (forall k, Proper (Qeq ==> eq) (f k)) -> dict_equiv d1 d2 ->
  map (fun '(k, v) => f k v) d1 = map (fun '(k, v) => f k v) d2.
Proof.
  intros Hf H. induction H as [|[k1 v1] [k2 v2] d1 d2 [Hk Hv] _ IH]; [done|].
  cbn in *. subst. by rewrite IH, (Hf k2 v1 v2 Hv).
Qed.

Lemma map_dict_keys {V B} (f : string -> B) (d : dict V) :
  map f (dict_keys d) = map (fun p => f p.1) d.
Proof. induction d; cbn; f_equal; auto. Qed.

(** With distinct keys, the sum of a dict's values is the sum of the values
    read at its keys. *)
Lemma dict_sum_by_keys (d : dict Q) :
  NoDup (dict_keys d) -> qsum (map snd d) == qsum (map (fun k => dict_val k d) (dict_keys d)).
Proof.
  induction d as [|[k v] d IH]; [reflexivity|]. cbn [dict_keys fmap list_fmap map].
  intros [Hk Hnd]%NoDup_cons. cbn [fst snd] in *. rewrite !qsum_cons, IH by done.
  replace (dict_val k ((k, v) :: d)) with v
    by (unfold dict_val, dict_get_default; cbn [dict_get]; by rewrite string_eqb_refl).
  apply Qplus_comp; [reflexivity|]. apply qsum_map_ext. intros k' Hk'.
  unfold dict_val, dict_get_default. cbn [dict_get].
  rewrite string_eqb_neq by set_solver. reflexivity.
Qed.

Lemma dict_equiv_map_keys (f g : string -> Q) (ks : list string) :
  (forall k, k ∈ ks -> f k == g k) ->
  dict_equiv (map (fun k => (k, f k)) ks) (map (fun k => (k, g k)) ks).
Proof.
  induction ks as [|k ks IH]; intros H; cbn; constructor.
  - cbn. split; [done|]. apply H. set_solver.
  - apply IH. set_solver.
Qed.

Lemma map_snd_map_keys {B} (g : string -> B) (ks : list string) :
  map snd (map (fun k => (k, g k)) ks) = map g ks.
Proof. induction ks; cbn; f_equal; auto. Qed.

Lemma dict_get_lookup {V} (d : dict V) i k v :
  NoDup (dict_keys d) -> d !! i = Some (k, v) -> dict_get k d = Some v.
Proof.
  revert i. induction d as [|[k' v'] d IH]; intros [|i] Hnd Hi; cbn in *; try done.
  - injection Hi as -> ->. by rewrite string_eqb_refl.
  - apply NoDup_cons in Hnd as [Hk' Hnd]. case_streq k k'.
    + destruct Hk'. apply list_elem_of_fmap. exists (k', v). split; [done|].
      by eapply list_elem_of_lookup_2.
    + by apply (IH i).
Qed.

Lemma dict_keys_lookup {V} (d : dict V) i k v :
  d !! i = Some (k, v) -> dict_keys d !! i = Some k.
Proof. intros H. unfold dict_keys. by rewrite list_lookup_fmap, H. Qed.

Lemma dict_val_map_keys (g : string -> Q) ks k :
  k ∈ ks -> dict_val k (map (fun e => (e, g e)) ks) = g k.
Proof. intros H. unfold dict_val, dict_get_default. by rewrite dict_get_map_keys. Qed.

Lemma dict_iadd_keys k x d d' :
  dict_iadd k x d = Ok d' -> dict_keys d' = dict_keys d.
Proof.
  revert d'. induction d as [|[k' v] d IH]; intros d'; cbn; [discriminate|].
  case_streq k k'; [intros [= <-]; reflexivity|].
  destruct (dict_iadd k x d) as [d1|] eqn:Hd; cbn; [|discriminate].
  intros [= <-]. cbn. f_equal. by apply IH.
Qed.

Lemma dict_iadd_val k x d d' e :
  dict_iadd k x d = Ok d' ->
  dict_val e d' == dict_val e d + (if String.eqb e k then x else 0).
Proof.
  unfold dict_val, dict_get_default.
  revert d'. induction d as [|[k' v] d IH]; intros d'; cbn; [discriminate|].
  case_streq k k'.
  - intros [= <-]. cbn. case_streq e k'; [reflexivity|lra].
  - destruct (dict_iadd k x d) eqn:Hd; cbn; [|discriminate].
    intros [= <-]. cbn. case_streq e k'.
    + rewrite string_eqb_neq by done. lra.
    + apply IH. reflexivity.
Qed.

Lemma dict_iadd_ok k x d :
  k ∈ dict_keys d -> exists d', dict_iadd k x d = Ok d'.
Proof.
  induction d as [|[k' v] d IH]; cbn; [set_solver|].
  case_streq k k'; [eauto|]. rewrite elem_of_cons.
  intros [?|Hk]; [congruence|]. destruct (IH Hk) as [d' ->]. cbn. eauto.
Qed.

(** [mapM] in the result monad: all the calls succeed, or the first
    failure is the outcome. *)
Lemma result_mapM_ok {A B} (f : A -> result B) (g : A -> B) l :
  (forall x, x ∈ l -> f x = Ok (g x)) -> mapM f l = Ok (map g l).
Proof.
  induction l as [|x l IH]; intros H; [done|]. cbn.
  rewrite (H x) by set_solver. cbn. rewrite IH by set_solver. done.
Qed.

Lemma result_mapM_err {A B} (f : A -> result B) x l e :
  f x = Err e -> mapM f (x :: l) = Err e.
Proof. intros H. cbn. by rewrite H. Qed.

Ltac qsimpl := cbn [qsum foldr map] in *; try lra.

(** Close a decidable goal on concrete data by evaluating its decision
    procedure. *)
Ltac compute_decide :=
  match goal with |- ?P => apply (bool_decide_unpack P) end; vm_compute; exact I.

(** ** The console monad *)

Lemma io_res_bind {A B} (c : io A) (k : A -> io B) :
  io_res (c ≫= k) = (a ← io_res c; io_res (k a)).
Proof. unfold mbind, io_bind, result_bind. by destruct (io_res c). Qed.

Lemma io_out_bind_ok {A B} (c : io A) (k : A -> io B) a :
  io_res c = Ok a -> io_out (c ≫= k) = io_out c ++ io_out (k a).
Proof. intros H. unfold mbind, io_bind. by rewrite H. Qed.

Lemma io_bind_err {A B} (c : io A) (k : A -> io B) e :
  io_res c = Err e -> c ≫= k = mk_io (io_out c) (Err e).
Proof. intros H. unfold mbind, io_bind. by rewrite H. Qed.

Lemma io_res_lift {A} (r : result A) : io_res (lift r) = r.
Proof. reflexivity. Qed.

Lemma io_res_for_each {A} (l : list A) body :
  (forall x, io_res (body x) = Ok tt) -> io_res (for_each l body) = Ok tt.
Proof.
  intros H. induction l as [|x l IH]; [done|]. cbn [for_each].
  by rewrite io_res_bind, H.
Qed.

Lemma io_out_for_each {A} (l : list A) body :
  (forall x, io_res (body x) = Ok tt) -> io_out (for_each l body) = concat (map (io_out ∘ body) l).
Proof.
  intros H. induction l as [|x l IH]; [done|]. cbn [for_each].
  by rewrite (io_out_bind_ok _ _ tt), IH by apply H.
Qed.

Lemma io_for_each_print {A} (l : list A) body (f : A -> string) :
  (forall x, body x = print (f x)) ->
  io_res (for_each l body) = Ok tt /\ io_out (for_each l body) = map f l.
Proof.
  intros H. induction l as [|x l [IHr IHo]]; [done|]. cbn [for_each]. rewrite H.
  by rewrite io_res_bind, (io_out_bind_ok _ _ tt), IHr, IHo.
Qed.

Lemma io_res_seq_ok {B} (c : io unit) (k : io B) : io_res c = Ok tt -> io_res (c;; k) = io_res k.
Proof. intros H. by rewrite io_res_bind, H. Qed.

Lemma io_out_seq_ok {B} (c : io unit) (k : io B) :
  io_res c = Ok tt -> io_out (c;; k) = io_out c ++ io_out k.
Proof. apply io_out_bind_ok. Qed.

#[export] Hint Rewrite @io_res_bind @io_res_lift : bio_rw.

(** [io_ok] proves that a block of prints does not raise; [io_simpl]
    splits the output of a sequence of such blocks. *)
Ltac io_ok :=
  solve [ reflexivity
        | apply io_res_for_each; intros []; reflexivity
        | apply io_res_for_each; intros; reflexivity ].

Ltac io_simpl :=
  repeat first [ rewrite io_res_seq_ok by io_ok
               | rewrite io_out_seq_ok by io_ok ];
  cbn [io_out io_res print mret io_ret].
