(* ===== verification/Format.v ===== *)
(** * Python's format mini-language, for the numbers the scripts print

    Both scripts print their results with f-strings: [{x:,.0f}],
    [{x:>15,.0f}], [{x:,.2f}], [{x:.1f}], [{n:,}] and [{s:.<45}]. This file
    models the pieces of CPython's [format] these specifications use:
    the decimal digits of an integer ([str(n)]), the [,] thousands
    separator, fixed-point notation [.Nf] with correct rounding (half to
    even on the exact value), the sign of a negative float (kept on a
    value that rounds to zero: [-0]), [nan] and [inf], and the fill and
    alignment of a field of given width. Widths count characters; the
    fields the scripts pad hold ASCII text, where a character is a byte.

    A float is a [pyfloat]: a finite value, held as an exact rational, or
    NaN, or an infinity. [np_div] is numpy's division and [py_truediv]
    Python's [/] on Python or numpy numbers ([pynum]): the end-use
    percentage of the Sankey script (line 133) goes through it, and it
    raises only when no operand is a numpy scalar. *)

From Stdlib Require Import QArith Qabs Lqa ZArith NArith Lia String Ascii.
From stdpp Require Import base list options strings sets.
From S2P Require Import Prelude.

Open Scope Q_scope.

Module Format.

(** ** Floats and numpy's division *)

Inductive pyfloat :=
| Fin (q : Q)
| NaN
| Inf (neg : bool).

(** [a / b] on numpy floats: no exception on a zero divisor, but NaN
    for [0 / 0] and a signed infinity otherwise. *)
Definition np_div (a b : Q) : pyfloat :=
  if Qeq_bool b 0 then (if Qeq_bool a 0 then NaN else Inf (negb (Qle_bool 0 a)))
  else Fin (a / b).

(** The kinds of number that meet at the end-use percentage of the
    Sankey script: a Python [int] (the literal [0], or the sum of an empty
    [object] Series), a Python [float] (what iterating a numeric Series
    yields, and arithmetic on it) and a numpy scalar (a reduction such as
    [Series.sum()] on a numeric column). *)
Inductive pynum :=
| PyInt (z : Z)
| PyFloat (q : Q)
| NpFloat (q : Q).

Definition pynum_val (x : pynum) : Q :=
  match x with PyInt z => inject_Z z | PyFloat q | NpFloat q => q end.

(** Python's true division [a / b]: as soon as one operand is a numpy
    scalar, numpy's rule applies and nothing is raised (a numpy float
    subclasses [float], so its reflected division is tried first); between
    Python numbers a zero divisor raises [ZeroDivisionError]. *)
Definition py_truediv (a b : pynum) : result pyfloat :=
  match a, b with
  | NpFloat _, _ | _, NpFloat _ => Ok (np_div (pynum_val a) (pynum_val b))
  | _, _ =>
      if Qeq_bool (pynum_val b) 0 then Err (ZeroDivisionError "division by zero")
      else Ok (Fin (pynum_val a / pynum_val b))
  end.

(** [x * c] for a positive constant [c]. *)
Definition pf_scale (c : Q) (x : pyfloat) : pyfloat :=
  match x with Fin q => Fin (q * c) | _ => x end.

(** ** Decimal digits *)

(** The digits of [n], most significant first; [fuel] bounds their
    number. *)
Fixpoint digits_fuel (fuel : nat) (n : N) : list N :=
  match fuel with
  | O => []
  | S f => (if (n <? 10)%N then [] else digits_fuel f (n / 10)) ++ [(n mod 10)%N]
  end.

(** [str(n)] as digits: an [n] of [k] bits has at most [k] decimal
    digits, so [S (N.size n)] is enough fuel. *)
Definition digits (n : N) : list N := digits_fuel (S (N.to_nat (N.size n))) n.

(** The number a digit sequence denotes. *)
Definition digits_value (ds : list N) : N :=
  List.fold_left (fun acc d => 10 * acc + d)%N ds 0%N.

Definition digit_char (d : N) : ascii := ascii_of_nat (48 + N.to_nat d).

Definition char_digit (c : ascii) : option N :=
  let n := nat_of_ascii c in
  if (48 <=? n)%nat && (n <? 58)%nat then Some (N.of_nat (n - 48)) else None.

(** ** The thousands separator *)

(** On the reversed digits: a separator after every third digit that is
    followed by another. *)
Fixpoint group_rev {A} (sep : A) (l : list A) : list A :=
  match l with
  | a :: b :: c :: ((_ :: _) as rest) => a :: b :: c :: sep :: group_rev sep rest
  | _ => l
  end.

Definition group3 {A} (sep : A) (l : list A) : list A := rev (group_rev sep (rev l)).

(** The integer part, with or without [,]. *)
Definition int_chars (grouping : bool) (n : N) : list ascii :=
  let cs := map digit_char (digits n) in
  if grouping then group3 ","%char cs else cs.

(** [{n}] and [{n:,}] on a Python [int] (a count). *)
Definition format_int (grouping : bool) (n : nat) : string :=
  string_of_list_ascii (int_chars grouping (N.of_nat n)).

(** ** Fixed-point notation *)

(** Rounding half to even: the nearest integer, the even one on a tie. *)
Definition round_half_even (q : Q) : Z :=
  let fl := (Qnum q / Zpos (Qden q))%Z in
  let r := (Qnum q mod Zpos (Qden q))%Z in
  match Z.compare (2 * r) (Zpos (Qden q)) with
  | Lt => fl
  | Gt => fl + 1
  | Eq => if Z.even fl then fl else fl + 1
  end%Z.

(** What Python promises of the rounding of [format]: [z] is an integer
    nearest to [x], and the even one when another integer is as near. *)
Definition python_round (x : Q) (z : Z) : Prop :=
  (forall z', Qabs (inject_Z z - x) <= Qabs (inject_Z z' - x)) /\
  (forall z', z' <> z -> Qabs (inject_Z z' - x) == Qabs (inject_Z z - x) -> Z.even z = true).

(** [prec] digits after the point, leading zeros kept. *)
Definition pad_zeros (w : nat) (ds : list N) : list N :=
  replicate (w - length ds) 0%N ++ ds.

(** [{q:.Nf}] and [{q:,.Nf}]: the magnitude scaled by [10^prec] and
    rounded, split into integer and fractional digits; a minus sign for
    a negative value. *)
Definition mantissa (prec : nat) (q : Q) : N :=
  Z.to_N (round_half_even (Qabs q * inject_Z (Z.of_N (10 ^ N.of_nat prec)))).

Definition fixed_chars (grouping : bool) (prec : nat) (q : Q) : list ascii :=
  let p := (10 ^ N.of_nat prec)%N in
  let m := mantissa prec q in
  (if Qle_bool 0 q then [] else ["-"%char]) ++ int_chars grouping (m / p) ++
  match prec with
  | O => []
  | S _ => "."%char :: map digit_char (pad_zeros prec (digits (m mod p)))
  end.

Definition format_float (grouping : bool) (prec : nat) (x : pyfloat) : string :=
  match x with
  | Fin q => string_of_list_ascii (fixed_chars grouping prec q)
  | NaN => "nan"
  | Inf neg => if neg then "-inf" else "inf"
  end.

(** ** Width, fill and alignment *)

(** Python's ["\n"] (a newline inside a printed string). *)
Definition nl : string := String "010"%char EmptyString.

(** [c * n] for a one-character string [c]. *)
Definition str_repeat (n : nat) (c : ascii) : string := string_of_list_ascii (repeat c n).

(** [{s:<fill><<width>}]: [s] then the fill up to [width]. *)
Definition align_left (fill : ascii) (width : nat) (s : string) : string :=
  s +:+ str_repeat (width - String.length s) fill.

(** [{x:><width>}]: spaces, then [x]. *)
Definition align_right (width : nat) (s : string) : string :=
  str_repeat (width - String.length s) " "%char +:+ s.

(** The banner both scripts print around a section title:
    [print("\n" + "="*n); print(title); print("="*n)]. *)
Definition banner (n : nat) (title : string) : io unit :=
  print (nl +:+ str_repeat n "="%char);;
  print title;;
  print (str_repeat n "="%char).

Definition banner_lines (n : nat) (title : string) : list string :=
  [nl +:+ str_repeat n "="%char; title; str_repeat n "="%char].

(** ** Reading a printed number back

    The inverse the round-trip theorems use: an optional minus sign,
    digits with optional [,] separators, and optionally a point followed
    by digits. *)

Fixpoint parse_digits (cs : list ascii) : option (list N) :=
  match cs with
  | [] => Some []
  | c :: cs' => d ← char_digit c; ds ← parse_digits cs'; Some (d :: ds)
  end.

Definition strip_minus (cs : list ascii) : bool * list ascii :=
  match cs with
  | c :: cs' => if Ascii.eqb c "-"%char then (true, cs') else (false, cs)
  | [] => (false, [])
  end.

Definition split_point (cs : list ascii) : list ascii * list ascii :=
  match list_find (fun c => c = "."%char) cs with
  | Some (i, _) => (take i cs, drop (S i) cs)
  | None => (cs, [])
  end.

Definition parse_number (s : string) : option Q :=
  let '(neg, cs) := strip_minus (list_ascii_of_string s) in
  let '(ip, fp) := split_point cs in
  ids ← parse_digits (List.filter (fun c => negb (Ascii.eqb c ","%char)) ip);
  fds ← parse_digits fp;
  let v := inject_Z (Z.of_N (digits_value ids)) +
           inject_Z (Z.of_N (digits_value fds)) / inject_Z (Z.of_N (10 ^ N.of_nat (length fds))) in
  Some (if neg then - v else v).

(** ** Digits *)

Lemma digits_value_snoc ds d : digits_value (ds ++ [d]) = (10 * digits_value ds + d)%N.
Proof. unfold digits_value. by rewrite fold_left_app. Qed.

Lemma digits_fuel_spec fuel n :
  (0 < fuel)%nat -> (n < 10 ^ N.of_nat fuel)%N ->
  digits_value (digits_fuel fuel n) = n /\ Forall (fun d => d < 10)%N (digits_fuel fuel n).
Proof.
  revert n. induction fuel as [|f IH]; intros n Hf Hn; [lia|]. cbn [digits_fuel].
  destruct (N.ltb_spec n 10) as [Hlt|Hge].
  - rewrite N.mod_small by done. split; [done|]. by repeat constructor.
  - assert (0 < f)%nat as Hf'.
    { destruct f; [|lia]. cbn in Hn. lia. }
    destruct (IH (n / 10)%N Hf') as [Hv Hd].
    { apply N.Div0.div_lt_upper_bound. rewrite <- N.pow_succ_r'.
      by replace (N.succ (N.of_nat f)) with (N.of_nat (S f)) by lia. }
    rewrite digits_value_snoc, Hv. split.
    + symmetry. apply N.Div0.div_mod.
    + apply Forall_app. split; [done|]. constructor; [|done]. by apply N.mod_upper_bound.
Qed.

Lemma length_digits_fuel fuel k n :
  (0 < k)%nat -> (n < 10 ^ N.of_nat k)%N -> (length (digits_fuel fuel n) <= k)%nat.
Proof.
  revert n k. induction fuel as [|f IH]; intros n k Hk Hn; cbn [digits_fuel length]; [lia|].
  rewrite length_app. cbn [length]. destruct (N.ltb_spec n 10) as [Hlt|Hge]; cbn; [lia|].
  destruct k as [|[|k]]; [lia|cbn in Hn; lia|].
  enough (length (digits_fuel f (n / 10)) <= S k)%nat by lia. apply IH; [lia|].
  apply N.Div0.div_lt_upper_bound. rewrite <- N.pow_succ_r'.
  by replace (N.succ (N.of_nat (S k))) with (N.of_nat (S (S k))) by lia.
Qed.

Lemma digits_fuel_size n : (n < 10 ^ N.of_nat (S (N.to_nat (N.size n))))%N.
Proof.
  eapply N.lt_le_trans; [apply N.size_gt|].
  rewrite Nat2N.inj_succ, N2Nat.id. etrans; [apply (N.pow_le_mono_l 2 10); lia|].
  apply N.pow_le_mono_r; lia.
Qed.

Lemma digits_spec n :
  digits_value (digits n) = n /\ Forall (fun d => d < 10)%N (digits n).
Proof. apply digits_fuel_spec; [lia|apply digits_fuel_size]. Qed.



Lemma length_digits k n : (0 < k)%nat -> (n < 10 ^ N.of_nat k)%N -> (length (digits n) <= k)%nat.
Proof. apply length_digits_fuel. Qed.

Lemma char_digit_char d : (d < 10)%N -> char_digit (digit_char d) = Some d.
Proof.
  intros Hd. unfold char_digit, digit_char.
  rewrite nat_ascii_embedding by lia.
  replace ((48 <=? 48 + N.to_nat d)%nat && (48 + N.to_nat d <? 58)%nat) with true
    by (symmetry; apply andb_true_intro; split; [apply Nat.leb_le|apply Nat.ltb_lt]; lia).
  f_equal. lia.
Qed.

Lemma parse_digits_chars ds :
  Forall (fun d => d < 10)%N ds -> parse_digits (map digit_char ds) = Some ds.
Proof.
  induction 1 as [|d ds Hd _ IH]; [done|]. cbn. by rewrite char_digit_char, IH.
Qed.

Lemma digits_value_zeros k ds : digits_value (replicate k 0%N ++ ds) = digits_value ds.
Proof.
  unfold digits_value. rewrite fold_left_app. f_equal.
  induction k as [|k IH]; [done|]. rewrite replicate_S. cbn [fold_left]. by rewrite N.add_0_r.
Qed.

(** ** The separator and the characters of a number *)

Lemma group_rev_cons4 {A} (sep a b c d : A) rest :
  group_rev sep (a :: b :: c :: d :: rest) = a :: b :: c :: sep :: group_rev sep (d :: rest).
Proof. reflexivity. Qed.

Section Grouping.
Context {A : Type} (p : A -> bool) (sep : A).
Hypothesis Hsep : p sep = false.

Lemma filter_all_true l : Forall (fun x => p x = true) l -> List.filter p l = l.
Proof. induction 1 as [|x l Hx _ IH]; [done|]. cbn. by rewrite Hx, IH. Qed.

Lemma filter_group_rev l : Forall (fun x => p x = true) l -> List.filter p (group_rev sep l) = l.
Proof using Hsep.
  remember (length l) as n eqn:Hn. revert l Hn.
  induction n as [n IH] using (well_founded_induction lt_wf). intros l Hn Hall.
  destruct l as [|a [|b [|c [|d rest]]]]; [apply filter_all_true; exact Hall..|].
  rewrite group_rev_cons4.
  apply Forall_cons in Hall as [Ha [Hb [Hc Hall]%Forall_cons]%Forall_cons].
  cbn [List.filter]. rewrite Ha, Hb, Hc, Hsep, (IH (length (d :: rest))); [done| |done|done].
  rewrite Hn. cbn. lia.
Qed.

Lemma filter_group3 l : Forall (fun x => p x = true) l -> List.filter p (group3 sep l) = l.
Proof using Hsep.
  intros Hall. unfold group3. rewrite filter_rev, filter_group_rev, rev_involutive; [done|].
  by apply Forall_rev.
Qed.
End Grouping.

Lemma group_rev_Forall {A} (P : A -> Prop) sep l :
  P sep -> Forall P l -> Forall P (group_rev sep l).
Proof.
  intros Hsep. remember (length l) as n eqn:Hn. revert l Hn.
  induction n as [n IH] using (well_founded_induction lt_wf). intros l Hn Hall.
  destruct l as [|a [|b [|c [|d rest]]]]; [exact Hall..|]. rewrite group_rev_cons4.
  apply Forall_cons in Hall as [Ha [Hb [Hc Hall]%Forall_cons]%Forall_cons].
  repeat constructor; try done. apply (IH (length (d :: rest))); [|done|done].
  rewrite Hn. cbn. lia.
Qed.

(** The characters of a printed integer part. *)
Definition num_char (c : ascii) : Prop :=
  c = ","%char \/ exists d, (d < 10)%N /\ c = digit_char d.

Lemma digit_char_code d : (d < 10)%N -> nat_of_ascii (digit_char d) = (48 + N.to_nat d)%nat.
Proof. intros Hd. unfold digit_char. apply nat_ascii_embedding. lia. Qed.

(** A digit is none of the three punctuation characters a number has. *)
Lemma digit_char_punct d c :
  (d < 10)%N -> c ∈ [","; "-"; "."]%char -> digit_char d <> c.
Proof.
  intros Hd Hc Heq. apply (f_equal nat_of_ascii) in Heq. rewrite digit_char_code in Heq by done.
  repeat (apply elem_of_cons in Hc as [->|Hc]; [cbv [nat_of_ascii N_of_ascii N_of_digits] in Heq; lia|]).
  by apply elem_of_nil in Hc.
Qed.

Lemma digit_char_not_comma d : (d < 10)%N -> Ascii.eqb (digit_char d) ","%char = false.
Proof. intros Hd. apply Ascii.eqb_neq, digit_char_punct; [done|set_solver]. Qed.

Lemma num_char_not c : num_char c -> c <> "-"%char /\ c <> "."%char.
Proof.
  intros [->|(d & Hd & ->)]; [done|]. split; (apply digit_char_punct; [done|set_solver]).
Qed.

Lemma digits_nonempty n : digits n <> [].
Proof. unfold digits. cbn [digits_fuel]. intros H%(f_equal length). rewrite length_app in H. cbn in H. lia. Qed.

Lemma int_chars_num g n : Forall num_char (int_chars g n).
Proof.
  assert (Forall num_char (map digit_char (digits n))) as H.
  { apply Forall_map. eapply Forall_impl; [apply (proj2 (digits_spec n))|]. intros d Hd. right. by exists d. }
  unfold int_chars. destruct g; [|done].
  unfold group3. apply Forall_rev, group_rev_Forall; [by left|]. by apply Forall_rev.
Qed.


Lemma parse_int_chars g n :
  parse_digits (List.filter (fun c => negb (Ascii.eqb c ","%char)) (int_chars g n)) = Some (digits n).
Proof.
  destruct (digits_spec n) as [_ Hd].
  assert (Forall (fun c => negb (Ascii.eqb c ","%char) = true) (map digit_char (digits n))) as Hall.
  { apply Forall_map. eapply Forall_impl; [exact Hd|]. intros d Hd'. by rewrite digit_char_not_comma. }
  unfold int_chars. destruct g.
  - rewrite filter_group3; [by apply parse_digits_chars|done|done].
  - rewrite filter_all_true by done. by apply parse_digits_chars.
Qed.

Lemma int_chars_nonempty g n : int_chars g n <> [].
Proof.
  intros Hc. pose proof (parse_int_chars g n) as H. rewrite Hc in H. cbn in H.
  injection H as H. by apply (digits_nonempty n).
Qed.

Lemma strip_minus_num l rest :
  Forall num_char l -> l <> [] -> strip_minus (l ++ rest) = (false, l ++ rest).
Proof.
  intros Hall Hne. destruct l as [|c l]; [done|]. apply Forall_cons in Hall as [Hc _].
  cbn. destruct (Ascii.eqb_spec c "-"%char) as [->|]; [|done]. by destruct (num_char_not _ Hc).
Qed.

Lemma list_find_point l : Forall num_char l -> list_find (fun c => c = "."%char) l = None.
Proof. intros Hall. apply list_find_None. eapply Forall_impl; [exact Hall|]. apply num_char_not. Qed.

Lemma split_point_num l rest : Forall num_char l -> split_point (l ++ "."%char :: rest) = (l, rest).
Proof.
  intros Hall. unfold split_point. rewrite list_find_app_r by (by apply list_find_point).
  cbn [list_find]. rewrite decide_True by done. cbn.
  rewrite take_app_length. replace (S (length l)) with (length l + 1)%nat by lia.
  by rewrite drop_app_add.
Qed.

Lemma split_point_none l : Forall num_char l -> split_point l = (l, []).
Proof. intros Hall. unfold split_point. by rewrite list_find_point. Qed.

Lemma inject_N_div_mod a b :
  (b <> 0)%N -> inject_Z (Z.of_N (a / b)) + inject_Z (Z.of_N (a mod b)) / inject_Z (Z.of_N b)
               == inject_Z (Z.of_N a) / inject_Z (Z.of_N b).
Proof.
  intros Hb. rewrite (N.Div0.div_mod a b) at 3.
  rewrite N2Z.inj_add, N2Z.inj_mul, inject_Z_plus, inject_Z_mult. field.
  intros H. apply Hb. unfold Qeq in H. cbn in H. lia.
Qed.

Lemma length_pad_zeros w ds : (length ds <= w)%nat -> length (pad_zeros w ds) = w.
Proof. intros H. unfold pad_zeros. rewrite length_app, length_replicate. lia. Qed.

(** Reading [{q:.Nf}] back gives the rounded magnitude [m / 10^N], with
    [q]'s sign. *)
Lemma parse_fixed_chars g prec q :
  exists v, parse_number (string_of_list_ascii (fixed_chars g prec q)) = Some v /\
    v == (if Qle_bool 0 q then 1 else -1) *
         (inject_Z (Z.of_N (mantissa prec q)) / inject_Z (Z.of_N (10 ^ N.of_nat prec))).
Proof.
  set (m := mantissa prec q). set (P := (10 ^ N.of_nat prec)%N).
  assert (P <> 0)%N as HP by (apply N.pow_nonzero; lia).
  unfold parse_number, fixed_chars. fold m P. rewrite list_ascii_of_string_of_list_ascii.
  pose proof (int_chars_num g (m / P)) as Hnum.
  assert (strip_minus ((if Qle_bool 0 q then [] else ["-"%char]) ++ int_chars g (m / P) ++
      match prec with O => [] | S _ => "."%char :: map digit_char (pad_zeros prec (digits (m mod P))) end)
    = (negb (Qle_bool 0 q), int_chars g (m / P) ++
      match prec with O => [] | S _ => "."%char :: map digit_char (pad_zeros prec (digits (m mod P))) end)) as ->.
  { destruct (Qle_bool 0 q); [|done]. cbn [app]. apply strip_minus_num; [done|apply int_chars_nonempty]. }
  assert (exists fds, split_point (int_chars g (m / P) ++
      match prec with O => [] | S _ => "."%char :: map digit_char (pad_zeros prec (digits (m mod P))) end)
      = (int_chars g (m / P), map digit_char fds) /\ Forall (fun d => d < 10)%N fds /\
      digits_value fds = (m mod P)%N /\ (10 ^ N.of_nat (length fds))%N = P) as (fds & -> & Hfd & Hval & Hlen).
  { destruct prec as [|k].
    - exists []. rewrite app_nil_r, split_point_none by done. split_and!; try done.
      unfold P. cbn. symmetry. apply N.mod_1_r.
    - destruct (digits_spec (m mod P)) as [Hv Hd].
      exists (pad_zeros (S k) (digits (m mod P))). rewrite split_point_num by done.
      split_and!; [done| | |].
      + apply Forall_app. split; [apply Forall_replicate; lia|done].
      + unfold pad_zeros. by rewrite digits_value_zeros.
      + rewrite length_pad_zeros; [done|]. apply length_digits; [lia|]. by apply N.mod_upper_bound. }
  cbn iota beta. rewrite parse_int_chars, parse_digits_chars by done. cbn [mbind option_bind].
  eexists. split; [reflexivity|].
  rewrite (proj1 (digits_spec _)), Hval, Hlen.
  destruct (Qle_bool 0 q); cbn [negb]; rewrite inject_N_div_mod by done; ring.
Qed.

(** ** Rounding *)

Lemma round_half_even_Z n d :
  (2 * Z.abs (round_half_even (n # d) * Zpos d - n) <= Zpos d /\
   (2 * Z.abs (round_half_even (n # d) * Zpos d - n) = Zpos d -> Z.even (round_half_even (n # d)) = true))%Z.
Proof.
  unfold round_half_even. cbn [Qnum Qden].
  pose proof (Z.div_mod n (Zpos d) ltac:(lia)) as Hdm. pose proof (Z.mod_pos_bound n (Zpos d) ltac:(lia)).
  set (fl := (n / Zpos d)%Z) in *. set (r := (n mod Zpos d)%Z) in *.
  destruct (Z.compare_spec (2 * r) (Zpos d)).
  - destruct (Z.even fl) eqn:He; (split; [nia|intros _]); [done|].
    rewrite Z.even_add, He. done.
  - split; [nia|]. intros H'. nia.
  - split; [nia|]. intros H'. nia.
Qed.

Lemma Qabs_int_diff z n d : Qabs (inject_Z z - (n # d)) == (Z.abs (z * Zpos d - n))%Z # d.
Proof.
  assert (inject_Z z - (n # d) == (z * Zpos d - n)%Z # d) as -> by (unfold Qeq; cbn; lia).
  reflexivity.
Qed.

(** The rounded value is at most half a unit away. *)
Lemma round_half_even_near x : Qabs (inject_Z (round_half_even x) - x) <= 1 # 2.
Proof.
  destruct x as [n d]. destruct (round_half_even_Z n d) as [H _].
  rewrite Qabs_int_diff. unfold Qle. cbn. lia.
Qed.

(** On a tie the rounded value is even. *)
Lemma round_half_even_tie x :
  Qabs (inject_Z (round_half_even x) - x) == 1 # 2 -> Z.even (round_half_even x) = true.
Proof.
  destruct x as [n d]. destruct (round_half_even_Z n d) as [_ H].
  rewrite Qabs_int_diff. unfold Qeq. cbn. intros Heq. apply H. lia.
Qed.

Lemma round_half_even_nonneg x : 0 <= x -> (0 <= round_half_even x)%Z.
Proof.
  destruct x as [n d]. unfold Qle. cbn. intros Hx. unfold round_half_even. cbn [Qnum Qden].
  assert (0 <= n / Zpos d)%Z by (apply Z.div_pos; lia). destruct (Z.compare _ _); [|lia..].
  destruct (Z.even _); lia.
Qed.

Lemma Qabs_inject_Z z : Qabs (inject_Z z) = inject_Z (Z.abs z).
Proof. reflexivity. Qed.

(** Two distinct integers are at least 1 apart. *)
Lemma inject_Z_apart z z' : z <> z' -> 1 <= Qabs (inject_Z z - inject_Z z').
Proof.
  intros Hne. assert (inject_Z z - inject_Z z' == inject_Z (z - z')) as -> by (unfold Qeq; cbn; lia).
  rewrite Qabs_inject_Z. unfold Qle. cbn. lia.
Qed.

Lemma Qdiv_le_mono a b c : 0 < c -> a <= b -> a / c <= b / c.
Proof.
  intros Hc Hab. unfold Qdiv. apply Qmult_le_compat_r; [done|].
  apply Qlt_le_weak, Qinv_lt_0_compat, Hc.
Qed.

Lemma inject_pow10_pos prec : 0 < inject_Z (Z.of_N (10 ^ N.of_nat prec)).
Proof.
  assert (0 < 10 ^ N.of_nat prec)%N by (apply N.neq_0_lt_0, N.pow_nonzero; lia).
  unfold Qlt. cbn. lia.
Qed.

Lemma mantissa_round prec q :
  inject_Z (Z.of_N (mantissa prec q)) ==
  inject_Z (round_half_even (Qabs q * inject_Z (Z.of_N (10 ^ N.of_nat prec)))).
Proof.
  unfold mantissa. rewrite Z2N.id; [reflexivity|]. apply round_half_even_nonneg.
  apply Qmult_le_0_compat; [apply Qabs_nonneg|apply Qlt_le_weak, inject_pow10_pos].
Qed.

Lemma int_dist_triangle x z r :
  Qabs (inject_Z z - inject_Z r) <= Qabs (inject_Z z - x) + Qabs (inject_Z r - x).
Proof.
  pose proof (Qabs_triangle (inject_Z z - x) (x - inject_Z r)) as Ht.
  assert (inject_Z z - x + (x - inject_Z r) == inject_Z z - inject_Z r) as E by ring.
  by rewrite E, (Qabs_Qminus x (inject_Z r)) in Ht.
Qed.

(** ** Properties of the number formatting *)

(** Rounding half to even picks a nearest integer, and of two nearest
    integers the even one. *)
Lemma round_half_even_python x : python_round x (round_half_even x).
Proof.
  set (r := round_half_even x). pose proof (round_half_even_near x) as Hn. fold r in Hn.
  split.
  - intros z. destruct (Z.eq_dec z r) as [->|Hne]; [apply Qle_refl|].
    pose proof (inject_Z_apart z r Hne) as Ha.
    pose proof (int_dist_triangle x z r) as Ht. lra.
  - intros z Hne Heq. apply round_half_even_tie. fold r.
    pose proof (inject_Z_apart z r Hne) as Ha.
    pose proof (int_dist_triangle x z r) as Ht. lra.
Qed.

(** Two integers both nearest to [x] are at distance at most 1. *)
Lemma nearest_apart x z1 z2 :
  Qabs (inject_Z z1 - x) <= 1 # 2 -> Qabs (inject_Z z2 - x) <= 1 # 2 ->
  z1 = z2 \/ z1 = (z2 + 1)%Z \/ z2 = (z1 + 1)%Z.
Proof.
  intros H1 H2. pose proof (int_dist_triangle x z1 z2) as Ht.
  assert (Qabs (inject_Z z1 - inject_Z z2) <= 1) as H by lra.
  assert (inject_Z z1 - inject_Z z2 == inject_Z (z1 - z2)) as E by (unfold Qeq; cbn; lia).
  rewrite E, Qabs_inject_Z in H. unfold Qle in H. cbn in H. lia.
Qed.

Lemma python_round_unique x z1 z2 : python_round x z1 -> python_round x z2 -> z1 = z2.
Proof.
  intros [N1 T1] [N2 T2].
  assert (Qabs (inject_Z z1 - x) == Qabs (inject_Z z2 - x)) as Heq
    by (apply Qle_antisym; [apply N1|apply N2]).
  destruct (Z.eq_dec z1 z2) as [|Hne]; [done|exfalso].
  pose proof (T1 z2 (not_eq_sym Hne) (Qeq_sym _ _ Heq)) as E1.
  pose proof (T2 z1 Hne Heq) as E2.
  pose proof (round_half_even_near x) as Hn.
  pose proof (Qle_trans _ _ _ (N1 (round_half_even x)) Hn) as H1.
  pose proof (Qle_trans _ _ _ (N2 (round_half_even x)) Hn) as H2.
  destruct (nearest_apart x z1 z2 H1 H2) as [|[->| ->]]; [done|..];
    rewrite Z.even_add in *; destruct (Z.even _); discriminate.
Qed.

Lemma python_round_Qeq x y z : x == y -> python_round x z -> python_round y z.
Proof.
  intros Hxy [N T]. assert (forall z, Qabs (inject_Z z - y) == Qabs (inject_Z z - x)) as Hd
    by (intros z'; by rewrite Hxy).
  split; [intros z'; rewrite !Hd; apply N|intros z' Hne; rewrite !Hd; apply T, Hne].
Qed.



(** Printing [q] with [prec] decimals and reading the text back gives a
    number within half a unit of the last printed digit of [q]: the
    [.Nf] output is [q] correctly rounded, with or without the [,]
    separators. *)
Lemma format_float_roundtrip g prec q :
  exists v, parse_number (format_float g prec (Fin q)) = Some v /\
    Qabs (v - q) <= (1 # 2) / inject_Z (Z.of_N (10 ^ N.of_nat prec)).
Proof.
  destruct (parse_fixed_chars g prec q) as (v & Hp & Hv). exists v. split; [exact Hp|].
  pose proof (inject_pow10_pos prec) as HP.
  set (P := inject_Z (Z.of_N (10 ^ N.of_nat prec))) in *.
  pose proof (round_half_even_near (Qabs q * P)) as Hn.
  set (R := inject_Z (round_half_even (Qabs q * P))) in Hn.
  rewrite mantissa_round in Hv. fold P R in Hv.
  apply Qabs_Qle_condition in Hn as [Hn1 Hn2]. apply Qabs_Qle_condition.
  destruct (Qle_bool 0 q) eqn:Hq.
  - apply Qle_bool_iff in Hq. rewrite Qabs_pos in Hn1, Hn2 by done.
    assert (v - q == (R - q * P) / P) as -> by (rewrite Hv; field; lra).
    assert (- ((1 # 2) / P) == - (1 # 2) / P) as -> by (field; lra).
    split; apply Qdiv_le_mono; lra.
  - assert (q < 0) as Hlt by (apply Qnot_le_lt; intros H%Qle_bool_iff; congruence).
    rewrite Qabs_neg in Hn1, Hn2 by lra.
    assert (v - q == - (R - - q * P) / P) as -> by (rewrite Hv; field; lra).
    assert (- ((1 # 2) / P) == - (1 # 2) / P) as -> by (field; lra).
    split; apply Qdiv_le_mono; lra.
Qed.

(** [{n}] and [{n:,}] read back give [n]. *)
Lemma format_int_roundtrip g n :
  exists v, parse_number (format_int g n) = Some v /\ v == inject_Z (Z.of_nat n).
Proof.
  unfold format_int, parse_number. rewrite list_ascii_of_string_of_list_ascii.
  pose proof (int_chars_num g (N.of_nat n)) as Hnum.
  rewrite <- (app_nil_r (int_chars g (N.of_nat n))), strip_minus_num by (apply int_chars_nonempty || done).
  rewrite app_nil_r, split_point_none by done. cbn iota beta.
  rewrite parse_int_chars. cbn [mbind option_bind parse_digits]. eexists. split; [reflexivity|].
  rewrite (proj1 (digits_spec _)), nat_N_Z.
  change (inject_Z (Z.of_N (digits_value []))) with 0.
  unfold Qdiv. rewrite Qmult_0_l. ring.
Qed.

(** Round-half-even is determined by the value: two representations of
    the same rational round alike, so every printed number depends on
    the value only. *)
#[export] Instance round_half_even_proper : Proper (Qeq ==> eq) round_half_even.
Proof.
  intros x y Hxy. apply (python_round_unique y); [|apply round_half_even_python].
  apply (python_round_Qeq x); [done|apply round_half_even_python].
Qed.

#[export] Instance fixed_chars_proper g prec : Proper (Qeq ==> eq) (fixed_chars g prec).
Proof.
  intros x y Hxy. unfold fixed_chars.
  assert (Qle_bool 0 x = Qle_bool 0 y) as -> by (by rewrite Hxy).
  assert (mantissa prec x = mantissa prec y) as -> by (unfold mantissa; by rewrite Hxy).
  done.
Qed.

(** Floats that print alike: equal finite values, two NaNs, or two
    infinities of the same sign. *)
#[export] Instance pyfloat_equiv : Equiv pyfloat := fun x y =>
  match x, y with
  | Fin a, Fin b => a == b
  | NaN, NaN => True
  | Inf s, Inf s' => s = s'
  | _, _ => False
  end.

#[export] Instance pyfloat_equivalence : Equivalence (≡@{pyfloat}).
Proof.
  split.
  - intros [a| |s]; cbn; [reflexivity|done|done].
  - intros x y H. destruct x, y; cbn in H |- *; try done; by symmetry.
  - intros x y z H1 H2. destruct x, y, z; cbn in H1, H2 |- *; try done; by etrans.
Qed.

#[export] Instance format_float_proper g prec : Proper ((≡) ==> eq) (format_float g prec).
Proof. intros [a| |s] [b| |s'] H; cbn in H |- *; try done; [by rewrite H|by subst]. Qed.

#[export] Instance np_div_proper : Proper (Qeq ==> Qeq ==> (≡)) np_div.
Proof.
  intros a a' Ha b b' Hb. unfold np_div.
  assert (Qeq_bool a 0 = Qeq_bool a' 0) as -> by (by rewrite Ha).
  assert (Qeq_bool b 0 = Qeq_bool b' 0) as -> by (by rewrite Hb).
  assert (Qle_bool 0 a = Qle_bool 0 a') as -> by (by rewrite Ha).
  destruct (Qeq_bool b' 0); [destruct (Qeq_bool a' 0)|]; cbn; [done|done|by rewrite Ha, Hb].
Qed.

#[export] Instance pf_scale_proper c : Proper ((≡) ==> (≡)) (pf_scale c).
Proof. intros [a| |s] [b| |s']; cbn; try done. intros H. by rewrite H. Qed.

End Format.
