(* ===== verification/Records.v ===== *)
(** * Resource points and the loader

    Models the data shape and the loading loop shared by both scripts:
    [data_files] and the loop that reads each CSV, tags its rows with
    [resource_category] and concatenates the frames
    ([src/create_sankey_diagram.py] lines 11-26,
    [src/create_resource_map.py] lines 13-38). [pd.read_csv] is the one
    piece of I/O: it is a Section variable [read_csv] returning the rows
    of a file or an error, so every theorem holds for any file contents. *)

From Stdlib Require Import QArith Lqa String.
From stdpp Require Import base list options strings sets.
From S2P Require Import Prelude.

Open Scope Q_scope.

Module Records.

(** One CSV row with the columns the scripts read (spec section 6). *)
Record Row := mk_row {
  latitude : Q;
  longitude : Q;
  resource_amount : Q;
  resource : string;
  county_name : string;
  bt23_scenario : string;
  resource_price : Q
}.

(** A row of [combined_df]: the CSV row and the [resource_category]
    column added at load time. *)
Record ResourcePoint := mk_point {
  point_row : Row;
  resource_category : string
}.

Definition amount (p : ResourcePoint) : Q := resource_amount (point_row p).

(** [data_files] (both scripts, lines 11-16 and 13-18). *)
Definition data_files : dict string := [
  ("Forest Processing Waste", "data/CA_forest_processing_waste_points_BillionTonReport.csv");
  ("Logging Residues", "data/CA_logging_residues_points_BillionTonReport.csv");
  ("Other Forest Waste", "data/CA_other_forest_waste_points_BillionTonReport.csv");
  ("Small-Diameter Trees", "data/CA_small-diameter_trees_points_BillionTonReport.csv")
].

(** [df['resource_category'] = resource_name]. *)
Definition tag_rows (resource_name : string) (df : list Row) : list ResourcePoint :=
  map (fun r => mk_point r resource_name) df.

(** [combined_df[combined_df['resource_category'] == resource_name]]
    ([src/create_resource_map.py] lines 46 and 86). *)
Definition select_category (ps : list ResourcePoint) (name : string) : list ResourcePoint :=
  List.filter (fun p => String.eqb (resource_category p) name) ps.

(** The frames read from [files], tagged in order. *)
Definition tagged_frames (files : dict string) (dfs : list (list Row)) : list (list ResourcePoint) :=
  zip_with (fun '(name, _) df => tag_rows name df) files dfs.

Section Loader.
Variable read_csv : string -> result (list Row).

(** [for resource_name, file_path in data_files.items(): df =
    pd.read_csv(file_path); ...; all_data.append(df)]: the accumulator
    [all_data] is threaded through the loop; the first failing read
    aborts the script. *)
Fixpoint load_loop (files : dict string) (all_data : list (list ResourcePoint))
    : result (list (list ResourcePoint)) :=
  match files with
  | [] => Ok all_data
  | (resource_name, file_path) :: files' =>
      df ← read_csv file_path;
      load_loop files' (all_data ++ [tag_rows resource_name df])
  end.

(** [pd.concat(all_data, ignore_index=True)]: pandas refuses an empty
    list of frames. *)
Definition pd_concat (frames : list (list ResourcePoint)) : result (list ResourcePoint) :=
  match frames with
  | [] => Err (ValueError "No objects to concatenate")
  | _ => Ok (concat frames)
  end.

(** Lines 18-26 (Sankey) and 28-38 (map): [combined_df]. *)
Definition load_combined (files : dict string) : result (list ResourcePoint) :=
  all_data ← load_loop files [];
  pd_concat all_data.

Definition reads_ok (files : dict string) (dfs : list (list Row)) : Prop :=
  Forall2 (fun '(_, path) df => read_csv path = Ok df) files dfs.

End Loader.

(** Rows for the witnesses: every file holds one point. *)
Definition sample_row : Row :=
  mk_row 40 (-122) 12 "Sawmill residues" "Shasta" "basecase" 30.

Definition sample_read (path : string) : result (list Row) := Ok [sample_row].

Lemma filter_tag_rows name n df :
  List.filter (fun p => String.eqb (resource_category p) name) (tag_rows n df) =
  if String.eqb n name then tag_rows n df else [].
Proof.
  unfold tag_rows. induction df as [|r df IH]; cbn [map List.filter resource_category];
    [by destruct (String.eqb n name)|].
  rewrite IH. by destruct (String.eqb n name).
Qed.

(** Every point of the frames carries the name of the entry it was read
    for. *)
Lemma tagged_frames_categories files dfs :
  Forall (fun p => resource_category p ∈ dict_keys files) (concat (tagged_frames files dfs)).
Proof.
  revert dfs. induction files as [|[n path] files IH]; intros [|df dfs]; cbn; try constructor.
  apply Forall_app. split.
  - apply Forall_forall. intros p (r & <- & _)%list_elem_of_In%in_map_iff. cbn. set_solver.
  - eapply Forall_impl; [apply IH|]. cbn. set_solver.
Qed.

Lemma filter_absent name (ps : list ResourcePoint) (ks : list string) :
  Forall (fun p => resource_category p ∈ ks) ps -> name ∉ ks ->
  List.filter (fun p => String.eqb (resource_category p) name) ps = [].
Proof.
  induction 1 as [|p ps Hp _ IH]; intros Hn; cbn; [done|].
  case_streq (resource_category p) name; [done|]. auto.
Qed.

Section LoaderFacts.
Variable read_csv : string -> result (list Row).

Lemma load_loop_ok files acc res :
  load_loop read_csv files acc = Ok res <->
  exists dfs, reads_ok read_csv files dfs /\ res = acc ++ tagged_frames files dfs.
Proof.
  revert acc. induction files as [|[name path] files IH]; intros acc; cbn.
  - split; [intros [= <-]; exists []; split; [constructor|by rewrite app_nil_r]|].
    intros (dfs & Hr & ->). inversion Hr. by rewrite app_nil_r.
  - destruct (read_csv path) as [df|e] eqn:Hp; cbn.
    + rewrite IH. split.
      * intros (dfs & Hr & ->). exists (df :: dfs). split; [by constructor|].
        by rewrite <- app_assoc.
      * intros (dfs & Hr & ->). inversion Hr as [|? df' ? dfs' Hdf Hr']; subst.
        rewrite Hp in Hdf. injection Hdf as <-. exists dfs'. split; [done|].
        by rewrite <- app_assoc.
    + split; [done|]. intros (dfs & Hr & _). inversion Hr as [|? df' ? dfs' Hdf]; subst.
      congruence.
Qed.

Lemma load_loop_err files acc e :
  load_loop read_csv files acc = Err e ->
  exists pre name path post dfs, files = pre ++ (name, path) :: post /\
    reads_ok read_csv pre dfs /\ read_csv path = Err e.
Proof.
  revert acc. induction files as [|[name path] files IH]; intros acc; cbn; [done|].
  destruct (read_csv path) as [df|e'] eqn:Hp; cbn.
  - intros (pre & n & p & post & dfs & -> & Hr & He)%IH.
    exists ((name, path) :: pre), n, p, post, (df :: dfs). split_and!; [done| |done].
    by constructor.
  - intros [= <-]. exists [], name, path, files, []. split_and!; [done|constructor|done].
Qed.

Lemma reads_ok_unique files dfs dfs' :
  reads_ok read_csv files dfs -> reads_ok read_csv files dfs' -> dfs = dfs'.
Proof.
  intros H. revert dfs'. induction H as [|[n p] df files dfs Hp _ IH]; intros dfs' H';
    inversion H' as [|? df' ? dfs'' Hp' Hr']; subst; [done|].
  f_equal; [congruence|auto].
Qed.

Lemma reads_ok_of_all files :
  (forall name path, (name, path) ∈ files -> exists df, read_csv path = Ok df) ->
  exists dfs, reads_ok read_csv files dfs.
Proof.
  induction files as [|[n p] files IH]; intros H; [exists []; constructor|].
  destruct (H n p ltac:(left)) as [df Hdf].
  destruct IH as [dfs Hr]; [intros n' p' Hin; apply (H n' p'); by right|].
  exists (df :: dfs). by constructor.
Qed.

Lemma tagged_frames_nil files dfs :
  reads_ok read_csv files dfs -> tagged_frames files dfs = [] <-> files = [].
Proof. intros H. destruct H as [|[??] ????]; cbn; done. Qed.

(** What a successful load is made of. *)
Lemma load_combined_Ok_inv files ps :
  load_combined read_csv files = Ok ps ->
  files <> [] /\ exists dfs, reads_ok read_csv files dfs /\ ps = concat (tagged_frames files dfs).
Proof.
  unfold load_combined. destruct (load_loop read_csv files []) as [frames|e] eqn:H; cbn; [|done].
  apply load_loop_ok in H as (dfs & Hr & ->). cbn [app]. unfold pd_concat.
  pose proof (tagged_frames_nil _ _ Hr) as Hnil.
  destruct (tagged_frames files dfs) as [|f fs] eqn:Ht; [done|]. intros [= <-].
  split; [intros ->; discriminate (proj2 Hnil eq_refl)|]. exists dfs. by rewrite Ht.
Qed.

(** Reading every file of a non-empty list loads their tagged rows. *)
Lemma load_combined_of_reads files dfs :
  files <> [] -> reads_ok read_csv files dfs ->
  load_combined read_csv files = Ok (concat (tagged_frames files dfs)).
Proof.
  intros Hne Hr. unfold load_combined.
  assert (load_loop read_csv files [] = Ok ([] ++ tagged_frames files dfs)) as ->
    by (apply load_loop_ok; eauto).
  cbn. unfold pd_concat. destruct (tagged_frames files dfs) eqn:Ht; [|done].
  by apply (tagged_frames_nil _ _ Hr) in Ht.
Qed.

(** On a non-empty list of files, a failed load is a failed read. *)
Lemma load_combined_Err_read files e :
  load_combined read_csv files = Err e ->
  (files = [] /\ e = ValueError "No objects to concatenate") \/
  exists pre name path post dfs, files = pre ++ (name, path) :: post /\
    reads_ok read_csv pre dfs /\ read_csv path = Err e.
Proof.
  unfold load_combined. destruct (load_loop read_csv files []) as [frames|e'] eqn:H; cbn.
  - apply load_loop_ok in H as (dfs & Hr & ->). cbn [app]. unfold pd_concat.
    destruct (tagged_frames files dfs) eqn:Ht; [|done]. intros [= <-]. left.
    split; [by apply (tagged_frames_nil _ _ Hr)|done].
  - intros [= ->]. right. by eapply load_loop_err.
Qed.

Lemma reads_ok_elem files dfs name path :
  reads_ok read_csv files dfs -> (name, path) ∈ files -> exists df, read_csv path = Ok df.
Proof.
  intros Hr (i & Hi)%list_elem_of_lookup_1.
  destruct (Forall2_lookup_l _ _ _ _ _ Hr Hi) as (df & _ & Hdf). eauto.
Qed.

(** The loaded frame has rows exactly when one of the files read has. *)
Lemma load_rows_iff files dfs :
  reads_ok read_csv files dfs ->
  concat (tagged_frames files dfs) <> [] <->
  exists name path df, (name, path) ∈ files /\ read_csv path = Ok df /\ df <> [].
Proof.
  induction 1 as [|[n p] df files dfs Hp Hr IH]; cbn [tagged_frames zip_with concat].
  - split; [done|]. intros (? & ? & ? & Hin & _). by apply elem_of_nil in Hin.
  - rewrite app_nil. split.
    + intros Hne. destruct df as [|r df'].
      * destruct IH as [(name & path & d & Hin & Hd & Hnd) _]; [intros H; apply Hne; by split|].
        exists name, path, d. split_and!; [by right|done|done].
      * exists n, p, (r :: df'). split_and!; [by left|done|done].
    + intros (name & path & d & Hin & Hd & Hnd) [Hn Hc].
      apply elem_of_cons in Hin as [[= -> ->]|Hin].
      * rewrite Hp in Hd. injection Hd as <-. by apply Hnd, (map_eq_nil (fun r => mk_point r n) df).
      * apply IH; [|done]. eauto 10.
Qed.

(** C24 (functional). Loading succeeds exactly when the list of files is
    not empty and every [pd.read_csv] succeeds; [combined_df] is then the
    concatenation, in [data_files] order, of the frames read, each row
    tagged with the name of its file's entry. *)
Theorem load_combined_ok files ps :
  load_combined read_csv files = Ok ps <->
  files <> [] /\ exists dfs, reads_ok read_csv files dfs /\ ps = concat (tagged_frames files dfs).
Proof.
  split; [apply load_combined_Ok_inv|]. intros (Hne & dfs & Hr & ->).
  by apply load_combined_of_reads.
Qed.

(** C25 (error). A failed load is either [pd.concat] refusing an empty
    list of files, or the error of the first [pd.read_csv] that fails, all
    the files before it having been read; a missing file is never skipped. *)
Theorem load_combined_error files e :
  load_combined read_csv files = Err e ->
  ((files = [] /\ e = ValueError "No objects to concatenate") \/
   exists pre name path post dfs, files = pre ++ (name, path) :: post /\
     reads_ok read_csv pre dfs /\ read_csv path = Err e) /\
  (forall dfs, ~ reads_ok read_csv files dfs \/ files = []).
Proof.
  intros He. split; [by apply load_combined_Err_read|]. intros dfs.
  destruct files as [|f files]; [by right|left]. intros Hr.
  rewrite (load_combined_of_reads (f :: files) dfs) in He; done.
Qed.

(** C26 (roundtrip). Tagging and selecting by category are inverse: the
    rows the map script selects for a category are exactly the rows read
    from that category's file. *)
Theorem load_select_category files ps name path df :
  load_combined read_csv files = Ok ps -> NoDup (dict_keys files) -> (name, path) ∈ files ->
  read_csv path = Ok df -> select_category ps name = tag_rows name df.
Proof.
  intros (_ & dfs & Hr & ->)%load_combined_Ok_inv Hnd Hin Hp. unfold select_category.
  induction Hr as [|[n p] df' files dfs Hp' Hr IH]; [by apply elem_of_nil in Hin|].
  cbn in Hnd |- *. apply NoDup_cons in Hnd as [Hn Hnd].
  rewrite List.filter_app, filter_tag_rows.
  apply elem_of_cons in Hin as [[= -> ->]|Hin].
  - rewrite string_eqb_refl, filter_absent with (ks := dict_keys files);
      [rewrite app_nil_r; congruence|apply tagged_frames_categories|done].
  - case_streq n name.
    + destruct Hn. apply list_elem_of_fmap. by exists (name, path).
    + by apply IH.
Qed.

End LoaderFacts.

Lemma load_select_category_witness :
  select_category (concat (tagged_frames data_files [[sample_row]; [sample_row]; [sample_row]; [sample_row]]))
    "Logging Residues" = tag_rows "Logging Residues" [sample_row].
Proof.
  apply (load_select_category sample_read data_files _ "Logging Residues"
    "data/CA_logging_residues_points_BillionTonReport.csv");
    [reflexivity|compute_decide|compute_decide|reflexivity].
Defined.

Lemma load_combined_error_witness :
  (([] : dict string) = [] /\ ValueError "No objects to concatenate" = ValueError "No objects to concatenate" \/
   exists pre name path post dfs, ([] : dict string) = pre ++ (name, path) :: post /\
     reads_ok sample_read pre dfs /\ sample_read path = Err (ValueError "No objects to concatenate")) /\
  (forall dfs, ~ reads_ok sample_read [] dfs \/ ([] : dict string) = []).
Proof. apply (load_combined_error sample_read []). reflexivity. Defined.

End Records.
