(* ===== verification/Aggregate.v ===== *)
(** * Aggregation: [groupby] totals and the per-category summary

    Models [resource_totals = combined_df.groupby('resource_category')
    ['resource_amount'].sum()] ([src/create_sankey_diagram.py] line 29)
    and the summary loop of [src/create_resource_map.py] lines 45-52.
    pandas' [groupby] keeps the categories that occur, sorted ([sort=True]
    by default): [group_keys] sorts the distinct categories with Python's
    string order. [mean] of an empty column is NaN in pandas; it is [None]
    here. *)

From Stdlib Require Import QArith Lqa String.
From stdpp Require Import base list options strings sets sorting.
From S2P Require Import Prelude Records.

Open Scope Q_scope.

Module Aggregate.
Import Records.Records.

(** The index of the groupby: the distinct categories, sorted. *)
Definition group_keys (ps : list ResourcePoint) : list string :=
  sort_by String.leb (remove_dups (map resource_category ps)).

(** [['resource_amount'].sum()] within one group. *)
Definition group_sum (ps : list ResourcePoint) (k : string) : Q :=
  qsum (map amount (select_category ps k)).

(** [resource_totals], a Series indexed by category. *)
Definition resource_totals (ps : list ResourcePoint) : dict Q :=
  map (fun k => (k, group_sum ps k)) (group_keys ps).

(** [Series.mean()]: NaN (here [None]) on an empty column. *)
Definition mean (l : list Q) : option Q :=
  match l with
  | [] => None
  | _ => Some (qsum l / inject_Z (Z.of_nat (length l)))
  end.

(** What the summary loop prints for one category. *)
Record category_summary := mk_summary {
  total_amount : Q;
  avg_amount : option Q;
  n_points : nat
}.

(** Lines 46-52 of the map script, for one [resource_name]. *)
Definition summarize (ps : list ResourcePoint) (resource_name : string) : category_summary :=
  let resource_data := select_category ps resource_name in
  mk_summary (qsum (map amount resource_data)) (mean (map amount resource_data))
             (length resource_data).

(** Line 45: [for resource_name in data_files.keys()]. *)
Definition resource_summary (ps : list ResourcePoint) : list (string * category_summary) :=
  map (fun name => (name, summarize ps name)) (dict_keys data_files).

(** ** The groupby index *)

Lemma group_keys_Permutation ps : group_keys ps ≡ₚ remove_dups (map resource_category ps).
Proof. apply sort_by_Permutation. Qed.

Lemma elem_of_group_keys ps k : k ∈ group_keys ps <-> k ∈ map resource_category ps.
Proof. by rewrite group_keys_Permutation, elem_of_remove_dups. Qed.

Lemma group_keys_NoDup ps : NoDup (group_keys ps).
Proof. rewrite group_keys_Permutation. apply NoDup_remove_dups. Qed.

Lemma group_keys_sorted ps : StronglySorted str_lt (group_keys ps).
Proof.
  apply string_sorted_strict; [|apply group_keys_NoDup].
  apply sort_by_Sorted, string_leb_total.
Qed.

Lemma resource_totals_keys ps : dict_keys (resource_totals ps) = group_keys ps.
Proof. apply dict_keys_map_keys. Qed.

(** The Series is empty exactly when the frame has no rows. *)
Lemma resource_totals_nil ps : resource_totals ps = [] <-> ps = [].
Proof.
  split; [|by intros ->]. intros H. destruct ps as [|p ps]; [done|exfalso].
  assert (resource_category p ∈ dict_keys (resource_totals (p :: ps))) as Hin.
  { rewrite resource_totals_keys, elem_of_group_keys. cbn. by left. }
  rewrite H in Hin. by apply elem_of_nil in Hin.
Qed.

(** The index depends only on which categories occur. *)
Lemma group_keys_ext ps ps' :
  (forall k, k ∈ map resource_category ps <-> k ∈ map resource_category ps') ->
  group_keys ps = group_keys ps'.
Proof.
  intros H. apply str_sorted_unique; [apply group_keys_sorted..|].
  intros k. by rewrite !elem_of_group_keys.
Qed.

Lemma group_sum_Permutation ps ps' k : ps ≡ₚ ps' -> group_sum ps k == group_sum ps' k.
Proof. intros H. unfold group_sum, select_category. by rewrite (Permutation_list_filter _ _ _ H). Qed.

Lemma group_keys_Permutation_eq ps ps' : ps ≡ₚ ps' -> group_keys ps = group_keys ps'.
Proof. intros H. apply group_keys_ext. intros k. by rewrite H. Qed.

(** ** Properties of the aggregation *)

(** C14 (type). [resource_totals] is indexed by the categories that occur
    in [combined_df], each once, in increasing string order (pandas'
    [groupby] default [sort=True]). *)
Theorem resource_totals_index ps :
  StronglySorted str_lt (dict_keys (resource_totals ps)) /\
  forall k, k ∈ dict_keys (resource_totals ps) <-> exists p, p ∈ ps /\ resource_category p = k.
Proof.
  rewrite resource_totals_keys. split; [apply group_keys_sorted|].
  intros k. rewrite elem_of_group_keys, list_elem_of_In, in_map_iff.
  setoid_rewrite list_elem_of_In. naive_solver.
Qed.

(** C13 (invariant). Grouping loses no biomass: the category totals add up
    to the sum of [resource_amount] over all rows, the grand total the
    Sankey script prints (line 36). *)
Theorem resource_totals_sum ps :
  qsum (map snd (resource_totals ps)) == qsum (map amount ps).
Proof.
  unfold resource_totals. rewrite map_snd_map_keys, group_keys_Permutation.
  unfold group_sum, select_category.
  rewrite (qsum_map_ext _ _ (fun k => qsum (map (fun p =>
    if String.eqb (resource_category p) k then amount p else 0) ps)))
    by (intros; apply qsum_filter_if).
  etrans; [exact (qsum_swap (remove_dups (map resource_category ps)) ps
    (fun k p => if String.eqb (resource_category p) k then amount p else 0))|].
  apply qsum_map_ext. intros p Hp. apply qsum_indicator; [apply NoDup_remove_dups|].
  apply elem_of_remove_dups, list_elem_of_In, in_map, list_elem_of_In, Hp.
Qed.

(** C16 (equivalence). The totals do not depend on the order of the rows:
    reading the files' rows in any order gives the same index and equal
    totals. *)
Theorem resource_totals_permutation ps ps' :
  ps ≡ₚ ps' -> dict_equiv (resource_totals ps) (resource_totals ps').
Proof.
  intros H. unfold resource_totals. rewrite (group_keys_Permutation_eq _ _ H).
  apply dict_equiv_map_keys. intros k _. by apply group_sum_Permutation.
Qed.

Lemma resource_totals_permutation_witness :
  dict_equiv (resource_totals (concat (tagged_frames data_files [[sample_row]; []; [sample_row]; []])))
             (resource_totals (rev (concat (tagged_frames data_files [[sample_row]; []; [sample_row]; []])))).
Proof. apply resource_totals_permutation. apply Permutation_rev. Defined.

#[export] Instance resource_totals_proper : Proper (Permutation ==> dict_equiv) resource_totals.
Proof.
  intros ps ps' H. unfold resource_totals. rewrite (group_keys_Permutation_eq _ _ H).
  apply dict_equiv_map_keys. intros k _. by apply group_sum_Permutation.
Qed.

Lemma data_files_sorted : StronglySorted str_lt (dict_keys data_files).
Proof. cbn. repeat constructor. Qed.

(** C15 (equivalence). For rows tagged from [data_files], the order of
    [resource_totals] (which numbers the Sankey's resource nodes, lines
    105 and 116) is the order of [data_files] restricted to the
    categories that occur. The code gets it from [groupby]'s sorting, not
    from [data_files]: the two agree because the four names happen to be
    in alphabetical order. *)
Theorem resource_totals_order ps :
  Forall (fun p => resource_category p ∈ dict_keys data_files) ps ->
  dict_keys (resource_totals ps) =
  List.filter (fun k => bool_decide (k ∈ map resource_category ps)) (dict_keys data_files).
Proof.
  intros Hps. rewrite resource_totals_keys. apply str_sorted_unique.
  - apply group_keys_sorted.
  - apply StronglySorted_list_filter, data_files_sorted.
  - intros k. rewrite elem_of_group_keys, elem_of_list_filter_bool, bool_decide_eq_true.
    split; [|naive_solver]. intros Hk. split; [|done].
    apply list_elem_of_In, in_map_iff in Hk as (p & <- & Hp).
    rewrite Forall_forall in Hps. by apply Hps, list_elem_of_In.
Qed.

Lemma resource_totals_order_witness :
  dict_keys (resource_totals (concat (tagged_frames data_files [[sample_row]; []; [sample_row]; []]))) =
  ["Forest Processing Waste"; "Other Forest Waste"].
Proof.
  rewrite resource_totals_order; [reflexivity|].
  apply tagged_frames_categories.
Defined.

(** ** The map script's summary *)

(** C18 (functional). For each category the summary prints its total, its
    point count and, when the category has points, a mean equal to the
    total divided by the count; with no points pandas' mean is NaN (here
    [None]) and the total and count are 0. *)
Theorem summarize_spec ps name :
  let s := summarize ps name in
  match avg_amount s with
  | Some avg => (0 < n_points s)%nat /\
      avg * inject_Z (Z.of_nat (n_points s)) == total_amount s
  | None => n_points s = 0%nat /\ total_amount s == 0
  end.
Proof.
  cbn. destruct (select_category ps name) as [|p l] eqn:E; cbn [map mean length].
  - split; [done|reflexivity].
  - split; [lia|]. rewrite length_map, Qmult_comm. apply Qmult_div_r.
    unfold Qeq. cbn. lia.
Qed.

(** C17 (equivalence). The two scripts agree on the category totals: for
    every category of [data_files], the total the map script prints is
    the Sankey's [resource_totals] value, read as 0 when the category has
    no rows (and so no node). *)
Theorem summary_matches_resource_totals ps name :
  total_amount (summarize ps name) == dict_val name (resource_totals ps).
Proof.
  cbn. destruct (decide (name ∈ group_keys ps)) as [Hin|Hout].
  - unfold resource_totals. rewrite dict_val_map_keys by done. reflexivity.
  - unfold dict_val, dict_get_default.
    replace (dict_get name (resource_totals ps)) with (@None Q)
      by (symmetry; apply dict_get_None; by rewrite resource_totals_keys).
    unfold select_category. rewrite qsum_filter_false; [reflexivity|].
    intros p Hp. case_streq (resource_category p) name; [|done].
    destruct Hout. apply elem_of_group_keys, list_elem_of_In, in_map, list_elem_of_In, Hp.
Qed.

End Aggregate.
