(* ===== verification/Allocation.v ===== *)
(** * Allocation engine: the end-use table and the flow loop

    Models lines 39-78 ([end_uses]), 81-83 and 114 (the accumulators) and
    the nested loop of lines 116-125 of [src/create_sankey_diagram.py].
    The loop is state passing over a [link_state] record holding the
    script's [sources], [targets], [values] lists and the
    [end_use_totals] dict; [allocations[resource]] and
    [end_use_totals[end_use] += ...] are the two dict subscripts that can
    raise [KeyError], so every step returns a [result]. *)

From Stdlib Require Import QArith Lqa String.
From stdpp Require Import base list options strings sets.
From S2P Require Import Prelude.

Open Scope Q_scope.

Module Allocation.

(** ** Data *)

(** [end_uses] (lines 41-78): end use -> (resource category -> fraction). *)
Definition end_uses : dict (dict Q) := [
  ("Bioenergy & Electricity",
    [("Forest Processing Waste", 0.35); ("Logging Residues", 0.40);
     ("Other Forest Waste", 0.30); ("Small-Diameter Trees", 0.25)]);
  ("Heat & Thermal Energy",
    [("Forest Processing Waste", 0.25); ("Logging Residues", 0.20);
     ("Other Forest Waste", 0.25); ("Small-Diameter Trees", 0.15)]);
  ("Wood Pellets",
    [("Forest Processing Waste", 0.20); ("Logging Residues", 0.15);
     ("Other Forest Waste", 0.20); ("Small-Diameter Trees", 0.30)]);
  ("Biofuels (Ethanol/Biodiesel)",
    [("Forest Processing Waste", 0.10); ("Logging Residues", 0.15);
     ("Other Forest Waste", 0.10); ("Small-Diameter Trees", 0.10)]);
  ("Biochar & Soil Amendments",
    [("Forest Processing Waste", 0.05); ("Logging Residues", 0.05);
     ("Other Forest Waste", 0.10); ("Small-Diameter Trees", 0.05)]);
  ("Biochemicals & Materials",
    [("Forest Processing Waste", 0.05); ("Logging Residues", 0.05);
     ("Other Forest Waste", 0.05); ("Small-Diameter Trees", 0.15)])
].

(** The script's mutable state during the loop: the three link lists of
    the Sankey diagram and the [end_use_totals] dict. *)
Record link_state := mk_link_state {
  sources : list nat;
  targets : list nat;
  values : list Q;
  end_use_totals : dict Q
}.

(** Lines 81-83 and 114: empty lists and [{end_use: 0 for end_use in
    end_uses.keys()}]. *)
Definition init_state (eus : dict (dict Q)) : link_state :=
  mk_link_state [] [] [] (map (fun e => (e, 0)) (dict_keys eus)).

(** ** The loop *)

(** Lines 121-125, once [flow_amount] is known: the [+=] on
    [end_use_totals] and the three appends, for the [i]-th resource and
    the [j]-th end use, [n = len(resource_totals)]. *)
Definition flow_update (n i j : nat) (end_use : string) (flow_amount : Q)
    (st : link_state) : result link_state :=
  eut ← dict_iadd end_use flow_amount (end_use_totals st);
  mret (mk_link_state (sources st ++ [i]) (targets st ++ [(n + j)%nat])
                      (values st ++ [flow_amount]) eut).

(** One iteration of the inner loop (lines 119-125). *)
Definition flow_step (n i j : nat) (resource : string) (total_amount : Q)
    (end_use : string) (allocations : dict Q) (st : link_state)
    : result link_state :=
  allocation_pct ← getitem resource allocations;
  let flow_amount := total_amount * allocation_pct in
  flow_update n i j end_use flow_amount st.

(** Inner loop (line 118): [for j, (end_use, allocations) in
    enumerate(end_uses.items())]. *)
Fixpoint inner_loop (n i : nat) (resource : string) (total_amount : Q)
    (j : nat) (eus : dict (dict Q)) (st : link_state) : result link_state :=
  match eus with
  | [] => Ok st
  | (end_use, allocations) :: eus' =>
      st' ← flow_step n i j resource total_amount end_use allocations st;
      inner_loop n i resource total_amount (S j) eus' st'
  end.

(** Outer loop (line 116): [for i, (resource, total_amount) in
    enumerate(resource_totals.items())]. *)
Fixpoint outer_loop (n : nat) (eus : dict (dict Q)) (i : nat)
    (rts : dict Q) (st : link_state) : result link_state :=
  match rts with
  | [] => Ok st
  | (resource, total_amount) :: rts' =>
      st' ← inner_loop n i resource total_amount 0 eus st;
      outer_loop n eus (S i) rts' st'
  end.

(** Lines 114-125 as a whole, for the totals [resource_totals] and the
    table [end_uses]. *)
Definition allocate (resource_totals : dict Q) (eus : dict (dict Q))
    : result link_state :=
  outer_loop (length resource_totals) eus 0 resource_totals (init_state eus).

(** ** Reference specification

    What the loop promises, in closed form (spec section 4.2): one edge
    per (resource, end use) pair in row-major order, each end-use total
    the sum over resources of [total * fraction], and the first resource
    missing from a row reported as a [KeyError]. *)

(** [allocations[resource]] where it exists; only read under [dense]. *)
Definition pct (allocations : dict Q) (resource : string) : Q :=
  dict_get_default resource allocations 0.

(** The fraction of [resource] sent to the end use named [e]: the sum over
    the rows named [e] (there is one in a dict). *)
Definition frac (eus : dict (dict Q)) (e resource : string) : Q :=
  qsum (map (fun '(e', a) => if String.eqb e e' then pct a resource else 0) eus).

Definition row_has (resource : string) (eus : dict (dict Q)) : bool :=
  forallb (fun '(_, a) => bool_decide (is_Some (dict_get resource a))) eus.

(** The first resource, in iteration order, that some row lacks. *)
Fixpoint first_missing (rts : dict Q) (eus : dict (dict Q)) : option string :=
  match rts with
  | [] => None
  | (r, _) :: rts' => if row_has r eus then first_missing rts' eus else Some r
  end.

Definition ref_sources (rts : dict Q) (eus : dict (dict Q)) : list nat :=
  concat (map (fun i => replicate (length eus) i) (seq 0 (length rts))).

Definition ref_targets (rts : dict Q) (eus : dict (dict Q)) : list nat :=
  concat (map (fun _ => seq (length rts) (length eus)) rts).

Definition ref_values (rts : dict Q) (eus : dict (dict Q)) : list Q :=
  concat (map (fun '(r, t) => map (fun '(_, a) => t * pct a r) eus) rts).

Definition ref_end_use_total (rts : dict Q) (eus : dict (dict Q)) (e : string) : Q :=
  qsum (map (fun '(r, t) => t * frac eus e r) rts).

(** The invariant of both loops: every end use has an entry in
    [end_use_totals], so [end_use_totals[end_use] += ...] cannot fail. *)
Definition keys_covered (eus : dict (dict Q)) (st : link_state) : Prop :=
  forall e, e ∈ dict_keys eus -> e ∈ dict_keys (end_use_totals st).

(** The state the loop must reach. *)
Definition ref_state (rts : dict Q) (eus : dict (dict Q)) : link_state :=
  mk_link_state (ref_sources rts eus) (ref_targets rts eus) (ref_values rts eus)
    (map (fun e => (e, ref_end_use_total rts eus e)) (dict_keys eus)).

(** Link states that agree on the link lists and whose end-use totals are
    equal as rationals. *)
#[export] Instance link_state_equiv : Equiv link_state := fun s1 s2 =>
  sources s1 = sources s2 /\ targets s1 = targets s2 /\ values s1 = values s2 /\
  dict_equiv (end_use_totals s1) (end_use_totals s2).

(** What the Sankey diagram draws at a node: the sum of the values of
    the links leaving node [i], and of those entering node [k]. *)
Definition link_sum_from (i : nat) (st : link_state) : Q :=
  qsum (zip_with (fun s v => if Nat.eqb s i then v else 0) (sources st) (values st)).

Definition link_sum_to (k : nat) (st : link_state) : Q :=
  qsum (zip_with (fun t v => if Nat.eqb t k then v else 0) (targets st) (values st)).

(** The totals of spec section 8, property 3. *)
Definition spec_example_totals : dict Q :=
  [("Forest Processing Waste", 100); ("Logging Residues", 200);
   ("Other Forest Waste", 50); ("Small-Diameter Trees", 10)].

(** ** The loop against the reference *)

Lemma frac_cons e e' a eus r :
  frac ((e', a) :: eus) e r = (if String.eqb e e' then pct a r else 0) + frac eus e r.
Proof. reflexivity. Qed.

Lemma row_has_cons r e a eus :
  row_has r ((e, a) :: eus) = bool_decide (is_Some (dict_get r a)) && row_has r eus.
Proof. reflexivity. Qed.

(** A successful step of the inner loop. *)
Lemma flow_step_ok n i j r t e a eus st p :
  keys_covered ((e, a) :: eus) st -> dict_get r a = Some p ->
  exists st', flow_step n i j r t e a st = Ok st' /\
    sources st' = sources st ++ [i] /\ targets st' = targets st ++ [(n + j)%nat] /\
    values st' = values st ++ [t * p] /\
    dict_keys (end_use_totals st') = dict_keys (end_use_totals st) /\
    forall e0, dict_val e0 (end_use_totals st') ==
               dict_val e0 (end_use_totals st) + (if String.eqb e0 e then t * p else 0).
Proof.
  intros Hcov Hp. unfold flow_step, flow_update. rewrite (getitem_Some _ _ _ Hp). cbn.
  destruct (dict_iadd_ok e (t * p) (end_use_totals st)) as [eut Heut].
  { apply Hcov. cbn. set_solver. }
  rewrite Heut. cbn. eexists; split_and!; [done..| |].
  - eapply dict_iadd_keys; eauto.
  - intros e0. eapply dict_iadd_val; eauto.
Qed.

Lemma keys_covered_tail e a eus st :
  keys_covered ((e, a) :: eus) st -> keys_covered eus st.
Proof. intros H e0 ?. apply H. cbn. set_solver. Qed.

Lemma keys_covered_same eus st st' :
  dict_keys (end_use_totals st') = dict_keys (end_use_totals st) ->
  keys_covered eus st -> keys_covered eus st'.
Proof. unfold keys_covered. intros ->. done. Qed.

Lemma inner_loop_spec n i r t j eus st :
  keys_covered eus st ->
  if row_has r eus then
    exists st', inner_loop n i r t j eus st = Ok st' /\
      sources st' = sources st ++ replicate (length eus) i /\
      targets st' = targets st ++ seq (n + j) (length eus) /\
      values st' = values st ++ map (fun '(_, a) => t * pct a r) eus /\
      dict_keys (end_use_totals st') = dict_keys (end_use_totals st) /\
      forall e, dict_val e (end_use_totals st') ==
                dict_val e (end_use_totals st) + t * frac eus e r
  else inner_loop n i r t j eus st = Err (KeyError r).
Proof.
  revert j st. induction eus as [|[e a] eus IH]; intros j st Hcov.
  - cbn. eexists; split_and!; rewrite ?app_nil_r; try done.
    intros e. unfold frac. cbn. lra.
  - rewrite row_has_cons. cbn [inner_loop].
    destruct (dict_get r a) as [p|] eqn:Hp; cbn [bool_decide decide_rel andb].
    + destruct (flow_step_ok n i j r t e a eus st p Hcov Hp)
        as (st1 & -> & Hs1 & Ht1 & Hv1 & Hk1 & Hd1).
      cbn. try (rewrite bool_decide_true by done); cbn.
      specialize (IH (S j) st1
        (keys_covered_same _ _ _ Hk1 (keys_covered_tail _ _ _ _ Hcov))).
      destruct (row_has r eus); [|done].
      destruct IH as (st2 & -> & Hs2 & Ht2 & Hv2 & Hk2 & Hd2).
      assert (pct a r = p) as Hpa by (unfold pct, dict_get_default; by rewrite Hp).
      exists st2. split_and!; try done.
      * by rewrite Hs2, Hs1, <- app_assoc.
      * rewrite Ht2, Ht1, <- app_assoc, <- Nat.add_succ_r. done.
      * rewrite Hv2, Hv1, <- app_assoc. cbn [map app]. by rewrite Hpa.
      * by rewrite Hk2, Hk1.
      * intros e0. rewrite Hd2, Hd1, Hpa. unfold frac, qsum. destruct (String.eqb e0 e); lra.
    + try (rewrite bool_decide_false by (intros [? ?]; congruence)); cbn.
      unfold flow_step. by rewrite getitem_None.
Qed.

Lemma outer_loop_spec n eus i rts st :
  keys_covered eus st ->
  match first_missing rts eus with
  | Some r => outer_loop n eus i rts st = Err (KeyError r)
  | None => exists st', outer_loop n eus i rts st = Ok st' /\
      sources st' = sources st ++
        concat (map (fun k => replicate (length eus) k) (seq i (length rts))) /\
      targets st' = targets st ++ concat (map (fun _ => seq n (length eus)) rts) /\
      values st' = values st ++ ref_values rts eus /\
      dict_keys (end_use_totals st') = dict_keys (end_use_totals st) /\
      forall e, dict_val e (end_use_totals st') ==
                dict_val e (end_use_totals st) + ref_end_use_total rts eus e
  end.
Proof.
  revert i st. induction rts as [|[r t] rts IH]; intros i st Hcov;
    cbn [first_missing outer_loop].
  - eexists; split_and!; rewrite ?app_nil_r; try done.
    intros e. unfold ref_end_use_total. cbn. lra.
  - pose proof (inner_loop_spec n i r t 0 eus st Hcov) as Hin.
    destruct (row_has r eus); [|by rewrite Hin].
    destruct Hin as (st1 & -> & Hs1 & Ht1 & Hv1 & Hk1 & Hd1). cbn.
    specialize (IH (S i) st1 (keys_covered_same _ _ _ Hk1 Hcov)).
    destruct (first_missing rts eus); [done|].
    destruct IH as (st2 & -> & Hs2 & Ht2 & Hv2 & Hk2 & Hd2).
    exists st2. split; [done|]. split_and!.
    + by rewrite Hs2, Hs1, <- app_assoc.
    + by rewrite Ht2, Ht1, <- app_assoc, Nat.add_0_r.
    + by rewrite Hv2, Hv1, <- app_assoc.
    + by rewrite Hk2, Hk1.
    + intros e. rewrite Hd2, Hd1. unfold ref_end_use_total, qsum. cbn [map foldr]. lra.
Qed.

Lemma init_state_keys eus : dict_keys (end_use_totals (init_state eus)) = dict_keys eus.
Proof. apply dict_keys_map_keys. Qed.

Lemma init_state_val eus e : dict_val e (end_use_totals (init_state eus)) == 0.
Proof.
  unfold dict_val, dict_get_default. cbn. induction (dict_keys eus) as [|k ks IH]; cbn; [lra|].
  by destruct (String.eqb e k).
Qed.

Lemma init_state_covered eus : keys_covered eus (init_state eus).
Proof. intros e. by rewrite init_state_keys. Qed.

#[export] Instance link_state_equivalence : Equivalence (≡@{link_state}).
Proof.
  split.
  - intros s. split_and!; reflexivity.
  - intros s1 s2 (?&?&?&?). split_and!; by symmetry.
  - intros s1 s2 s3 (?&?&?&?) (?&?&?&?). split_and!; by etrans.
Qed.

(** The whole loop, under the invariant, on any totals. *)
Lemma allocate_spec rts eus :
  match first_missing rts eus with
  | Some r => allocate rts eus = Err (KeyError r)
  | None => exists st, allocate rts eus = Ok st /\
      sources st = ref_sources rts eus /\ targets st = ref_targets rts eus /\
      values st = ref_values rts eus /\
      dict_keys (end_use_totals st) = dict_keys eus /\
      forall e, dict_val e (end_use_totals st) == ref_end_use_total rts eus e
  end.
Proof.
  pose proof (outer_loop_spec (length rts) eus 0 rts (init_state eus)
    (init_state_covered eus)) as H.
  unfold allocate. destruct (first_missing rts eus); [done|].
  destruct H as (st & -> & Hs & Ht & Hv & Hk & Hd). exists st.
  rewrite Hs, Ht, Hv, Hk, init_state_keys. split_and!; try done.
  intros e. rewrite Hd, init_state_val. lra.
Qed.

(** ** Reference lemmas *)

Lemma frac_unique eus e a r :
  NoDup (dict_keys eus) -> (e, a) ∈ eus -> frac eus e r == pct a r.
Proof.
  induction eus as [|[e' a'] eus IH]; [set_solver|].
  cbn [dict_keys fmap list_fmap]. intros [He' Hnd]%NoDup_cons Hin. rewrite frac_cons.
  apply elem_of_cons in Hin as [[= -> ->]|Hin].
  - rewrite string_eqb_refl. unfold frac. rewrite qsum_map_zero; [lra|].
    intros [e0 a0] H0. case_streq e' e0; [|done].
    destruct He'. apply list_elem_of_fmap. by exists (e0, a0).
  - rewrite string_eqb_neq, IH by (done || intros ->; apply He', list_elem_of_fmap;
      by exists (e', a)). lra.
Qed.

Lemma first_missing_None rts eus :
  first_missing rts eus = None <->
  forall r, r ∈ dict_keys rts -> forall e a, (e, a) ∈ eus -> is_Some (dict_get r a).
Proof.
  induction rts as [|[r t] rts IH]; cbn; [set_solver|].
  unfold row_has. destruct (forallb _ eus) eqn:Hall.
  - rewrite IH. split.
    + intros H r0 Hr0 e a Hea. apply elem_of_cons in Hr0 as [->|Hr0]; [|by eapply H].
      apply forallb_forall with (x := (e, a)) in Hall; [|by apply list_elem_of_In].
      by apply bool_decide_eq_true in Hall.
    + intros H r0 Hr0. apply H. by apply elem_of_cons; right.
  - split; [done|]. intros H. apply not_true_iff_false in Hall. exfalso. apply Hall.
    apply forallb_forall. intros [e a] Hea. apply bool_decide_eq_true.
    apply (H r ltac:(left) e a). by apply list_elem_of_In.
Qed.

Lemma first_missing_Some rts eus r :
  first_missing rts eus = Some r ->
  r ∈ dict_keys rts /\ exists e a, (e, a) ∈ eus /\ dict_get r a = None.
Proof.
  induction rts as [|[r' t] rts IH]; cbn; [done|].
  unfold row_has. destruct (forallb _ eus) eqn:Hall.
  - intros (? & ?)%IH. split; [by apply elem_of_cons; right|done].
  - intros [= ->]. split; [left|].
    apply forallb_false_elem in Hall as ([e a] & Hea & Hf).
    exists e, a. split; [done|]. apply bool_decide_eq_false in Hf.
    destruct (dict_get r a); [by destruct Hf|done].
Qed.

(** The link for the [i]-th resource and the [j]-th end use sits at
    position [i * len(end_uses) + j] of the three lists. *)
Lemma ref_lookup rts eus i j r t e a :
  rts !! i = Some (r, t) -> eus !! j = Some (e, a) ->
  ref_sources rts eus !! (i * length eus + j)%nat = Some i /\
  ref_targets rts eus !! (i * length eus + j)%nat = Some (length rts + j)%nat /\
  ref_values rts eus !! (i * length eus + j)%nat = Some (t * pct a r).
Proof.
  intros Hi Hj. pose proof (lookup_lt_Some _ _ _ Hi) as Hin.
  pose proof (lookup_lt_Some _ _ _ Hj) as Hjm. unfold ref_sources, ref_targets, ref_values.
  split_and!.
  - rewrite (lookup_concat_blocks _ _ _ _ (replicate (length eus) i)).
    + by apply lookup_replicate_2.
    + apply Forall_forall. intros x (k & <- & _)%list_elem_of_In%in_map_iff.
      apply length_replicate.
    + rewrite lookup_map. rewrite (proj2 (lookup_seq 0 (length rts) i i)); [done|lia].
    + done.
  - rewrite (lookup_concat_blocks _ _ _ _ (seq (length rts) (length eus))).
    + apply lookup_seq. lia.
    + apply Forall_forall. intros x (k & <- & _)%list_elem_of_In%in_map_iff. apply length_seq.
    + by rewrite lookup_map, Hi.
    + done.
  - rewrite (lookup_concat_blocks _ _ _ _ (map (fun '(_, a) => t * pct a r) eus)).
    + by rewrite lookup_map, Hj.
    + apply Forall_forall. intros x ([??] & <- & _)%list_elem_of_In%in_map_iff. apply length_map.
    + by rewrite lookup_map, Hi.
    + done.
Qed.

Lemma length_ref_sources rts eus : length (ref_sources rts eus) = (length rts * length eus)%nat.
Proof.
  unfold ref_sources. rewrite (length_concat_map_const _ (length eus)), length_seq; [done|].
  intros; apply length_replicate.
Qed.

Lemma length_ref_targets rts eus : length (ref_targets rts eus) = (length rts * length eus)%nat.
Proof. unfold ref_targets. rewrite (length_concat_map_const _ (length eus)); [done|]. intros; apply length_seq. Qed.

Lemma length_ref_values rts eus : length (ref_values rts eus) = (length rts * length eus)%nat.
Proof.
  unfold ref_values. rewrite (length_concat_map_const _ (length eus)); [done|].
  intros [??]; apply length_map.
Qed.

Lemma ref_sources_bound rts eus : Forall (fun s => s < length rts)%nat (ref_sources rts eus).
Proof.
  apply Forall_concat, Forall_map, Forall_seq. intros k Hk. apply Forall_replicate. lia.
Qed.

Lemma ref_targets_bound rts eus :
  Forall (fun t => length rts <= t < length rts + length eus)%nat (ref_targets rts eus).
Proof. apply Forall_concat, Forall_map, Forall_forall. intros _ _. apply Forall_seq. lia. Qed.

#[export] Hint Resolve length_ref_sources length_ref_targets length_ref_values
  ref_sources_bound ref_targets_bound : bio.

(** A completed loop is in the reference state. *)
Lemma allocate_ok_inv rts eus st :
  allocate rts eus = Ok st ->
  first_missing rts eus = None /\
  sources st = ref_sources rts eus /\ targets st = ref_targets rts eus /\
  values st = ref_values rts eus /\ dict_keys (end_use_totals st) = dict_keys eus /\
  forall e, dict_val e (end_use_totals st) == ref_end_use_total rts eus e.
Proof.
  pose proof (allocate_spec rts eus) as H.
  destruct (first_missing rts eus); [by rewrite H|].
  destruct H as (st' & -> & ?). intros [= <-]. by split.
Qed.

Lemma length_ref_row (eus : dict (dict Q)) t r :
  length (map (fun '(_, a) => t * pct a r) eus) = length eus.
Proof. apply length_map. Qed.

Lemma ref_values_blocks rts eus :
  ref_values rts eus = concat (map (fun '(r, t) => map (fun '(_, a) => t * pct a r) eus) rts).
Proof. reflexivity. Qed.

(** ** Properties of the allocation loop *)

(** A completed loop is equivalent to the reference state. *)
Lemma allocate_ok_ref rts eus st :
  NoDup (dict_keys eus) -> allocate rts eus = Ok st -> st ≡ ref_state rts eus.
Proof.
  intros Hnd (_ & Hs & Ht & Hv & Hk & Hd)%allocate_ok_inv. split_and!; try done. cbn.
  apply dict_equiv_by_val; rewrite ?Hk, ?dict_keys_map_keys; [done..|].
  intros e He. by rewrite Hd, dict_val_map_keys.
Qed.

(** C1 (refinement). With a table whose end-use names are distinct (as
    the keys of a Python dict are), the loop of lines 114-125 aborts with
    [KeyError r] for the first resource [r] that some row lacks, and
    otherwise ends in a state equivalent to the reference state: the link
    lists of [ref_sources], [ref_targets], [ref_values] and, for each end
    use [e], the total [sum over resources (total * fraction)]. *)
Theorem allocate_refines rts eus :
  NoDup (dict_keys eus) ->
  match first_missing rts eus with
  | Some r => allocate rts eus = Err (KeyError r)
  | None => exists st, allocate rts eus = Ok st /\ st ≡ ref_state rts eus
  end.
Proof.
  intros Hnd. pose proof (allocate_spec rts eus) as H.
  destruct (first_missing rts eus); [done|].
  destruct H as (st & Hst & _). exists st. split; [done|]. by apply allocate_ok_ref.
Qed.

Lemma allocate_refines_witness :
  NoDup (dict_keys end_uses) /\
  exists st, allocate [("Logging Residues", 10)] end_uses = Ok st /\
    st ≡ ref_state [("Logging Residues", 10)] end_uses.
Proof.
  assert (Hnd : NoDup (dict_keys end_uses)) by compute_decide.
  split; [exact Hnd|]. exact (allocate_refines [("Logging Residues", 10)] end_uses Hnd).
Defined.

(** C6 (error). The loop completes exactly when every resource category
    of [resource_totals] has an entry in every row of the table (spec
    section 4.2: the matrix must be dense over the known categories). *)
Theorem allocate_ok_iff rts eus :
  (exists st, allocate rts eus = Ok st) <->
  forall r, r ∈ dict_keys rts -> forall e a, (e, a) ∈ eus -> is_Some (dict_get r a).
Proof.
  rewrite <- first_missing_None. pose proof (allocate_spec rts eus) as H.
  destruct (first_missing rts eus).
  - rewrite H. split; [intros [? ?]|]; done.
  - destruct H as (st & -> & _). split; eauto.
Qed.

(** C5 (error). When the loop aborts, it raises [KeyError r] for a
    resource category [r] of [resource_totals] that some row of the table
    lacks: a missing category is reported, never turned into zero flows
    (spec section 8, property 6). *)
Theorem allocate_error_missing rts eus err :
  allocate rts eus = Err err ->
  exists r e a, err = KeyError r /\ r ∈ dict_keys rts /\ (e, a) ∈ eus /\ dict_get r a = None.
Proof.
  pose proof (allocate_spec rts eus) as H.
  destruct (first_missing rts eus) as [r|] eqn:Hm.
  - rewrite H. intros [= <-].
    destruct (first_missing_Some _ _ _ Hm) as (Hr & e & a & Hea & Hn). eauto 10.
  - destruct H as (st & -> & _). done.
Qed.

Lemma allocate_error_missing_witness :
  exists r e a, KeyError "Pellet Residues" = KeyError r /\
    r ∈ dict_keys [("Pellet Residues", 5)] /\ (e, a) ∈ end_uses /\ dict_get r a = None.
Proof.
  apply (allocate_error_missing [("Pellet Residues", 5)] end_uses). vm_compute. reflexivity.
Defined.

(** C2 (functional). For an end use [e] whose row is [a], the printed
    total [end_use_totals[e]] is the sum over resource categories of
    [total_amount * a[resource]] (spec section 8, property 3). *)
Theorem allocate_end_use_total rts eus e a :
  NoDup (dict_keys eus) -> dict_get e eus = Some a -> first_missing rts eus = None ->
  exists st, allocate rts eus = Ok st /\ e ∈ dict_keys (end_use_totals st) /\
    dict_val e (end_use_totals st) == qsum (map (fun '(r, t) => t * pct a r) rts).
Proof.
  intros Hnd Hea Hm. pose proof (allocate_spec rts eus) as H. rewrite Hm in H.
  destruct H as (st & -> & _ & _ & _ & Hk & Hd). exists st. split_and!; [done| |].
  - rewrite Hk. apply dict_get_is_Some. by rewrite Hea.
  - rewrite Hd. unfold ref_end_use_total. apply qsum_map_ext. intros [r t] _.
    rewrite (frac_unique eus e a r Hnd) by (by apply dict_get_elem_of). reflexivity.
Qed.

Lemma allocate_end_use_total_witness :
  exists st, allocate spec_example_totals end_uses = Ok st /\
    dict_val "Bioenergy & Electricity" (end_use_totals st) == 132.5.
Proof.
  destruct (allocate_end_use_total spec_example_totals end_uses "Bioenergy & Electricity"
    [("Forest Processing Waste", 0.35); ("Logging Residues", 0.40);
     ("Other Forest Waste", 0.30); ("Small-Diameter Trees", 0.25)]
    ltac:(compute_decide) ltac:(reflexivity) ltac:(reflexivity)) as (st & Hst & _ & Hv).
  exists st. split; [exact Hst|]. rewrite Hv. reflexivity.
Defined.

Lemma ref_source_outflow rts eus i r t :
  rts !! i = Some (r, t) ->
  qsum (zip_with (fun s v => if Nat.eqb s i then v else 0) (ref_sources rts eus) (ref_values rts eus))
  == t * qsum (map (fun '(_, a) => pct a r) eus).
Proof.
  intros Hi. unfold ref_sources, ref_values.
  rewrite qsum_zip_with_concat
    by (apply (Forall2_map_lengths _ _ _ _ (length eus)); [by rewrite length_seq|
        intros; apply length_replicate| intros [??]; apply length_map]).
  rewrite zip_with_map.
  set (g := fun rt : string * Q =>
    let '(r', t') := rt in t' * qsum (map (fun '(_, a) => pct a r') eus)).
  rewrite (qsum_zip_with_ext _ (fun k x => if Nat.eqb k i then g x else 0)).
  - rewrite qsum_select_seq, Nat.sub_0_r, Hi. reflexivity.
  - intros k [r' t']. cbn beta iota. rewrite <- (length_ref_row eus t' r').
    rewrite qsum_zip_replicate. destruct (Nat.eqb k i); [|reflexivity].
    subst g. cbn beta iota. rewrite <- qsum_map_scale.
    apply qsum_map_ext. intros [??] _. reflexivity.
Qed.

(** C4 (functional). The links leaving the [i]-th resource node carry, in
    total, that resource's amount times the sum of its fractions over all
    end uses (spec section 8, property 1). *)
Theorem allocate_source_outflow rts eus st i r t :
  allocate rts eus = Ok st -> rts !! i = Some (r, t) ->
  link_sum_from i st == t * qsum (map (fun '(_, a) => pct a r) eus).
Proof.
  intros (_ & Hs & _ & Hv & _)%allocate_ok_inv Hi.
  unfold link_sum_from. rewrite Hs, Hv. by apply ref_source_outflow.
Qed.

Lemma ref_end_use_inflow rts eus j e a :
  NoDup (dict_keys eus) -> eus !! j = Some (e, a) ->
  qsum (zip_with (fun t v => if Nat.eqb t (length rts + j) then v else 0)
    (ref_targets rts eus) (ref_values rts eus)) == ref_end_use_total rts eus e.
Proof.
  intros Hnd Hj. unfold ref_targets, ref_values, ref_end_use_total.
  rewrite qsum_zip_with_concat
    by (apply (Forall2_map_lengths _ _ _ _ (length eus)); [done|
        intros; apply length_seq| intros [??]; apply length_map]).
  rewrite zip_with_map, zip_with_diag. apply qsum_map_ext. intros [r t] _.
  cbn beta iota. rewrite <- (length_ref_row eus t r) at 1.
  rewrite qsum_select_seq, Nat.add_comm, Nat.add_sub, lookup_map, Hj.
  replace (Nat.leb (length rts) (j + length rts)) with true
    by (symmetry; apply Nat.leb_le; lia).
  cbn. rewrite (frac_unique eus e a r Hnd) by (by eapply list_elem_of_lookup_2). reflexivity.
Qed.

(** C3 (functional). The links entering the node of the [j]-th end use
    carry, in total, exactly the printed [end_use_totals] of that end use:
    the diagram and the console report agree (spec section 8,
    property 2). *)
Theorem allocate_end_use_inflow rts eus st j e a :
  allocate rts eus = Ok st -> NoDup (dict_keys eus) -> eus !! j = Some (e, a) ->
  link_sum_to (length rts + j)%nat st == dict_val e (end_use_totals st).
Proof.
  intros (_ & _ & Ht & Hv & _ & Hd)%allocate_ok_inv Hnd Hj.
  unfold link_sum_to. rewrite Ht, Hv, Hd. by apply (ref_end_use_inflow _ _ _ _ a).
Qed.

Lemma allocate_end_use_inflow_witness :
  exists st, allocate spec_example_totals end_uses = Ok st /\
    link_sum_to 5 st == dict_val "Heat & Thermal Energy" (end_use_totals st).
Proof.
  destruct (allocate_spec spec_example_totals end_uses) as (st & Hst & _).
  exists st. split; [exact Hst|].
  apply (allocate_end_use_inflow spec_example_totals end_uses st 1 _
    [("Forest Processing Waste", 0.25); ("Logging Residues", 0.20);
     ("Other Forest Waste", 0.25); ("Small-Diameter Trees", 0.15)] Hst);
    [compute_decide|reflexivity].
Defined.

Lemma allocate_source_outflow_witness :
  exists st, allocate spec_example_totals end_uses = Ok st /\
    link_sum_from 1 st == 200 * qsum (map (fun '(_, a) => pct a "Logging Residues") end_uses).
Proof.
  destruct (allocate_spec spec_example_totals end_uses) as (st & Hst & _).
  exists st. split; [exact Hst|].
  exact (allocate_source_outflow spec_example_totals end_uses st 1 _ _ Hst eq_refl).
Defined.

(** C8 (bounds). Every link the loop emits joins a resource node to an
    end-use node of the diagram's node list [resources ++ end uses]: the
    three link lists have one entry per (resource, end use) pair, every
    source index is below [len(resource_totals)], and every target index
    lies in [[len(resource_totals), len(resource_totals) + len(end_uses))]. *)
Theorem allocate_link_bounds rts eus st :
  allocate rts eus = Ok st ->
  length (sources st) = (length rts * length eus)%nat /\
  length (targets st) = (length rts * length eus)%nat /\
  length (values st) = (length rts * length eus)%nat /\
  Forall (fun s => s < length rts)%nat (sources st) /\
  Forall (fun t => length rts <= t < length rts + length eus)%nat (targets st).
Proof.
  intros (_ & Hs & Ht & Hv & _)%allocate_ok_inv. rewrite Hs, Ht, Hv.
  split_and!; auto with bio.
Qed.

Lemma allocate_link_bounds_witness :
  exists st, allocate spec_example_totals end_uses = Ok st /\
    length (sources st) = 24%nat /\ length (targets st) = 24%nat /\ length (values st) = 24%nat /\
    Forall (fun s => s < 4)%nat (sources st) /\ Forall (fun t => 4 <= t < 4 + 6)%nat (targets st).
Proof.
  destruct (allocate_spec spec_example_totals end_uses) as (st & Hst & _).
  exists st. split; [exact Hst|].
  exact (allocate_link_bounds spec_example_totals end_uses st Hst).
Defined.

(** ** Mass balance of the code's table *)

(** Summing the per-end-use totals over the end uses exchanges the two
    sums of the reference. *)
Lemma sum_end_use_totals rts eus :
  NoDup (dict_keys eus) ->
  qsum (map (ref_end_use_total rts eus) (dict_keys eus)) ==
  qsum (map (fun '(r, t) => t * qsum (map (fun '(_, a) => pct a r) eus)) rts).
Proof.
  intros Hnd. unfold ref_end_use_total.
  etrans; [exact (qsum_swap (dict_keys eus) rts (fun e '(r, t) => t * frac eus e r))|].
  apply qsum_map_ext. intros [r t] _. cbn beta iota.
  rewrite qsum_map_scale. apply Qmult_comp; [reflexivity|].
  rewrite map_dict_keys. apply qsum_map_ext. intros [e a] Hin. by apply frac_unique.
Qed.

Lemma end_uses_NoDup : NoDup (dict_keys end_uses).
Proof. compute_decide. Qed.

(** Every resource category the table knows is allocated in full: its six
    fractions add up to exactly 1. *)
Lemma end_uses_row_sum r :
  (forall e a, (e, a) ∈ end_uses -> is_Some (dict_get r a)) ->
  qsum (map (fun '(_, a) => pct a r) end_uses) == 1.
Proof.
  intros H. specialize (H _ _ ltac:(left)).
  apply dict_get_is_Some in H. cbn in H. rewrite !elem_of_cons in H.
  destruct H as [->|[->|[->|[->|H]]]]; [vm_compute; reflexivity..|set_solver].
Qed.

(** The end-use totals of a completed loop add up to each resource total
    times the sum of its row fractions. *)
Lemma end_use_totals_sum rts eus st :
  NoDup (dict_keys eus) -> allocate rts eus = Ok st ->
  qsum (map snd (end_use_totals st)) ==
  qsum (map (fun '(r, t) => t * qsum (map (fun '(_, a) => pct a r) eus)) rts).
Proof.
  intros Hnd (_ & _ & _ & _ & Hk & Hv)%allocate_ok_inv.
  rewrite dict_sum_by_keys by (by rewrite Hk).
  rewrite Hk, (qsum_map_ext _ _ (ref_end_use_total rts eus)) by (intros; apply Hv).
  by apply sum_end_use_totals.
Qed.

(** A completed loop over the code's table ends with end-use totals that
    add up to the sum of the resource totals. *)
Lemma end_use_totals_conserved rts st :
  allocate rts end_uses = Ok st -> qsum (map snd (end_use_totals st)) == qsum (map snd rts).
Proof.
  intros Ha. pose proof Ha as (Hm & _)%allocate_ok_inv.
  pose proof (proj1 (first_missing_None rts end_uses) Hm) as Hdense.
  rewrite (end_use_totals_sum _ _ _ end_uses_NoDup Ha).
  apply qsum_map_ext. intros [r t] Hin. cbn beta iota.
  rewrite end_uses_row_sum; [cbn [snd]; lra|]. apply Hdense.
  apply list_elem_of_fmap. by exists (r, t).
Qed.

(** C7 (invariant). With the code's table, whenever the loop can run it
    neither creates nor loses biomass: the end-use totals add up to the
    sum of the resource totals (the grand total of line 133). *)
Theorem allocate_conserves_mass rts :
  first_missing rts end_uses = None ->
  exists st, allocate rts end_uses = Ok st /\
    qsum (map snd (end_use_totals st)) == qsum (map snd rts).
Proof.
  intros Hm. pose proof (allocate_spec rts end_uses) as H. rewrite Hm in H.
  destruct H as (st & Hst & _). exists st. split; [done|]. by apply end_use_totals_conserved.
Qed.

Lemma allocate_conserves_mass_witness :
  exists st, allocate spec_example_totals end_uses = Ok st /\
    qsum (map snd (end_use_totals st)) == 360.
Proof.
  destruct (allocate_conserves_mass spec_example_totals eq_refl) as (st & Hst & Hsum).
  exists st. split; [exact Hst|]. rewrite Hsum. reflexivity.
Defined.

End Allocation.
