(* ===== verification/Tables.v ===== *)
(** * The allocation table as an interface

    The allocation loop (Allocation.v) reads a table [end_use ->
    (category -> fraction)]; the Sankey pipeline (Sankey.v) relies on
    three promises of that table: distinct end-use names, a fraction for
    every category that can be loaded, and rows that allocate each
    category in full. [AllocationMatrix eus categories] states these
    promises as a class; the client lemmas below are proved against any
    instance, and [end_uses_matrix] discharges them for the code's
    [end_uses] (lines 41-78 of [src/create_sankey_diagram.py]) over the
    categories of [data_files] (lines 11-16). Spec section 9 asks for this
    table to be a configuration passed to the engine; the class is that
    configuration's contract. *)

From Stdlib Require Import QArith Lqa String.
From stdpp Require Import base list options strings sets.
From S2P Require Import Prelude Records Allocation.

Open Scope Q_scope.

Module Tables.
Import Records.Records Allocation.Allocation.

Class AllocationMatrix (eus : dict (dict Q)) (categories : list string) := {
  matrix_keys_NoDup : NoDup (dict_keys eus);
  matrix_dense : forall r, r ∈ categories -> forall e a, (e, a) ∈ eus -> is_Some (dict_get r a);
  matrix_row_sum : forall r, r ∈ categories -> qsum (map (fun '(_, a) => pct a r) eus) == 1
}.

Section Client.
Context (eus : dict (dict Q)) (categories : list string) `{Hmat : !AllocationMatrix eus categories}.

Lemma matrix_first_missing rts :
  (forall r, r ∈ dict_keys rts -> r ∈ categories) -> first_missing rts eus = None.
Proof using Hmat. intros H. apply first_missing_None. intros r Hr. apply matrix_dense, H, Hr. Qed.

Lemma matrix_allocate_ok rts :
  (forall r, r ∈ dict_keys rts -> r ∈ categories) -> exists st, allocate rts eus = Ok st.
Proof using Hmat.
  intros H. pose proof (allocate_spec rts eus) as Ha.
  rewrite (matrix_first_missing rts H) in Ha. destruct Ha as (st & -> & _). eauto.
Qed.

Lemma matrix_conserves rts st :
  (forall r, r ∈ dict_keys rts -> r ∈ categories) -> allocate rts eus = Ok st ->
  qsum (map snd (end_use_totals st)) == qsum (map snd rts).
Proof using Hmat.
  intros H Ha. rewrite (end_use_totals_sum _ _ _ matrix_keys_NoDup Ha).
  apply qsum_map_ext. intros [r t] Hin. cbn beta iota.
  rewrite matrix_row_sum; [cbn [snd]; lra|]. apply H, list_elem_of_fmap. by exists (r, t).
Qed.

Lemma matrix_source_outflow rts st i r t :
  (forall r, r ∈ dict_keys rts -> r ∈ categories) -> allocate rts eus = Ok st ->
  rts !! i = Some (r, t) -> link_sum_from i st == t.
Proof using Hmat.
  intros H (_ & Hs & _ & Hv & _)%allocate_ok_inv Hi. unfold link_sum_from. rewrite Hs, Hv.
  rewrite (ref_source_outflow _ _ _ _ _ Hi), matrix_row_sum; [lra|].
  apply H. eapply dict_keys_lookup, list_elem_of_lookup_2 in Hi. exact Hi.
Qed.
End Client.

(** ** The code's table *)

(** Every category of [data_files] has a fraction in every row of
    [end_uses]. *)
Lemma data_files_dense k :
  k ∈ dict_keys data_files -> forall e a, (e, a) ∈ end_uses -> is_Some (dict_get k a).
Proof.
  cbn. rewrite !elem_of_cons. intros Hk e a Hea.
  repeat (apply elem_of_cons in Hea as [[= -> ->]|Hea]);
    [..|by apply elem_of_nil in Hea];
    destruct Hk as [->|[->|[->|[->|Hk]]]]; try (by eexists); by apply elem_of_nil in Hk.
Qed.

#[export] Instance end_uses_matrix : AllocationMatrix end_uses (dict_keys data_files).
Proof.
  split.
  - exact end_uses_NoDup.
  - exact data_files_dense.
  - intros r Hr. apply end_uses_row_sum. by apply data_files_dense.
Qed.

(** C40 (functional). Against any table meeting the [AllocationMatrix]
    contract, the loop runs without [KeyError] on totals over the
    contract's categories, every resource node sends out exactly its
    total, and the end-use totals add up to the grand total; the code's
    table meets the contract for the categories of [data_files]. *)
Theorem matrix_allocation_balanced eus categories `{!AllocationMatrix eus categories} rts :
  (forall r, r ∈ dict_keys rts -> r ∈ categories) ->
  exists st, allocate rts eus = Ok st /\
    qsum (map snd (end_use_totals st)) == qsum (map snd rts) /\
    forall i r t, rts !! i = Some (r, t) -> link_sum_from i st == t.
Proof.
  intros H. destruct (matrix_allocate_ok eus categories rts H) as [st Ha].
  exists st. split_and!; [done|by eapply matrix_conserves|].
  intros i r t Hi. by eapply matrix_source_outflow.
Qed.

Lemma matrix_allocation_balanced_witness :
  exists st, allocate spec_example_totals end_uses = Ok st /\
    qsum (map snd (end_use_totals st)) == qsum (map snd spec_example_totals) /\
    forall i r t, spec_example_totals !! i = Some (r, t) -> link_sum_from i st == t.
Proof.
  apply (matrix_allocation_balanced end_uses (dict_keys data_files) spec_example_totals).
  intros r Hr. exact Hr.
Defined.

End Tables.
