(* ===== verification/Sankey.v ===== *)
(** * The Sankey script end to end

    Models the node list of [src/create_sankey_diagram.py] (colour tables
    lines 88-102, [node_labels] and [node_colors] lines 105-107, the
    hover values of line 145), the end-use percentages of line 133 (whose
    division raises [ZeroDivisionError] when no row was loaded, its two
    operands then being the Python [int] [0]) and composes the loader, the
    [groupby] totals, the allocation loop and the percentages into
    [sankey_script], the data the script hands to [go.Sankey] (lines
    138-156). Plotly's rendering and the HTML file are not modelled; what
    the figure shows at a node is modelled by [link_sum_from] /
    [link_sum_to] of Allocation.v. *)

From Stdlib Require Import QArith Lqa String.
From stdpp Require Import base list options strings sets sorting.
From S2P Require Import Prelude Format Records Aggregate Allocation Tables.

Open Scope Q_scope.

Module Sankey.
Import Format.Format Records.Records Aggregate.Aggregate Allocation.Allocation Tables.Tables.

(** Lines 88-93. *)
Definition resource_colors : dict string := [
  ("Forest Processing Waste", "#FF6B6B"); ("Logging Residues", "#4ECDC4");
  ("Other Forest Waste", "#95E1D3"); ("Small-Diameter Trees", "#F38181")
].

(** Lines 95-102. *)
Definition end_use_colors : dict string := [
  ("Bioenergy & Electricity", "#FFA07A"); ("Heat & Thermal Energy", "#FFD700");
  ("Wood Pellets", "#DDA15E"); ("Biofuels (Ethanol/Biodiesel)", "#90EE90");
  ("Biochar & Soil Amendments", "#8B4513"); ("Biochemicals & Materials", "#9370DB")
].

(** Line 105: resources first, then end uses. *)
Definition node_labels (rts : dict Q) (eus : dict (dict Q)) : list string :=
  dict_keys rts ++ dict_keys eus.

(** [[d[k] for k in ks]]: evaluated left to right, the first missing key
    raises. *)
Fixpoint lookup_all (d : dict string) (ks : list string) : result (list string) :=
  match ks with
  | [] => Ok []
  | k :: ks' => c ← getitem k d; cs ← lookup_all d ks'; mret (c :: cs)
  end.

(** Lines 106-107. *)
Definition node_colors (rts : dict Q) (eus : dict (dict Q)) : result (list string) :=
  rc ← lookup_all resource_colors (dict_keys rts);
  ec ← lookup_all end_use_colors (dict_keys eus);
  mret (rc ++ ec).

(** Line 145, the number shown on hover at a node:
    [resource_totals.get(label, end_use_totals.get(label, 0))]. *)
Definition node_value (rts : dict Q) (eut : dict Q) (label : string) : Q :=
  dict_get_default label rts (dict_get_default label eut 0).

(** ** The end-use percentages (lines 132-133)

    [end_use_totals[end_use]] starts as the [int] literal [0] of line 114
    and becomes a Python [float] at its first [+=] (line 121: iterating
    [resource_totals] yields Python floats), which every end use receives
    once per resource: it is still the [int] [0] exactly when
    [resource_totals] is empty. [resource_totals.sum()] is a numpy scalar,
    except on an empty Series: [pd.read_csv] of a header-only file gives
    [object] columns, and an empty [object] Series sums to the [int] [0]. *)
Definition end_use_total_num (rts : dict Q) (total : Q) : pynum :=
  match rts with [] => PyInt 0 | _ => PyFloat total end.

Definition grand_total_num (rts : dict Q) : pynum :=
  match rts with [] => PyInt 0 | _ => NpFloat (qsum (map snd rts)) end.

(** Line 133: [pct = (total / resource_totals.sum()) * 100]. *)
Definition end_use_pct (rts : dict Q) (total : Q) : result pyfloat :=
  q ← py_truediv (end_use_total_num rts total) (grand_total_num rts);
  mret (pf_scale 100 q).

(** Lines 132-133 for every end use, in order; the first division that
    raises stops the script. *)
Definition end_use_pcts (rts : dict Q) (eut : dict Q) : result (list pyfloat) :=
  mapM (fun '(_, total) => end_use_pct rts total) eut.

(** What the script passes to [go.Sankey]. *)
Record sankey_data := mk_sankey_data {
  fig_labels : list string;
  fig_colors : list string;
  fig_node_values : list Q;
  fig_sources : list nat;
  fig_targets : list nat;
  fig_values : list Q
}.

(** Lines 18-156 for a given [pd.read_csv], without the prints: load
    (18-26), group (29), nodes (105-107), the allocation loop (114-125),
    the end-use percentages, which are only printed but whose division
    can raise (132-133), and the figure's data (138-156). *)
Definition sankey_script (read_csv : string -> result (list Row)) : result sankey_data :=
  combined_df ← load_combined read_csv data_files;
  let rts := resource_totals combined_df in
  let labels := node_labels rts end_uses in
  colors ← node_colors rts end_uses;
  st ← allocate rts end_uses;
  end_use_pcts rts (end_use_totals st);;
  mret (mk_sankey_data labels colors
          (map (node_value rts (end_use_totals st)) labels)
          (sources st) (targets st) (values st)).

(** The figure of a run in which every file holds [sample_row]. *)
Definition sample_fig : sankey_data :=
  match sankey_script sample_read with
  | Ok f => f
  | Err _ => mk_sankey_data [] [] [] [] [] []
  end.

(** ** Lemmas *)

Lemma lookup_all_ok d ks :
  (forall k, k ∈ ks -> k ∈ dict_keys d) -> exists cs, lookup_all d ks = Ok cs.
Proof.
  induction ks as [|k ks IH]; intros H; cbn; [eauto|].
  destruct (proj2 (dict_get_is_Some k d) (H k ltac:(left))) as [c Hc].
  unfold getitem. rewrite Hc. cbn.
  destruct IH as [cs ->]; [intros; apply H; by right|]. cbn. eauto.
Qed.

(** The categories a load can produce. *)
Lemma load_categories read_csv ps :
  load_combined read_csv data_files = Ok ps ->
  forall k, k ∈ dict_keys (resource_totals ps) -> k ∈ dict_keys data_files.
Proof.
  intros (_ & dfs & _ & ->)%load_combined_Ok_inv k.
  rewrite resource_totals_keys, elem_of_group_keys, list_elem_of_In, in_map_iff.
  intros (p & <- & Hp%list_elem_of_In).
  pose proof (tagged_frames_categories data_files dfs) as H.
  rewrite Forall_forall in H. by apply H.
Qed.

Lemma resource_colors_keys : dict_keys resource_colors = dict_keys data_files.
Proof. reflexivity. Qed.

Lemma end_use_colors_keys : dict_keys end_use_colors = dict_keys end_uses.
Proof. reflexivity. Qed.

Lemma end_use_pct_np rts t :
  rts <> [] -> end_use_pct rts t = Ok (pf_scale 100 (np_div t (qsum (map snd rts)))).
Proof. by destruct rts. Qed.

Lemma end_use_pcts_np rts eut :
  rts <> [] ->
  end_use_pcts rts eut = Ok (map (fun '(_, t) => pf_scale 100 (np_div t (qsum (map snd rts)))) eut).
Proof. intros H. apply result_mapM_ok. intros [e t] _. by apply end_use_pct_np. Qed.

(** With no row loaded, line 133 divides the [int] [0] by the [int] [0]. *)
Lemma sankey_script_no_rows read_csv :
  load_combined read_csv data_files = Ok [] ->
  sankey_script read_csv = Err (ZeroDivisionError "division by zero").
Proof. intros Hl. unfold sankey_script. rewrite Hl. vm_compute. reflexivity. Qed.

(** What a successful run is made of. *)
Lemma sankey_script_Ok_inv read_csv fig :
  sankey_script read_csv = Ok fig ->
  exists ps colors st, load_combined read_csv data_files = Ok ps /\ ps <> [] /\
    node_colors (resource_totals ps) end_uses = Ok colors /\
    allocate (resource_totals ps) end_uses = Ok st /\
    fig = mk_sankey_data (node_labels (resource_totals ps) end_uses) colors
            (map (node_value (resource_totals ps) (end_use_totals st))
                 (node_labels (resource_totals ps) end_uses))
            (sources st) (targets st) (values st).
Proof.
  destruct (load_combined read_csv data_files) as [[|p ps]|] eqn:Hl.
  - by rewrite (sankey_script_no_rows _ Hl).
  - unfold sankey_script. rewrite Hl. cbn [mbind result_bind].
    destruct (node_colors _ _) as [colors|] eqn:Hc; [|done]. cbn [mbind result_bind].
    destruct (allocate _ _) as [st|] eqn:Ha; [|done]. cbn [mbind result_bind].
    rewrite end_use_pcts_np by (by rewrite resource_totals_nil).
    cbn. intros [= <-]. eauto 10.
  - unfold sankey_script. by rewrite Hl.
Qed.

(** Once the files are loaded and hold a row nothing can fail: every
    category has a colour and a row in every end use's table, and the
    percentages divide numpy scalars. *)
Lemma sankey_after_load read_csv ps :
  load_combined read_csv data_files = Ok ps -> ps <> [] -> exists fig, sankey_script read_csv = Ok fig.
Proof.
  intros Hl Hne. set (rts := resource_totals ps).
  pose proof (load_categories _ _ Hl) as Hcat.
  destruct (lookup_all_ok resource_colors (dict_keys rts)) as [rc Hrc];
    [intros k Hk; rewrite resource_colors_keys; by apply Hcat|].
  destruct (lookup_all_ok end_use_colors (dict_keys end_uses)) as [ec Hec];
    [by rewrite end_use_colors_keys|].
  pose proof (matrix_first_missing end_uses (dict_keys data_files) rts Hcat) as Hm.
  pose proof (allocate_spec rts end_uses) as Ha. rewrite Hm in Ha.
  destruct Ha as (st & Ha & _).
  assert (node_colors rts end_uses = Ok (rc ++ ec)) as Hnc
    by (unfold node_colors; rewrite Hrc, Hec; reflexivity).
  eexists. unfold sankey_script. rewrite Hl. cbn [mbind result_bind].
  fold rts. rewrite Hnc. cbn [mbind result_bind]. rewrite Ha. cbn [mbind result_bind].
  rewrite end_use_pcts_np by (by unfold rts; rewrite resource_totals_nil). reflexivity.
Qed.

(** [[d[k] for k in ks]] gives, in order, the value of each key. *)
Lemma lookup_all_spec d ks cs :
  lookup_all d ks = Ok cs -> Forall2 (fun k c => dict_get k d = Some c) ks cs.
Proof.
  revert cs. induction ks as [|k ks IH]; intros cs; cbn; [intros [= <-]; constructor|].
  unfold getitem. destruct (dict_get k d) as [c|] eqn:Hk; [|done]. cbn.
  destruct (lookup_all d ks) as [cs'|]; [|done]. cbn. intros [= <-]. constructor; [done|]. by apply IH.
Qed.

Lemma node_labels_resource rts eus i r t :
  rts !! i = Some (r, t) -> node_labels rts eus !! i = Some r.
Proof.
  intros Hi. unfold node_labels. apply lookup_app_l_Some. by eapply dict_keys_lookup.
Qed.

Lemma node_labels_end_use rts eus j e a :
  eus !! j = Some (e, a) -> node_labels rts eus !! (length rts + j)%nat = Some e.
Proof.
  intros Hj. unfold node_labels. rewrite lookup_app_r; unfold dict_keys; rewrite length_fmap; [|lia].
  replace (length rts + j - length rts)%nat with j by lia. by eapply dict_keys_lookup.
Qed.

Lemma length_node_labels rts eus : length (node_labels rts eus) = (length rts + length eus)%nat.
Proof. unfold node_labels, dict_keys. by rewrite length_app, !length_fmap. Qed.

Lemma node_value_resource rts eut i r t :
  NoDup (dict_keys rts) -> rts !! i = Some (r, t) -> node_value rts eut r = t.
Proof. intros Hnd Hi. unfold node_value, dict_get_default. by erewrite dict_get_lookup. Qed.

Lemma node_value_end_use rts eut e :
  e ∉ dict_keys rts -> node_value rts eut e = dict_val e eut.
Proof. intros He. unfold node_value, dict_get_default. by rewrite (proj2 (dict_get_None _ _) He). Qed.

Lemma resource_totals_NoDup ps : NoDup (dict_keys (resource_totals ps)).
Proof. rewrite resource_totals_keys. apply group_keys_NoDup. Qed.

(** No end use shares its name with a resource category. *)
Lemma end_uses_disjoint e : e ∈ dict_keys end_uses -> e ∉ dict_keys data_files.
Proof.
  assert (Forall (fun e => e ∉ dict_keys data_files) (dict_keys end_uses)) as H by compute_decide.
  rewrite Forall_forall in H. apply H.
Qed.

(** The [k]-th link of a run, located in the reference lists. *)
Lemma sankey_link_at rts st k v :
  allocate rts end_uses = Ok st -> values st !! k = Some v ->
  exists i j r t e a, rts !! i = Some (r, t) /\ end_uses !! j = Some (e, a) /\
    sources st !! k = Some i /\ targets st !! k = Some (length rts + j)%nat /\
    v = t * pct a r.
Proof.
  intros (_ & Hs & Ht & Hv & _)%allocate_ok_inv Hk.
  pose proof (lookup_lt_Some _ _ _ Hk) as Hlt. rewrite Hv, length_ref_values in Hlt.
  destruct (index_split (length end_uses) (length rts) k) as (i & j & -> & Hi & Hj);
    [cbn; lia|done|].
  destruct (lookup_lt_is_Some_2 rts i Hi) as [[r t] Hrt].
  destruct (lookup_lt_is_Some_2 end_uses j Hj) as [[e a] Hea].
  destruct (ref_lookup rts end_uses i j r t e a Hrt Hea) as (Hsi & Hti & Hvi).
  exists i, j, r, t, e, a. rewrite Hs, Ht. split_and!; try done.
  rewrite Hv, Hvi in Hk. congruence.
Qed.

(** ** Properties of the Sankey script *)

(** A failed load is a failed read of one of the data files. *)
Lemma load_error_read read_csv e :
  load_combined read_csv data_files = Err e ->
  exists name path, (name, path) ∈ data_files /\ read_csv path = Err e.
Proof.
  intros Hl.
  destruct (load_combined_Err_read _ _ _ Hl) as [[? _]|(pre & name & path & post & dfs & Hf & _ & He)];
    [done|].
  exists name, path. split; [|done]. rewrite Hf. set_solver.
Qed.

(** C9 (safety). With its fixed tables the Sankey script never raises
    [KeyError]: it produces its figure exactly when every data file can
    be read and at least one of them has a row (with no row at all, line
    133 divides the [int] [0] by the [int] [0]). *)
Theorem sankey_script_ok_iff read_csv :
  (exists fig, sankey_script read_csv = Ok fig) <->
  (forall name path, (name, path) ∈ data_files -> exists df, read_csv path = Ok df) /\
  (exists name path df, (name, path) ∈ data_files /\ read_csv path = Ok df /\ df <> []).
Proof.
  split.
  - intros [fig (ps & _ & _ & Hl & Hne & _)%sankey_script_Ok_inv].
    apply load_combined_Ok_inv in Hl as (_ & dfs & Hr & ->). split.
    + intros name path Hin. by eapply reads_ok_elem.
    + by apply (load_rows_iff read_csv data_files dfs Hr).
  - intros [H Hrow]. destruct (reads_ok_of_all read_csv data_files H) as [dfs Hr].
    apply (sankey_after_load _ (concat (tagged_frames data_files dfs))).
    + by apply load_combined_of_reads.
    + by apply (load_rows_iff read_csv data_files dfs Hr).
Qed.

(** C10 (error). The Sankey script fails in two ways only: a data file
    cannot be read, and the script fails with that read's error; or every
    file is read and none has a row, and line 133 raises
    [ZeroDivisionError]. *)
Theorem sankey_script_error read_csv e :
  sankey_script read_csv = Err e ->
  (exists name path, (name, path) ∈ data_files /\ read_csv path = Err e) \/
  (e = ZeroDivisionError "division by zero" /\
   forall name path, (name, path) ∈ data_files -> read_csv path = Ok []).
Proof.
  destruct (load_combined read_csv data_files) as [[|p ps]|e'] eqn:Hl.
  - rewrite (sankey_script_no_rows _ Hl). intros [= <-]. right. split; [done|].
    apply load_combined_Ok_inv in Hl as (_ & dfs & Hr & Hnil).
    intros name path Hin. destruct (reads_ok_elem _ _ _ _ _ Hr Hin) as [[|r df] Hdf]; [done|exfalso].
    assert (concat (tagged_frames data_files dfs) <> []) as Hc.
    { apply (load_rows_iff read_csv data_files dfs Hr). exists name, path, (r :: df). by split_and!. }
    by rewrite <- Hnil in Hc.
  - by destruct (sankey_after_load _ _ Hl ltac:(done)) as [fig ->].
  - unfold sankey_script. rewrite Hl. intros [= <-]. left. by apply load_error_read.
Qed.

Lemma sankey_script_error_witness :
  (exists name path, (name, path) ∈ data_files /\
     (fun _ : string => Ok ([] : list Row)) path = Err (ZeroDivisionError "division by zero")) \/
  (ZeroDivisionError "division by zero" = ZeroDivisionError "division by zero" /\
   forall name path, (name, path) ∈ data_files -> (fun _ : string => Ok ([] : list Row)) path = Ok []).
Proof. apply (sankey_script_error (fun _ => Ok [])). vm_compute. reflexivity. Defined.

(** C27 (functional). Lines 105-107 line up: the [k]-th colour handed to
    [go.Sankey] is the colour of the [k]-th node label, that of
    [resource_colors] for a category and that of [end_use_colors] for an
    end use (the two tables share no name). *)
Theorem sankey_node_colors read_csv fig :
  sankey_script read_csv = Ok fig ->
  Forall2 (fun l c => dict_get l (resource_colors ++ end_use_colors) = Some c)
    (fig_labels fig) (fig_colors fig).
Proof.
  intros (ps & colors & st & Hl & _ & Hc & _ & ->)%sankey_script_Ok_inv. cbn [fig_labels fig_colors].
  unfold node_colors in Hc.
  destruct (lookup_all resource_colors _) as [rc|] eqn:Hrc; [|done]. cbn [mbind result_bind] in Hc.
  destruct (lookup_all end_use_colors _) as [ec|] eqn:Hec; [|done]. cbn [mbind result_bind] in Hc.
  injection Hc as <-. unfold node_labels. apply Forall2_app.
  - eapply Forall2_impl; [exact (lookup_all_spec _ _ _ Hrc)|]. intros l c H. by rewrite dict_get_app, H.
  - vm_compute in Hec. injection Hec as <-. vm_compute. repeat constructor.
Qed.

Lemma sankey_node_colors_witness :
  Forall2 (fun l c => dict_get l (resource_colors ++ end_use_colors) = Some c)
    (fig_labels sample_fig) (fig_colors sample_fig).
Proof. apply (sankey_node_colors sample_read). vm_compute. reflexivity. Defined.

(** C11 (functional). Every link of the figure joins a resource node to
    an end-use node and carries the amount shown at its source node times
    the table's fraction for the two labels: the integer indices of lines
    123-124 point at the right labels of line 105. *)
Theorem sankey_links_meaning read_csv fig k v :
  sankey_script read_csv = Ok fig -> fig_values fig !! k = Some v ->
  exists s t r e a tot, fig_sources fig !! k = Some s /\ fig_targets fig !! k = Some t /\
    fig_labels fig !! s = Some r /\ fig_labels fig !! t = Some e /\
    dict_get e end_uses = Some a /\ fig_node_values fig !! s = Some tot /\ v = tot * pct a r.
Proof.
  intros (ps & colors & st & Hl & _ & _ & Ha & ->)%sankey_script_Ok_inv Hk.
  cbn [fig_values fig_sources fig_targets fig_labels fig_node_values] in Hk |- *.
  destruct (sankey_link_at _ _ _ _ Ha Hk) as (i & j & r & t & e & a & Hrt & Hea & Hs & Ht & ->).
  exists i, (length (resource_totals ps) + j)%nat, r, e, a, t. split_and!; try done.
  - by eapply node_labels_resource.
  - by eapply node_labels_end_use.
  - by eapply dict_get_lookup; [apply (matrix_keys_NoDup (categories := dict_keys data_files))|].
  - rewrite lookup_map, (node_labels_resource _ _ _ _ _ Hrt). cbn.
    by rewrite (node_value_resource _ _ _ _ _ (resource_totals_NoDup ps) Hrt).
Qed.

Lemma sankey_links_meaning_witness :
  exists s t r e a tot, fig_sources sample_fig !! 0%nat = Some s /\
    fig_targets sample_fig !! 0%nat = Some t /\
    fig_labels sample_fig !! s = Some r /\ fig_labels sample_fig !! t = Some e /\
    dict_get e end_uses = Some a /\ fig_node_values sample_fig !! s = Some tot /\
    12 * 0.35 = tot * pct a r.
Proof.
  apply (sankey_links_meaning sample_read sample_fig 0 (12 * 0.35)); vm_compute; reflexivity.
Defined.

(** C12 (functional). The amount a node shows on hover (line 145) is the
    total of the link values at that node, the quantity Plotly draws as
    the node's size: for a resource its outgoing links (its fractions add
    up to 1), for an end use its incoming links. *)
Theorem sankey_node_values_balance read_csv fig s tot :
  sankey_script read_csv = Ok fig -> fig_node_values fig !! s = Some tot ->
  tot == qsum (zip_with (fun x v => if Nat.eqb x s then v else 0) (fig_sources fig) (fig_values fig))
       + qsum (zip_with (fun x v => if Nat.eqb x s then v else 0) (fig_targets fig) (fig_values fig)).
Proof.
  intros (ps & colors & st & Hl & _ & _ & Ha & ->)%sankey_script_Ok_inv Hs.
  cbn [fig_values fig_sources fig_targets fig_node_values] in Hs |- *.
  destruct (allocate_ok_inv _ _ _ Ha) as (_ & Hs' & Ht' & Hv' & _ & Hd). rewrite Hs', Ht', Hv'.
  set (rts := resource_totals ps) in *. pose proof (load_categories _ _ Hl) as Hcat.
  rewrite lookup_map in Hs. destruct (node_labels rts end_uses !! s) as [l|] eqn:Hlab; [|done].
  injection Hs as <-. pose proof (lookup_lt_Some _ _ _ Hlab) as Hlt.
  rewrite length_node_labels in Hlt.
  destruct (decide (s < length rts)%nat) as [Hsn|Hsn].
  - destruct (lookup_lt_is_Some_2 rts s Hsn) as [[r t] Hrt].
    rewrite (node_labels_resource _ _ _ _ _ Hrt) in Hlab. injection Hlab as <-.
    rewrite (node_value_resource _ _ _ _ _ (resource_totals_NoDup ps) Hrt).
    rewrite <- (matrix_source_outflow end_uses (dict_keys data_files) rts st s r t Hcat Ha Hrt).
    unfold link_sum_from. rewrite Hs', Hv', (qsum_zip_sel_absent (ref_targets rts end_uses)); [lra|].
    eapply Forall_impl; [apply ref_targets_bound|]. cbn. lia.
  - destruct (lookup_lt_is_Some_2 end_uses (s - length rts) ltac:(lia)) as [[e a] Hea].
    pose proof (node_labels_end_use rts end_uses _ _ _ Hea) as He.
    replace (length rts + (s - length rts))%nat with s in He by lia.
    rewrite He in Hlab. injection Hlab as <-.
    rewrite node_value_end_use, Hd.
    + assert (qsum (zip_with (fun x v => if Nat.eqb x s then v else 0)
          (ref_targets rts end_uses) (ref_values rts end_uses)) == ref_end_use_total rts end_uses e)
        as Hin.
      { replace s with (length rts + (s - length rts))%nat by lia.
        exact (ref_end_use_inflow _ _ _ _ _ (matrix_keys_NoDup (categories := dict_keys data_files)) Hea). }
      rewrite Hin, qsum_zip_sel_absent; [lra|].
      eapply Forall_impl; [apply ref_sources_bound|]. cbn. lia.
    + intros Hin. apply (end_uses_disjoint e); [|by apply Hcat].
      eapply dict_keys_lookup, list_elem_of_lookup_2 in Hea. exact Hea.
Qed.

Lemma sankey_node_values_balance_witness :
  12 == qsum (zip_with (fun x v => if Nat.eqb x 1 then v else 0) (fig_sources sample_fig) (fig_values sample_fig))
       + qsum (zip_with (fun x v => if Nat.eqb x 1 then v else 0) (fig_targets sample_fig) (fig_values sample_fig)).
Proof. apply (sankey_node_values_balance sample_read); vm_compute; reflexivity. Defined.

End Sankey.
