(* ===== verification/ResourceMap.v ===== *)
(** * The resource map script

    Models [src/create_resource_map.py] after loading: the colour table
    (lines 21-26), the map centre (line 56) with folium's refusal of a NaN
    location (line 57), the per-category sampling of at most
    [max_points_per_type] points by [nlargest] (lines 82-94), and the
    marker of each kept row with its clamped radius and its category's
    colour (lines 96-120). [DataFrame.nlargest(n, col)] is modelled by its
    documented result: the rows in decreasing order of [col], ties in input
    order ([keep='first']), cut to [n] rows; it is a stable insertion sort
    here. Each marker is the full [folium.CircleMarker] call with its
    popup HTML (lines 101-109); the tiles, the layer control and the HTML
    file are not modelled. *)

From Stdlib Require Import QArith Qminmax Lqa String.
From stdpp Require Import base list options strings sets sorting.
From S2P Require Import Prelude Format Records Aggregate.

Open Scope Q_scope.

Module ResourceMap.
Import Format.Format Records.Records Aggregate.Aggregate.

(** Lines 21-26. *)
Definition colors : dict string := [
  ("Forest Processing Waste", "#FF6B6B"); ("Logging Residues", "#4ECDC4");
  ("Other Forest Waste", "#95E1D3"); ("Small-Diameter Trees", "#F38181")
].

(** Line 82. *)
Definition max_points_per_type : nat := 500.

(** [p] may come before [q] in decreasing order of amount. *)
Definition amount_ge (p q : ResourcePoint) : bool := Qle_bool (amount q) (amount p).

(** [DataFrame.nlargest(n, 'resource_amount')]. *)
Definition nlargest (n : nat) (ps : list ResourcePoint) : list ResourcePoint :=
  take n (sort_by amount_ge ps).

(** Lines 89-94: sample only when there are more than
    [max_points_per_type] rows. *)
Definition sample_points (resource_data : list ResourcePoint) : list ResourcePoint :=
  if Nat.ltb max_points_per_type (length resource_data)
  then nlargest max_points_per_type resource_data
  else resource_data.

(** Line 98: [min(max(row['resource_amount'] * 0.5, 3), 15)]. *)
Definition marker_radius (a : Q) : Q := Qmin (Qmax (a * 0.5) 3) 15.

(** Lines 101-109: the popup's HTML, a triple-quoted f-string that
    starts with a newline and indents each line by eight spaces. *)
Definition popup_html (resource_name : string) (row : Row) : string :=
  nl +:+ "        <b>" +:+ resource_name +:+ "</b><br>" +:+
  nl +:+ "        <b>Amount:</b> " +:+ format_float false 2 (Fin (resource_amount row)) +:+
    " dry tonnes/year<br>" +:+
  nl +:+ "        <b>Resource:</b> " +:+ resource row +:+ "<br>" +:+
  nl +:+ "        <b>County:</b> " +:+ county_name row +:+ "<br>" +:+
  nl +:+ "        <b>Scenario:</b> " +:+ bt23_scenario row +:+ "<br>" +:+
  nl +:+ "        <b>Price:</b> $" +:+ format_float false 2 (Fin (resource_price row)) +:+ "/tonne<br>" +:+
  nl +:+ "        <b>Location:</b> (" +:+ format_float false 4 (Fin (latitude row)) +:+ ", " +:+
    format_float false 4 (Fin (longitude row)) +:+ ")" +:+
  nl +:+ "        ".

(** The arguments of one [folium.CircleMarker] (lines 111-120), with
    the [folium.Popup] of line 114. *)
Record circle_marker := mk_marker {
  marker_lat : Q;
  marker_lon : Q;
  marker_rad : Q;
  marker_popup : string;
  marker_popup_max_width : nat;
  marker_color : string;
  marker_fill : bool;
  marker_fill_color : string;
  marker_fill_opacity : Q;
  marker_weight : nat
}.

(** Lines 96-120 for one category: [colors[resource_name]] is evaluated
    twice per row ([color=] and [fillColor=]), so it can only raise when
    the category has rows. *)
Fixpoint markers_loop (resource_name : string) (rows : list ResourcePoint)
    : result (list circle_marker) :=
  match rows with
  | [] => Ok []
  | p :: rows' =>
      let row := point_row p in
      let radius := marker_radius (resource_amount row) in
      let popup := popup_html resource_name row in
      color ← getitem resource_name colors;
      fill_color ← getitem resource_name colors;
      ms ← markers_loop resource_name rows';
      mret (mk_marker (latitude row) (longitude row) radius popup 300 color true fill_color 0.6 1 :: ms)
  end.

(** Lines 85-120: one feature group per entry of [data_files]. *)
Fixpoint add_layers (combined_df : list ResourcePoint) (names : list string)
    : result (list (string * list circle_marker)) :=
  match names with
  | [] => Ok []
  | resource_name :: names' =>
      ms ← markers_loop resource_name (sample_points (select_category combined_df resource_name));
      rest ← add_layers combined_df names';
      mret ((resource_name, ms) :: rest)
  end.

(** Line 56: the mean latitude and longitude, NaN (here [None]) when
    there are no rows. *)
Definition ca_center (combined_df : list ResourcePoint) : option (Q * Q) :=
  lat ← mean (map (fun p => latitude (point_row p)) combined_df);
  lon ← mean (map (fun p => longitude (point_row p)) combined_df);
  Some (lat, lon).

(** Line 57: [folium.Map(location=ca_center)] validates the location and
    raises [ValueError] on NaN coordinates. *)
Definition folium_map (center : option (Q * Q)) : result (Q * Q) :=
  match center with
  | Some c => Ok c
  | None => Err (ValueError "Location values cannot contain NaNs.")
  end.

(** What the script writes: the map's centre and its layers. *)
Record map_data := mk_map_data {
  map_center : Q * Q;
  map_layers : list (string * list circle_marker)
}.

(** Lines 28-134 for a given [pd.read_csv]. *)
Definition map_script (read_csv : string -> result (list Row)) : result map_data :=
  combined_df ← load_combined read_csv data_files;
  center ← folium_map (ca_center combined_df);
  layers ← add_layers combined_df (dict_keys data_files);
  mret (mk_map_data center layers).

(** The marker the script draws for a row of a category whose colour
    is [c]. *)
Definition row_marker (name c : string) (p : ResourcePoint) : circle_marker :=
  mk_marker (latitude (point_row p)) (longitude (point_row p)) (marker_radius (amount p))
            (popup_html name (point_row p)) 300 c true c 0.6 1.

(** The layer the script builds for one category. *)
Definition layer_markers (combined_df : list ResourcePoint) (name : string) : list circle_marker :=
  map (row_marker name (dict_get_default name colors ""))
      (sample_points (select_category combined_df name)).

(** The map of a run in which every file holds [sample_row]. *)
Definition sample_map : map_data :=
  match map_script sample_read with
  | Ok m => m
  | Err _ => mk_map_data (0, 0) []
  end.

(** ** The order of [nlargest] *)

Lemma amount_ge_spec p q : amount_ge p q = true <-> amount q <= amount p.
Proof. apply Qle_bool_iff. Qed.

Lemma amount_ge_total p q : amount_ge p q = false -> amount_ge q p = true.
Proof.
  intros H. apply amount_ge_spec. apply Qlt_le_weak, Qnot_le_lt.
  intros Hle. apply amount_ge_spec in Hle. congruence.
Qed.

#[export] Instance amount_ge_trans : Transitive (fun p q => amount_ge p q = true).
Proof. intros p q r. rewrite !amount_ge_spec. intros; eapply Qle_trans; eauto. Qed.

Lemma sort_amount_sorted ps :
  StronglySorted (fun p q => amount_ge p q = true) (sort_by amount_ge ps).
Proof. apply Sorted_StronglySorted; [apply _|]. apply sort_by_Sorted, amount_ge_total. Qed.

Lemma markers_loop_ok name rows c :
  dict_get name colors = Some c -> markers_loop name rows = Ok (map (row_marker name c) rows).
Proof.
  intros Hc. induction rows as [|p rows IH]; [done|]. cbn [markers_loop].
  unfold getitem. rewrite Hc. cbn. by rewrite IH.
Qed.

Lemma add_layers_ok ps names :
  (forall name, name ∈ names -> name ∈ dict_keys colors) ->
  add_layers ps names = Ok (map (fun name => (name, layer_markers ps name)) names).
Proof.
  induction names as [|name names IH]; intros H; [done|]. cbn [add_layers].
  destruct (proj2 (dict_get_is_Some name colors) (H name ltac:(left))) as [c Hc].
  rewrite (markers_loop_ok _ _ _ Hc). cbn. rewrite IH by (intros; apply H; by right).
  cbn. unfold layer_markers, dict_get_default. by rewrite Hc.
Qed.

Lemma colors_keys : dict_keys colors = dict_keys data_files.
Proof. reflexivity. Qed.

Lemma ca_center_Some ps : ps <> [] -> exists c, ca_center ps = Some c.
Proof. destruct ps; [done|]. intros _. cbn. eauto. Qed.

Lemma map_script_Ok_inv read_csv m :
  map_script read_csv = Ok m ->
  exists ps c, load_combined read_csv data_files = Ok ps /\ ca_center ps = Some c /\
    m = mk_map_data c (map (fun name => (name, layer_markers ps name)) (dict_keys data_files)).
Proof.
  unfold map_script. destruct (load_combined _ _) as [ps|] eqn:Hl; [|done].
  cbn [mbind result_bind]. destruct (ca_center ps) as [c|] eqn:Hc; [|done].
  cbn [mbind result_bind folium_map].
  rewrite add_layers_ok by (intros; by rewrite colors_keys). intros [= <-]. eauto.
Qed.

Lemma nlargest_length n rows : length (nlargest n rows) = Nat.min n (length rows).
Proof. unfold nlargest. by rewrite length_take, sort_by_Permutation. Qed.

Lemma layer_markers_length ps name :
  length (layer_markers ps name) = Nat.min max_points_per_type (length (select_category ps name)).
Proof.
  unfold layer_markers, sample_points. rewrite length_map.
  destruct (Nat.ltb_spec max_points_per_type (length (select_category ps name)));
    [apply nlargest_length|lia].
Qed.

Lemma sample_points_subset rows p : p ∈ sample_points rows -> p ∈ rows.
Proof.
  unfold sample_points, nlargest. destruct (Nat.ltb _ _); [|done].
  intros (i & Hi & _)%elem_of_take. rewrite <- (sort_by_Permutation amount_ge rows).
  by eapply list_elem_of_lookup_2.
Qed.

Lemma marker_radius_range a : 3 <= marker_radius a /\ marker_radius a <= 15.
Proof.
  unfold marker_radius. split; [apply Q.min_glb; [apply Q.le_max_r|lra]|apply Q.le_min_r].
Qed.

(** ** Properties of the map script *)

(** C19 (bounds). A category layer shows [min(500, number of rows)]
    points: all rows up to the cap, exactly 500 beyond it (spec section
    8, property 4). *)
Theorem sample_points_length rows :
  length (sample_points rows) = Nat.min max_points_per_type (length rows).
Proof.
  unfold sample_points. destruct (Nat.ltb_spec max_points_per_type (length rows));
    [apply nlargest_length|lia].
Qed.

(** C20 (functional). The sampled points are the largest ones: the rows
    split into the kept points and the rest, and no dropped row has a
    larger [resource_amount] than a kept one (spec section 8,
    property 4). *)
Theorem sample_points_largest rows :
  exists rest, sample_points rows ++ rest ≡ₚ rows /\
    forall x y, x ∈ sample_points rows -> y ∈ rest -> amount y <= amount x.
Proof.
  unfold sample_points. destruct (Nat.ltb max_points_per_type (length rows)).
  - exists (drop max_points_per_type (sort_by amount_ge rows)). unfold nlargest.
    rewrite take_drop, sort_by_Permutation. split; [done|].
    intros x y Hx Hy. apply amount_ge_spec.
    pose proof (sort_amount_sorted rows) as Hs.
    rewrite <- (take_drop max_points_per_type (sort_by amount_ge rows)) in Hs.
    apply StronglySorted_app in Hs as (Hxy & _ & _). by apply Hxy.
  - exists []. rewrite app_nil_r. split; [done|]. intros x y _ Hy. by apply elem_of_nil in Hy.
Qed.

(** C21 (bounds). A marker's radius lies in [[3, 15]], is half the amount
    between 6 and 30 dry tonnes, and grows with the amount. *)
Theorem marker_radius_bounds a b :
  3 <= marker_radius a /\ marker_radius a <= 15 /\
  (6 <= a -> a <= 30 -> marker_radius a == a * 0.5) /\
  (a <= b -> marker_radius a <= marker_radius b).
Proof.
  destruct (marker_radius_range a) as [Hlo Hhi]. split_and!; [done|done| |];
    unfold marker_radius.
  - intros H1 H2. rewrite Q.max_l by lra. rewrite Q.min_l by lra. reflexivity.
  - intros Hab. apply Q.min_le_compat_r, Q.max_le_compat_r. lra.
Qed.

Lemma marker_radius_bounds_witness :
  3 <= marker_radius 20 /\ marker_radius 20 <= 15 /\
  (6 <= 20 -> 20 <= 30 -> marker_radius 20 == 20 * 0.5) /\
  (20 <= 40 -> marker_radius 20 <= marker_radius 40).
Proof. exact (marker_radius_bounds 20 40). Defined.

(** C22 (safety). The map script never raises [KeyError]; it writes its
    map exactly when the files load and hold at least one row. With no
    row at all the centre of line 56 is NaN and [folium.Map] raises
    [ValueError], a case the spec does not mention. *)
Theorem map_script_ok_iff read_csv :
  (exists m, map_script read_csv = Ok m) <->
  exists ps, load_combined read_csv data_files = Ok ps /\ ps <> [].
Proof.
  split.
  - intros [m (ps & c & Hl & Hc & _)%map_script_Ok_inv]. exists ps. split; [done|].
    intros ->. discriminate.
  - intros (ps & Hl & Hne). destruct (ca_center_Some ps Hne) as [c Hc].
    unfold map_script. rewrite Hl. cbn [mbind result_bind]. rewrite Hc.
    cbn [mbind result_bind folium_map].
    rewrite add_layers_ok by (intros; by rewrite colors_keys). eauto.
Qed.

(** C23 (functional). A successful run draws one layer per entry of
    [data_files], in order; the layer of a category holds
    [min(500, rows of that category)] markers, each the marker of one of
    the category's rows: at the row's location, with a radius in
    [[3, 15]], the row's popup, and the category's colour as line and
    fill colour. *)
Theorem map_layers_spec read_csv m ps :
  map_script read_csv = Ok m -> load_combined read_csv data_files = Ok ps ->
  map fst (map_layers m) = dict_keys data_files /\
  forall name ms, (name, ms) ∈ map_layers m ->
    length ms = Nat.min max_points_per_type (length (select_category ps name)) /\
    exists c, dict_get name colors = Some c /\
      Forall (fun mk => 3 <= marker_rad mk /\ marker_rad mk <= 15 /\
                        exists p, p ∈ select_category ps name /\ mk = row_marker name c p) ms.
Proof.
  intros (ps' & c & Hl & _ & ->)%map_script_Ok_inv Hl'. rewrite Hl in Hl'.
  injection Hl' as <-. cbn [map_layers]. split.
  - rewrite map_map. reflexivity.
  - intros name ms (name' & [= <- <-] & Hin)%list_elem_of_In%in_map_iff.
    apply list_elem_of_In in Hin. split; [apply layer_markers_length|].
    rewrite <- colors_keys in Hin. destruct (proj2 (dict_get_is_Some _ colors) Hin) as [col Hcol].
    exists col. split; [done|]. unfold layer_markers, dict_get_default. rewrite Hcol.
    apply Forall_forall. intros mk (p & <- & Hp)%list_elem_of_In%in_map_iff.
    apply list_elem_of_In, sample_points_subset in Hp.
    destruct (marker_radius_range (amount p)) as (H1 & H2). split_and!; [done|done|eauto].
Qed.

Lemma map_layers_spec_witness :
  map fst (map_layers sample_map) = dict_keys data_files /\
  forall name ms, (name, ms) ∈ map_layers sample_map ->
    length ms = Nat.min max_points_per_type
      (length (select_category (concat (tagged_frames data_files
        [[sample_row]; [sample_row]; [sample_row]; [sample_row]])) name)) /\
    exists c, dict_get name colors = Some c /\
      Forall (fun mk => 3 <= marker_rad mk /\ marker_rad mk <= 15 /\
        exists p, p ∈ select_category (concat (tagged_frames data_files
          [[sample_row]; [sample_row]; [sample_row]; [sample_row]])) name /\ mk = row_marker name c p) ms.
Proof. apply (map_layers_spec sample_read); vm_compute; reflexivity. Defined.

End ResourceMap.
