(* ===== verification/SankeyConsole.v ===== *)
(** * What the Sankey script prints

    The console side of [src/create_sankey_diagram.py]: the banner lines
    (31-33, 110-112, 129-131, 178-180), the per-category totals (34-37),
    the allocation report printed from inside the loop (117 and 127), the
    totals by end use with their share of the grand total (132-135) and
    the closing lines (176-186). The run is [sankey_main], a computation
    of the [io] monad of the prelude: the lines printed so far and the
    outcome. The allocation loop is instrumented as [outer_loop_io] /
    [inner_loop_io] / [flow_step_io]: the body reads
    [allocations[resource]], computes [flow_amount], performs the update
    [flow_update] of Allocation.v and prints that [flow_amount]. The
    percentage of line 133 is [end_use_pct] of Sankey.v, which raises
    [ZeroDivisionError] when no row was loaded. *)

From Stdlib Require Import QArith Qabs Lqa String Ascii.
From stdpp Require Import base list options strings sets.
From S2P Require Import Prelude Format Records Aggregate Allocation Sankey.

Open Scope Q_scope.

Module SankeyConsole.
Import Format.Format Records.Records Aggregate.Aggregate Allocation.Allocation Sankey.Sankey.

(** Line 35: [f"{resource:.<45} {amount:>15,.0f}"]. *)
Definition total_line (resource : string) (amount : Q) : string :=
  align_left "."%char 45 resource +:+ " " +:+ align_right 15 (format_float true 0 (Fin amount)).

(** Lines 31-37. *)
Definition print_resource_totals (rts : dict Q) : io unit :=
  banner 70 "FOREST BIOMASS RESOURCES (dry tonnes/year)";;
  for_each rts (fun '(resource, amount) => print (total_line resource amount));;
  print (total_line "TOTAL" (qsum (map snd rts)));;
  print (str_repeat 70 "="%char).

(** Line 117: [f"\n{resource} ({total_amount:,.0f} tonnes/year):"]. *)
Definition resource_header (resource : string) (total_amount : Q) : string :=
  nl +:+ resource +:+ " (" +:+ format_float true 0 (Fin total_amount) +:+ " tonnes/year):".

(** Line 127: [f"  → {end_use:.<45} {flow_amount:>12,.0f} ({allocation_pct*100:.0f}%)"]. *)
Definition flow_line (end_use : string) (flow_amount allocation_pct : Q) : string :=
  "  → " +:+ align_left "."%char 45 end_use +:+ " " +:+
  align_right 12 (format_float true 0 (Fin flow_amount)) +:+ " (" +:+
  format_float false 0 (Fin (allocation_pct * 100)) +:+ "%)".

(** Lines 119-127: [allocation_pct = allocations[resource]],
    [flow_amount = total_amount * allocation_pct], the update of lines
    121-125, then the line showing [flow_amount] and [allocation_pct]. *)
Definition flow_step_io (n i j : nat) (resource : string) (total_amount : Q)
    (end_use : string) (allocations : dict Q) (st : link_state) : io link_state :=
  allocation_pct ← lift (getitem resource allocations);
  let flow_amount := total_amount * allocation_pct in
  st' ← lift (flow_update n i j end_use flow_amount st);
  print (flow_line end_use flow_amount allocation_pct);;
  mret st'.

(** Lines 118-127. *)
Fixpoint inner_loop_io (n i : nat) (resource : string) (total_amount : Q)
    (j : nat) (eus : dict (dict Q)) (st : link_state) : io link_state :=
  match eus with
  | [] => mret st
  | (end_use, allocations) :: eus' =>
      st' ← flow_step_io n i j resource total_amount end_use allocations st;
      inner_loop_io n i resource total_amount (S j) eus' st'
  end.

(** Lines 116-127. *)
Fixpoint outer_loop_io (n : nat) (eus : dict (dict Q)) (i : nat)
    (rts : dict Q) (st : link_state) : io link_state :=
  match rts with
  | [] => mret st
  | (resource, total_amount) :: rts' =>
      print (resource_header resource total_amount);;
      st' ← inner_loop_io n i resource total_amount 0 eus st;
      outer_loop_io n eus (S i) rts' st'
  end.

(** Lines 114-127. *)
Definition allocate_io (rts : dict Q) (eus : dict (dict Q)) : io link_state :=
  outer_loop_io (length rts) eus 0 rts (init_state eus).

(** Line 134: [f"{end_use:.<50} {total:>12,.0f} ({pct:.1f}%)"]. *)
Definition end_use_line (end_use : string) (total : Q) (pct : pyfloat) : string :=
  align_left "."%char 50 end_use +:+ " " +:+ align_right 12 (format_float true 0 (Fin total)) +:+
  " (" +:+ format_float false 1 pct +:+ "%)".

(** Lines 129-135: the percentage of each end use is computed (line 133)
    before its line is printed. *)
Definition print_end_use_totals (rts : dict Q) (eut : dict Q) : io unit :=
  banner 70 "TOTAL BY END USE";;
  for_each eut (fun '(end_use, total) =>
    pct ← lift (end_use_pct rts total);
    print (end_use_line end_use total pct));;
  print (str_repeat 70 "="%char).

(** Line 174. *)
Definition output_html : string := "biomass_sankey_diagram.html".

(** Lines 176-186. *)
Definition print_closing : io unit :=
  print (nl +:+ "✓ Interactive Sankey diagram saved as: " +:+ output_html);;
  banner 70 "VISUALIZATION COMPLETE";;
  print (nl +:+ "Open '" +:+ output_html +:+ "' to view the interactive Sankey diagram.");;
  print (nl +:+ "The diagram shows:");;
  print "  • Left side: Forest biomass resource categories";;
  print "  • Right side: Potential end use applications";;
  print "  • Flow width: Proportional to biomass volume";;
  print "  • Hover over nodes and flows for detailed values".

(** The whole script, lines 18-186, with its console output. *)
Definition sankey_main (read_csv : string -> result (list Row)) : io sankey_data :=
  print "Loading data files...";;
  combined_df ← lift (load_combined read_csv data_files);
  let rts := resource_totals combined_df in
  print_resource_totals rts;;
  let labels := node_labels rts end_uses in
  colors ← lift (node_colors rts end_uses);
  banner 70 "POTENTIAL END USE ALLOCATION (dry tonnes/year)";;
  st ← allocate_io rts end_uses;
  print_end_use_totals rts (end_use_totals st);;
  let fig := mk_sankey_data labels colors
               (map (node_value rts (end_use_totals st)) labels)
               (sources st) (targets st) (values st) in
  print_closing;;
  mret fig.

(** ** The transcript in closed form *)

(** The lines of the allocation report for one resource. *)
Definition flow_lines (resource : string) (t : Q) (eus : dict (dict Q)) : list string :=
  map (fun '(e, a) => flow_line e (t * pct a resource) (pct a resource)) eus.

Definition alloc_report (rts : dict Q) (eus : dict (dict Q)) : list string :=
  concat (map (fun '(r, t) => resource_header r t :: flow_lines r t eus) rts).

(** The percentage of end use [e] in the reference computation: numpy's
    quotient of its total by the grand total, times 100. *)
Definition ref_end_use_pct (rts : dict Q) (e : string) : pyfloat :=
  pf_scale 100 (np_div (ref_end_use_total rts end_uses e) (qsum (map snd rts))).

(** What a successful run prints, from the category totals: every number
    is that of the reference computation of Allocation.v. *)
Definition sankey_transcript (rts : dict Q) : list string :=
  ["Loading data files..."] ++
  banner_lines 70 "FOREST BIOMASS RESOURCES (dry tonnes/year)" ++
  map (fun '(r, a) => total_line r a) rts ++
  [total_line "TOTAL" (qsum (map snd rts)); str_repeat 70 "="%char] ++
  banner_lines 70 "POTENTIAL END USE ALLOCATION (dry tonnes/year)" ++
  alloc_report rts end_uses ++
  banner_lines 70 "TOTAL BY END USE" ++
  map (fun e => end_use_line e (ref_end_use_total rts end_uses e) (ref_end_use_pct rts e))
      (dict_keys end_uses) ++
  [str_repeat 70 "="%char] ++ io_out print_closing.

(** What the script prints when every file is read and none has a row:
    everything up to the [TOTAL BY END USE] banner, then line 133 raises
    before the first end-use line. *)
Definition no_rows_transcript : list string :=
  ["Loading data files..."] ++
  banner_lines 70 "FOREST BIOMASS RESOURCES (dry tonnes/year)" ++
  [total_line "TOTAL" 0; str_repeat 70 "="%char] ++
  banner_lines 70 "POTENTIAL END USE ALLOCATION (dry tonnes/year)" ++
  banner_lines 70 "TOTAL BY END USE".

(** ** Printing does not change the computation *)

Lemma print_resource_totals_ok rts :
  io_res (print_resource_totals rts) = Ok tt /\
  io_out (print_resource_totals rts) =
    banner_lines 70 "FOREST BIOMASS RESOURCES (dry tonnes/year)" ++
    map (fun '(r, a) => total_line r a) rts ++
    [total_line "TOTAL" (qsum (map snd rts)); str_repeat 70 "="%char].
Proof.
  destruct (io_for_each_print rts (fun '(r, a) => print (total_line r a)) (fun '(r, a) => total_line r a))
    as [Hr Ho]; [by intros []|].
  unfold print_resource_totals. io_simpl. rewrite Ho. split; [done|]. reflexivity.
Qed.

Lemma end_use_loop_res rts eut :
  io_res (for_each eut (fun '(end_use, total) =>
            pct ← lift (end_use_pct rts total); print (end_use_line end_use total pct))) =
  (end_use_pcts rts eut;; mret tt).
Proof.
  induction eut as [|[e t] eut IH]; [done|]. cbn [for_each]. rewrite io_res_bind, io_res_bind, io_res_lift.
  unfold end_use_pcts. cbn [mapM]. destruct (end_use_pct rts t) as [p|err]; [|done].
  cbn [mbind result_bind io_res print]. rewrite IH. unfold end_use_pcts.
  by destruct (mapM _ eut).
Qed.

Lemma print_end_use_totals_res rts eut :
  io_res (print_end_use_totals rts eut) = (end_use_pcts rts eut;; mret tt).
Proof.
  unfold print_end_use_totals. rewrite io_res_seq_ok by io_ok.
  rewrite io_res_bind, end_use_loop_res. by destruct (end_use_pcts rts eut).
Qed.

(** Once a category was loaded every percentage is numpy's. *)
Lemma print_end_use_totals_np rts eut :
  rts <> [] ->
  io_res (print_end_use_totals rts eut) = Ok tt /\
  io_out (print_end_use_totals rts eut) =
    banner_lines 70 "TOTAL BY END USE" ++
    map (fun '(e, t) => end_use_line e t (pf_scale 100 (np_div t (qsum (map snd rts))))) eut ++
    [str_repeat 70 "="%char].
Proof.
  intros Hne.
  destruct (io_for_each_print eut
    (fun '(end_use, total) => pct ← lift (end_use_pct rts total); print (end_use_line end_use total pct))
    (fun '(e, t) => end_use_line e t (pf_scale 100 (np_div t (qsum (map snd rts)))))) as [Hr Ho].
  { intros [e t]. cbn beta iota. by rewrite end_use_pct_np. }
  unfold print_end_use_totals. rewrite io_res_seq_ok, io_out_seq_ok by io_ok.
  rewrite io_res_seq_ok, io_out_seq_ok by exact Hr. by rewrite Ho.
Qed.

(** With no category, the first end use's percentage raises. *)
Lemma print_end_use_totals_nil eut :
  eut <> [] ->
  print_end_use_totals [] eut = mk_io (banner_lines 70 "TOTAL BY END USE") (Err (ZeroDivisionError "division by zero")).
Proof. destruct eut as [|[e t] eut]; [done|]. intros _. reflexivity. Qed.

Lemma flow_step_io_res n i j r t e a st :
  io_res (flow_step_io n i j r t e a st) = flow_step n i j r t e a st.
Proof.
  unfold flow_step_io, flow_step. rewrite io_res_bind, io_res_lift.
  destruct (getitem r a) as [p|]; [|done]. cbn [mbind result_bind].
  rewrite io_res_bind, io_res_lift. destruct (flow_update _ _ _ _ _ _); [|done].
  cbn [mbind result_bind]. by rewrite io_res_seq_ok.
Qed.

(** The line of a step shows the amount appended to [values]. *)
Lemma flow_step_io_out n i j r t e a st st' :
  flow_step n i j r t e a st = Ok st' ->
  io_out (flow_step_io n i j r t e a st) = [flow_line e (t * pct a r) (pct a r)].
Proof.
  unfold flow_step, flow_step_io, getitem, pct, dict_get_default.
  destruct (dict_get r a) as [p|]; [|done]. cbn [mbind result_bind lift io_res io_out]. intros Hf.
  unfold mbind at 1, io_bind. cbn [io_res io_out lift]. rewrite Hf. reflexivity.
Qed.

Lemma inner_loop_io_res n i r t j eus st :
  io_res (inner_loop_io n i r t j eus st) = inner_loop n i r t j eus st.
Proof.
  revert j st. induction eus as [|[e a] eus IH]; intros j st; [done|]. cbn [inner_loop_io inner_loop].
  rewrite io_res_bind, flow_step_io_res. destruct (flow_step _ _ _ _ _ _ _ _); [apply IH|done].
Qed.

Lemma outer_loop_io_res n eus i rts st :
  io_res (outer_loop_io n eus i rts st) = outer_loop n eus i rts st.
Proof.
  revert i st. induction rts as [|[r t] rts IH]; intros i st; [done|]. cbn [outer_loop_io outer_loop].
  rewrite io_res_seq_ok by io_ok. rewrite io_res_bind, inner_loop_io_res.
  destruct (inner_loop _ _ _ _ _ _ _); [apply IH|done].
Qed.

Lemma allocate_io_res rts eus : io_res (allocate_io rts eus) = allocate rts eus.
Proof. apply outer_loop_io_res. Qed.

(** Printing changes nothing the script computes: with its console
    output the script ends exactly as [sankey_script]. *)
Lemma sankey_main_res read_csv : io_res (sankey_main read_csv) = sankey_script read_csv.
Proof.
  unfold sankey_main, sankey_script. rewrite io_res_seq_ok by io_ok.
  rewrite io_res_bind, io_res_lift. destruct (load_combined read_csv data_files) as [ps|e]; [|done].
  cbn [mbind result_bind]. rewrite io_res_seq_ok by apply print_resource_totals_ok.
  rewrite io_res_bind, io_res_lift. destruct (node_colors _ _) as [colors|e]; [|done].
  cbn [mbind result_bind]. rewrite io_res_seq_ok by io_ok.
  rewrite io_res_bind, allocate_io_res. destruct (allocate _ _) as [st|e]; [|done].
  cbn [mbind result_bind]. rewrite io_res_bind, print_end_use_totals_res.
  destruct (end_use_pcts _ _); [|done]. cbn [mbind result_bind]. by rewrite io_res_seq_ok by io_ok.
Qed.

(** ** The allocation report *)

Lemma inner_loop_io_out n i r t j eus st st' :
  io_res (inner_loop_io n i r t j eus st) = Ok st' ->
  io_out (inner_loop_io n i r t j eus st) = flow_lines r t eus.
Proof.
  revert j st. induction eus as [|[e a] eus IH]; intros j st; [done|]. cbn [inner_loop_io].
  rewrite io_res_bind, flow_step_io_res.
  destruct (flow_step n i j r t e a st) as [s1|err] eqn:Hf; [|done]. intros H.
  rewrite (io_out_bind_ok _ _ s1) by (by rewrite flow_step_io_res).
  by rewrite (IH _ _ H), (flow_step_io_out _ _ _ _ _ _ _ _ _ Hf).
Qed.

Lemma outer_loop_io_out n eus i rts st st' :
  io_res (outer_loop_io n eus i rts st) = Ok st' ->
  io_out (outer_loop_io n eus i rts st) = alloc_report rts eus.
Proof.
  revert i st. induction rts as [|[r t] rts IH]; intros i st; [done|]. cbn [outer_loop_io].
  rewrite io_res_seq_ok, io_out_seq_ok by io_ok. rewrite io_res_bind.
  destruct (io_res (inner_loop_io n i r t 0 eus st)) as [s1|err] eqn:Hi; [|done]. intros H.
  rewrite (io_out_bind_ok _ _ s1 Hi), (inner_loop_io_out _ _ _ _ _ _ _ _ Hi), (IH _ _ H).
  reflexivity.
Qed.

Lemma allocate_io_out rts eus st :
  io_res (allocate_io rts eus) = Ok st -> io_out (allocate_io rts eus) = alloc_report rts eus.
Proof. apply outer_loop_io_out. Qed.

(** The percentage shown depends on the totals' values only. *)
Lemma np_pct_line_proper e g t t' :
  t == t' -> end_use_line e t (pf_scale 100 (np_div t g)) = end_use_line e t' (pf_scale 100 (np_div t' g)).
Proof.
  intros Ht. unfold end_use_line.
  rewrite (format_float_proper true 0 (Fin t) (Fin t') Ht).
  by rewrite (format_float_proper false 1 _ _ (pf_scale_proper 100 _ _ (np_div_proper _ _ Ht g g (Qeq_refl g)))).
Qed.

Lemma end_use_lines_ref rts st :
  allocate rts end_uses = Ok st ->
  map (fun '(e, t) => end_use_line e t (pf_scale 100 (np_div t (qsum (map snd rts))))) (end_use_totals st) =
  map (fun e => end_use_line e (ref_end_use_total rts end_uses e) (ref_end_use_pct rts e))
      (dict_keys end_uses).
Proof.
  intros Ha. destruct (allocate_ok_ref _ _ _ end_uses_NoDup Ha) as (_ & _ & _ & Heq).
  rewrite (map_dict_equiv (fun e t => end_use_line e t (pf_scale 100 (np_div t (qsum (map snd rts))))) _ _
    ltac:(intros e t t' Ht; by apply np_pct_line_proper) Heq).
  cbn [ref_state end_use_totals]. rewrite map_map. reflexivity.
Qed.

Lemma load_error_prints read_csv e :
  load_combined read_csv data_files = Err e ->
  sankey_main read_csv = mk_io ["Loading data files..."] (Err e).
Proof. intros Hl. unfold sankey_main. by rewrite Hl. Qed.

(** ** Properties of the console output *)

(** C28 (error). A failing run of the Sankey script prints one of two
    things: ["Loading data files..."] alone, then the error of a file that
    could not be read; or, when every file was read and none had a row,
    the totals report (with a [TOTAL] of 0), the allocation banner and the
    [TOTAL BY END USE] banner, after which line 133 raises
    [ZeroDivisionError] before the first end-use line. *)
Theorem sankey_main_error read_csv e :
  io_res (sankey_main read_csv) = Err e ->
  (io_out (sankey_main read_csv) = ["Loading data files..."] /\
   exists name path, (name, path) ∈ data_files /\ read_csv path = Err e) \/
  (e = ZeroDivisionError "division by zero" /\ io_out (sankey_main read_csv) = no_rows_transcript).
Proof.
  rewrite sankey_main_res.
  destruct (load_combined read_csv data_files) as [[|p ps]|e'] eqn:Hl.
  - rewrite (sankey_script_no_rows _ Hl). intros [= <-]. right. split; [done|].
    unfold sankey_main. rewrite Hl. vm_compute. reflexivity.
  - by destruct (sankey_after_load _ _ Hl ltac:(done)) as [fig ->].
  - unfold sankey_script. rewrite Hl. intros [= <-]. left.
    rewrite (load_error_prints _ _ Hl). split; [done|]. by apply load_error_read.
Qed.

Lemma sankey_main_error_witness :
  (io_out (sankey_main (fun _ => Ok [])) = ["Loading data files..."] /\
   exists name path, (name, path) ∈ data_files /\
     (fun _ : string => Ok ([] : list Row)) path = Err (ZeroDivisionError "division by zero")) \/
  (ZeroDivisionError "division by zero" = ZeroDivisionError "division by zero" /\
   io_out (sankey_main (fun _ => Ok [])) = no_rows_transcript).
Proof. apply (sankey_main_error (fun _ => Ok [])). vm_compute. reflexivity. Defined.

(** C29 (functional). A successful run prints the closed-form transcript
    of its category totals: one line per category and the grand total,
    then for each category its header and one line per end use with
    [total * fraction] and the fraction, then each end use's total from
    the reference computation and its share of the grand total. *)
Theorem sankey_main_transcript read_csv fig :
  sankey_script read_csv = Ok fig ->
  exists ps, load_combined read_csv data_files = Ok ps /\
    io_out (sankey_main read_csv) = sankey_transcript (resource_totals ps).
Proof.
  intros (ps & colors & st & Hl & Hne & Hc & Ha & _)%sankey_script_Ok_inv. exists ps. split; [done|].
  assert (resource_totals ps <> []) as Hrne by (by rewrite resource_totals_nil).
  assert (io_res (allocate_io (resource_totals ps) end_uses) = Ok st) as Hio
    by by rewrite allocate_io_res.
  destruct (print_end_use_totals_np _ (end_use_totals st) Hrne) as [Her Heo].
  unfold sankey_main. io_simpl. rewrite (io_out_bind_ok _ _ ps) by done.
  cbn [io_out lift app]. io_simpl.
  rewrite (io_out_seq_ok _ _ (proj1 (print_resource_totals_ok _))), (proj2 (print_resource_totals_ok _)).
  rewrite (io_out_bind_ok _ _ colors) by done. cbn [io_out lift app]. io_simpl.
  rewrite (io_out_bind_ok _ _ st Hio), (allocate_io_out _ _ _ Hio).
  rewrite (io_out_seq_ok _ _ Her), Heo, (end_use_lines_ref _ _ Ha). io_simpl.
  unfold sankey_transcript. cbn [app]. rewrite app_nil_r, <- !app_assoc. reflexivity.
Qed.

Lemma sankey_main_transcript_witness :
  exists ps, load_combined sample_read data_files = Ok ps /\
    io_out (sankey_main sample_read) = sankey_transcript (resource_totals ps).
Proof. apply (sankey_main_transcript sample_read sample_fig). vm_compute. reflexivity. Defined.

Lemma np_div_finite total grand :
  ~ grand == 0 -> pf_scale 100 (np_div total grand) = Fin (total / grand * 100).
Proof.
  intros Hg. unfold np_div.
  destruct (Qeq_bool grand 0) eqn:E; [|done]. by apply Qeq_bool_iff in E.
Qed.

(** C30 (functional). With a non-zero grand total, the percentages of
    the [TOTAL BY END USE] section (line 133) are computed without an
    exception, are finite and add up to 100: the six end uses share out
    the whole resource. *)
Theorem end_use_pcts_sum rts st :
  allocate rts end_uses = Ok st -> ~ qsum (map snd rts) == 0 ->
  exists ps, end_use_pcts rts (end_use_totals st) = Ok (map Fin ps) /\ qsum ps == 100.
Proof.
  intros Ha Hg. set (g := qsum (map snd rts)) in *.
  assert (rts <> []) as Hne by (intros ->; by apply Hg).
  exists (map (fun p => p.2 / g * 100) (end_use_totals st)). split.
  - rewrite end_use_pcts_np by done. f_equal. rewrite map_map. apply map_ext. intros [e t].
    by apply np_div_finite.
  - rewrite (qsum_map_ext _ _ (fun p => p.2 * (100 / g))) by (intros; field; done).
    rewrite qsum_map_scale_r, (end_use_totals_conserved _ _ Ha). fold g. field. done.
Qed.

Lemma end_use_pcts_sum_witness :
  exists st, allocate spec_example_totals end_uses = Ok st /\
    exists ps, end_use_pcts spec_example_totals (end_use_totals st) = Ok (map Fin ps) /\ qsum ps == 100.
Proof.
  destruct (allocate_spec spec_example_totals end_uses) as (st & Hst & _).
  exists st. split; [exact Hst|].
  apply (end_use_pcts_sum spec_example_totals st Hst). intros H. vm_compute in H. discriminate.
Defined.

(** With every resource amount zero, every end-use total is zero. *)
Lemma ref_end_use_total_zero rts e :
  Forall (fun p => 0 <= p.2) rts -> qsum (map snd rts) == 0 -> ref_end_use_total rts end_uses e == 0.
Proof.
  intros Hnn Hz. apply qsum_nonneg_zero in Hz; [|by apply Forall_map].
  apply Forall_map in Hz. unfold ref_end_use_total. apply qsum_map_zero.
  intros [r t] Hin. rewrite Forall_forall in Hz. specialize (Hz _ Hin). cbn in Hz |- *.
  rewrite Hz. lra.
Qed.

Lemma np_pct_nan total grand : total == 0 -> grand == 0 -> pf_scale 100 (np_div total grand) = NaN.
Proof.
  intros Ht Hg. unfold np_div.
  apply Qeq_bool_iff in Ht, Hg. by rewrite Ht, Hg.
Qed.

(** C31 (error). When categories were loaded but every amount is zero
    (none negative), line 133 divides numpy zeros: nothing is raised, and
    each of the six percentages is NaN, printed [nan]. *)
Theorem end_use_pcts_nan rts st :
  allocate rts end_uses = Ok st -> rts <> [] -> Forall (fun p => 0 <= p.2) rts -> qsum (map snd rts) == 0 ->
  exists ps, end_use_pcts rts (end_use_totals st) = Ok ps /\ length ps = length end_uses /\
    Forall (fun p => format_float false 1 p = "nan") ps.
Proof.
  intros Ha Hne Hnn Hz. set (g := qsum (map snd rts)) in *.
  rewrite end_use_pcts_np by done. eexists. split; [reflexivity|].
  destruct (allocate_ok_inv _ _ _ Ha) as (_ & _ & _ & _ & Hk & _).
  destruct (allocate_ok_ref _ _ _ end_uses_NoDup Ha) as (_ & _ & _ & Heq).
  split.
  - rewrite length_map. apply (f_equal length) in Hk. unfold dict_keys in Hk. by rewrite !length_fmap in Hk.
  - assert (Forall (fun s => s = "nan")
      (map (fun '(_, t) => format_float false 1 (pf_scale 100 (np_div t g))) (end_use_totals st))) as H.
    { rewrite (map_dict_equiv (fun _ t => format_float false 1 (pf_scale 100 (np_div t g))) _ _
        ltac:(intros _ t t' Ht; cbn beta; by rewrite Ht) Heq).
      cbn [ref_state end_use_totals]. rewrite map_map. apply Forall_map, Forall_forall. intros e _.
      cbn beta iota. rewrite np_pct_nan; [done| |done]. by apply ref_end_use_total_zero. }
    rewrite Forall_map in H |- *. eapply Forall_impl; [exact H|]. by intros [e t].
Qed.

Lemma end_use_pcts_nan_witness :
  exists st, allocate [("Logging Residues", 0)] end_uses = Ok st /\
    exists ps, end_use_pcts [("Logging Residues", 0)] (end_use_totals st) = Ok ps /\
      length ps = length end_uses /\ Forall (fun p => format_float false 1 p = "nan") ps.
Proof.
  destruct (allocate_spec [("Logging Residues", 0)] end_uses) as (st & Hst & _).
  exists st. split; [exact Hst|].
  apply (end_use_pcts_nan _ st Hst); [done|repeat constructor; cbn; lra|reflexivity].
Defined.

Lemma decimals_bound prec b :
  (1 # 2) / inject_Z (Z.of_N (10 ^ N.of_nat prec)) == b ->
  forall g q, exists v, parse_number (format_float g prec (Fin q)) = Some v /\ Qabs (v - q) <= b.
Proof.
  intros Hb g q. destruct (format_float_roundtrip g prec q) as (v & Hp & Hv).
  exists v. split; [done|]. by rewrite <- Hb.
Qed.

(** C34 (roundtrip). A line of the [TOTAL BY END USE] section (line 134)
    shows numbers that read back as what the script computed: the total,
    printed with [,.0f] in a field of 12, to within half a tonne, and a
    finite percentage, printed with [.1f], to within 0.05. *)
Theorem end_use_line_roundtrip e total q :
  exists T P,
    end_use_line e total (Fin q) =
      align_left "."%char 50 e +:+ " " +:+ align_right 12 T +:+ " (" +:+ P +:+ "%)" /\
    (exists v, parse_number T = Some v /\ Qabs (v - total) <= 1 # 2) /\
    (exists v, parse_number P = Some v /\ Qabs (v - q) <= 1 # 20).
Proof.
  eexists _, _. split; [reflexivity|].
  split; apply decimals_bound; reflexivity.
Qed.

End SankeyConsole.
