(* ===== verification/MapConsole.v ===== *)
(** * What the resource map script prints

    The console side of [src/create_resource_map.py]: the loader loop
    with its [✓ Loaded] line per file (lines 28-35), the record count
    (39), the per-category summary (42-52), the progress lines (55, 84),
    the sampling line of each category (92-94) and the closing lines
    (136-146). [map_main] is the whole script as a computation of the
    [io] monad; the layers and the centre are those of ResourceMap.v. *)

From Stdlib Require Import QArith Qabs Lqa String Ascii.
From stdpp Require Import base list options strings sets.
From S2P Require Import Prelude Format Records Aggregate ResourceMap.

Open Scope Q_scope.

Module MapConsole.
Import Format.Format Records.Records Aggregate.Aggregate ResourceMap.ResourceMap.

(** Line 35: [f"  ✓ Loaded {resource_name}: {len(df):,} records"]. *)
Definition loaded_line (resource_name : string) (df : list Row) : string :=
  "  ✓ Loaded " +:+ resource_name +:+ ": " +:+ format_int true (length df) +:+ " records".

(** A mean as the float pandas returns: NaN for no rows. *)
Definition mean_float (m : option Q) : pyfloat :=
  match m with Some q => Fin q | None => NaN end.

(** Lines 49-52 for one category. *)
Definition summary_lines (resource_name : string) (s : category_summary) : list string :=
  [nl +:+ resource_name +:+ ":";
   "  Total: " +:+ format_float true 2 (Fin (total_amount s)) +:+ " dry tonnes/year";
   "  Average per point: " +:+ format_float false 2 (mean_float (avg_amount s)) +:+ " dry tonnes/year";
   "  Number of points: " +:+ format_int true (n_points s)].

Definition print_summary (resource_name : string) (s : category_summary) : io unit :=
  for_each (summary_lines resource_name s) print.

(** Lines 92 and 94: which rows the category's layer shows. *)
Definition sample_line (resource_name : string) (resource_data : list ResourcePoint) : string :=
  if Nat.ltb max_points_per_type (length resource_data)
  then "  " +:+ resource_name +:+ ": Using top " +:+ format_int false max_points_per_type +:+
       " largest sources"
  else "  " +:+ resource_name +:+ ": Using all " +:+ format_int false (length resource_data) +:+
       " points".

(** Lines 85-120: the sampling line, then the markers of the category. *)
Fixpoint add_layers_io (combined_df : list ResourcePoint) (names : list string)
    : io (list (string * list circle_marker)) :=
  match names with
  | [] => mret []
  | resource_name :: names' =>
      let resource_data := select_category combined_df resource_name in
      print (sample_line resource_name resource_data);;
      ms ← lift (markers_loop resource_name (sample_points resource_data));
      rest ← add_layers_io combined_df names';
      mret ((resource_name, ms) :: rest)
  end.

(** Line 133. *)
Definition output_file : string := "california_forest_biomass_map.html".

(** Lines 136-146. *)
Definition closing_lines : list string :=
  [nl +:+ str_repeat 60 "="%char;
   "✓ Map created successfully!";
   "✓ Saved as: " +:+ output_file;
   str_repeat 60 "="%char;
   nl +:+ "Open '" +:+ output_file +:+ "' in your web browser to view the interactive map.";
   nl +:+ "Features:";
   "  • Toggle resource types on/off using the layer control";
   "  • Click on markers for detailed information";
   "  • Zoom and pan to explore different regions";
   "  • Marker size represents resource amount"].

Section MapRun.
Variable read_csv : string -> result (list Row).

(** Lines 31-35: the loader loop of Records.v with its line per file,
    printed once the file has been read. *)
Fixpoint load_loop_io (files : dict string) (all_data : list (list ResourcePoint))
    : io (list (list ResourcePoint)) :=
  match files with
  | [] => mret all_data
  | (resource_name, file_path) :: files' =>
      df ← lift (read_csv file_path);
      print (loaded_line resource_name df);;
      load_loop_io files' (all_data ++ [tag_rows resource_name df])
  end.

(** Lines 28-146. *)
Definition map_main : io map_data :=
  print "Loading data files...";;
  all_data ← load_loop_io data_files [];
  combined_df ← lift (pd_concat all_data);
  print (nl +:+ "Total records: " +:+ format_int true (length combined_df));;
  banner 60 "RESOURCE SUMMARY";;
  for_each (dict_keys data_files) (fun name => print_summary name (summarize combined_df name));;
  print (nl +:+ "Creating interactive map...");;
  center ← lift (folium_map (ca_center combined_df));
  print (nl +:+ "Adding data points to map...");;
  layers ← add_layers_io combined_df (dict_keys data_files);
  for_each closing_lines print;;
  mret (mk_map_data center layers).

End MapRun.

(** ** Printing does not change the computation *)

Lemma add_layers_io_res ps names : io_res (add_layers_io ps names) = add_layers ps names.
Proof.
  induction names as [|name names IH]; [done|]. cbn [add_layers_io add_layers].
  rewrite io_res_seq_ok by io_ok. rewrite io_res_bind, io_res_lift.
  destruct (markers_loop _ _); [|done]. cbn [mbind result_bind].
  rewrite io_res_bind, IH. by destruct (add_layers ps names).
Qed.

Lemma add_layers_io_out ps names ls :
  io_res (add_layers_io ps names) = Ok ls ->
  io_out (add_layers_io ps names) = map (fun name => sample_line name (select_category ps name)) names.
Proof.
  rewrite add_layers_io_res. revert ls. induction names as [|name names IH]; intros ls; [done|].
  cbn [add_layers_io add_layers]. intros Ha. rewrite io_out_seq_ok by io_ok.
  destruct (markers_loop _ _) as [ms|e] eqn:Hm; [|done]. cbn [mbind result_bind] in Ha.
  destruct (add_layers ps names) as [rest|e] eqn:Hr; [|done].
  assert (io_res (add_layers_io ps names) = Ok rest) as Hio by by rewrite add_layers_io_res.
  rewrite (io_out_bind_ok _ _ ms) by done. cbn [io_out lift app].
  rewrite (io_out_bind_ok _ _ rest Hio), (IH rest eq_refl). cbn. by rewrite app_nil_r.
Qed.

Section MapRunFacts.
Variable read_csv : string -> result (list Row).

Lemma load_loop_io_err pre name path post dfs acc e :
  reads_ok read_csv pre dfs -> read_csv path = Err e ->
  load_loop_io read_csv (pre ++ (name, path) :: post) acc =
  mk_io (zip_with (fun '(name, _) df => loaded_line name df) pre dfs) (Err e).
Proof.
  intros Hr He. revert acc. induction Hr as [|[n p] df files dfs Hp _ IH]; intros acc.
  - cbn. by rewrite He.
  - cbn [load_loop_io app]. unfold mbind at 1, io_bind. cbn [io_res lift]. rewrite Hp.
    cbn. by rewrite IH.
Qed.

End MapRunFacts.

(** What the sampling line of one category says of its layer. *)
Lemma sample_line_layer ps name :
  let n := length (select_category ps name) in
  (sample_line name (select_category ps name) = "  " +:+ name +:+ ": Using top 500 largest sources" /\
   500 < n /\ length (layer_markers ps name) = 500)%nat \/
  (sample_line name (select_category ps name) = "  " +:+ name +:+ ": Using all " +:+ format_int false n +:+ " points" /\
   n <= 500 /\ length (layer_markers ps name) = n)%nat.
Proof.
  intros n. rewrite layer_markers_length. fold n. unfold sample_line. fold n.
  destruct (Nat.ltb_spec max_points_per_type n) as [H|H]; unfold max_points_per_type in *;
    [left|right]; split_and!; try reflexivity; lia.
Qed.

(** ** Properties of the console output *)

(** C33 (error). When a file cannot be read, the map script has printed
    ["Loading data files..."] and one [✓ Loaded] line for each file
    before it, in [data_files] order, with its row count, and it stops
    with that read's error. *)
Theorem map_main_read_error read_csv pre name path post dfs e :
  data_files = pre ++ (name, path) :: post -> reads_ok read_csv pre dfs -> read_csv path = Err e ->
  map_main read_csv =
  mk_io ("Loading data files..." :: zip_with (fun '(n, _) df => loaded_line n df) pre dfs) (Err e).
Proof.
  intros Hf Hr He. unfold map_main. rewrite Hf, (load_loop_io_err _ _ _ _ _ _ _ _ Hr He). reflexivity.
Qed.

Lemma map_main_read_error_witness :
  map_main (fun p => if String.eqb p "data/CA_logging_residues_points_BillionTonReport.csv"
                     then Err (FileNotFoundError p) else sample_read p) =
  mk_io ["Loading data files..."; "  ✓ Loaded Forest Processing Waste: 1 records"]
        (Err (FileNotFoundError "data/CA_logging_residues_points_BillionTonReport.csv")).
Proof.
  apply (map_main_read_error _
    [("Forest Processing Waste", "data/CA_forest_processing_waste_points_BillionTonReport.csv")]
    "Logging Residues" "data/CA_logging_residues_points_BillionTonReport.csv"
    [("Other Forest Waste", "data/CA_other_forest_waste_points_BillionTonReport.csv");
     ("Small-Diameter Trees", "data/CA_small-diameter_trees_points_BillionTonReport.csv")]
    [[sample_row]]); [reflexivity|repeat constructor|reflexivity].
Defined.

(** C32 (functional). The sampling lines (lines 92 and 94) tell the
    truth about the layers: the [k]-th line printed while adding the
    layers is about the [k]-th layer; it says [Using top 500 largest
    sources] exactly when the category has more than 500 rows, and then
    its layer has 500 markers, and otherwise it says [Using all n points]
    with [n] the category's row count, which is then its number of
    markers. *)
Theorem sample_lines_match_layers ps :
  io_res (add_layers_io ps (dict_keys data_files)) =
    Ok (map (fun name => (name, layer_markers ps name)) (dict_keys data_files)) /\
  Forall2 (fun line '(name, ms) =>
      let n := length (select_category ps name) in
      (line = "  " +:+ name +:+ ": Using top 500 largest sources" /\ 500 < n /\ length ms = 500)%nat \/
      (line = "  " +:+ name +:+ ": Using all " +:+ format_int false n +:+ " points" /\
       n <= 500 /\ length ms = n)%nat)
    (io_out (add_layers_io ps (dict_keys data_files)))
    (map (fun name => (name, layer_markers ps name)) (dict_keys data_files)).
Proof.
  assert (io_res (add_layers_io ps (dict_keys data_files)) =
          Ok (map (fun name => (name, layer_markers ps name)) (dict_keys data_files))) as Hres
    by (rewrite add_layers_io_res; apply add_layers_ok; intros; by rewrite colors_keys).
  split; [done|]. rewrite (add_layers_io_out _ _ _ Hres).
  clear Hres. induction (dict_keys data_files) as [|name names IH]; cbn [map];
    [constructor|constructor; [apply sample_line_layer|exact IH]].
Qed.

Lemma summarize_fields ps name :
  total_amount (summarize ps name) = qsum (map amount (select_category ps name)) /\
  avg_amount (summarize ps name) = mean (map amount (select_category ps name)) /\
  n_points (summarize ps name) = length (map amount (select_category ps name)).
Proof. unfold summarize. cbn. by rewrite length_map. Qed.

Lemma two_decimals_bound : (1 # 2) / inject_Z (Z.of_N (10 ^ N.of_nat 2)) <= 1 # 200.
Proof. apply Qle_bool_imp_le. reflexivity. Qed.

(** C35 (roundtrip). The four summary lines of a category (lines 49-52)
    show numbers that read back as what pandas computed: the total and
    the average to within half a cent (two decimals), the count exactly;
    a category without rows shows the average [nan]. *)
Theorem summary_lines_spec ps name :
  let rows := map amount (select_category ps name) in
  exists T A N,
    summary_lines name (summarize ps name) =
      [nl +:+ name +:+ ":"; "  Total: " +:+ T +:+ " dry tonnes/year";
       "  Average per point: " +:+ A +:+ " dry tonnes/year"; "  Number of points: " +:+ N] /\
    (exists v, parse_number T = Some v /\ Qabs (v - qsum rows) <= 1 # 200) /\
    (rows = [] -> A = "nan") /\
    (rows <> [] -> exists v, parse_number A = Some v /\
       Qabs (v - qsum rows / inject_Z (Z.of_nat (length rows))) <= 1 # 200) /\
    (exists v, parse_number N = Some v /\ v == inject_Z (Z.of_nat (length rows))).
Proof.
  intros rows. destruct (summarize_fields ps name) as (Ht & Ha & Hn). fold rows in Ht, Ha, Hn.
  eexists _, _, _. split; [reflexivity|]. rewrite Ht, Ha, Hn. split_and!.
  - destruct (format_float_roundtrip true 2 (qsum rows)) as (v & Hp & Hb).
    exists v. split; [done|]. exact (Qle_trans _ _ _ Hb two_decimals_bound).
  - by intros ->.
  - intros Hne. destruct rows as [|r rs] eqn:E; [done|]. cbn [mean mean_float].
    destruct (format_float_roundtrip false 2 (qsum (r :: rs) / inject_Z (Z.of_nat (length (r :: rs)))))
      as (v & Hp & Hb).
    exists v. split; [done|]. exact (Qle_trans _ _ _ Hb two_decimals_bound).
  - apply format_int_roundtrip.
Qed.

End MapConsole.
