(* ===== verification/LoopSemantics.v ===== *)
(** * The allocation loop as a transition system

    Lines 116-125 of [src/create_sankey_diagram.py] as the interpreter
    runs them, one statement group at a time: the outer [for] takes the
    next [(resource, total_amount)] or ends; the inner [for] runs one
    [flow_step] of Allocation.v, or ends and returns to the outer loop;
    a [KeyError] stops the script. The configurations are those of the
    two nested loops ([Outer], [Inner]) and the two ends ([Done],
    [Crash]); [step] is the transition relation and stdpp's [rtc] its
    reflexive-transitive closure. The Section fixes the table [eus] and
    [n = len(resource_totals)]. The theorems are about the intermediate
    configurations, which the big-step [allocate] does not expose: the
    counters and list lengths of every reachable configuration, and that
    every link is eventually drawn from wherever the loop is. *)

From Stdlib Require Import QArith Lqa String.
From stdpp Require Import base list options strings sets relations.
From S2P Require Import Prelude Allocation.

Open Scope Q_scope.

Module LoopSemantics.
Import Allocation.Allocation.

(** Where the interpreter is: the loop counters, what is left to iterate
    over, and the script's state. *)
Inductive cfg :=
| Outer (i : nat) (rts : dict Q) (st : link_state)
| Inner (i : nat) (resource : string) (total_amount : Q) (j : nat)
        (eus_left : dict (dict Q)) (rts : dict Q) (st : link_state)
| Done (st : link_state)
| Crash (e : error).

Definition final (c : cfg) : bool :=
  match c with Done _ | Crash _ => true | _ => false end.

Definition cfg_state (c : cfg) : option link_state :=
  match c with
  | Outer _ _ st | Inner _ _ _ _ _ _ st | Done st => Some st
  | Crash _ => None
  end.

Section Loop.
Variable n : nat.
Variable eus : dict (dict Q).

Inductive step : cfg -> cfg -> Prop :=
| step_outer_next i r t rts st :
    step (Outer i ((r, t) :: rts) st) (Inner i r t 0 eus rts st)
| step_outer_end i st :
    step (Outer i [] st) (Done st)
| step_inner_next i r t j e a eus' rts st st' :
    flow_step n i j r t e a st = Ok st' ->
    step (Inner i r t j ((e, a) :: eus') rts st) (Inner i r t (S j) eus' rts st')
| step_inner_raise i r t j e a eus' rts st err :
    flow_step n i j r t e a st = Err err ->
    step (Inner i r t j ((e, a) :: eus') rts st) (Crash err)
| step_inner_end i r t j rts st :
    step (Inner i r t j [] rts st) (Outer (S i) rts st).

(** The loop's entry: [i = 0], all of [resource_totals] to go, the
    initial accumulators. *)
Definition init_cfg (rts : dict Q) : cfg := Outer 0 rts (init_state eus).

(** What every reachable configuration satisfies, for a run over [rts0]:
    the counters agree with what is left to iterate over, and the three
    link lists hold one entry per step taken. *)
Definition loop_inv (rts0 : dict Q) (c : cfg) : Prop :=
  match c with
  | Outer i rts st =>
      (i + length rts = length rts0)%nat /\
      length (sources st) = (i * length eus)%nat /\
      length (targets st) = (i * length eus)%nat /\
      length (values st) = (i * length eus)%nat /\
      dict_keys (end_use_totals st) = dict_keys eus
  | Inner i _ _ j eus' rts st =>
      (i + 1 + length rts = length rts0)%nat /\ (j + length eus' = length eus)%nat /\
      length (sources st) = (i * length eus + j)%nat /\
      length (targets st) = (i * length eus + j)%nat /\
      length (values st) = (i * length eus + j)%nat /\
      dict_keys (end_use_totals st) = dict_keys eus
  | Done st =>
      length (sources st) = (length rts0 * length eus)%nat /\
      length (targets st) = (length rts0 * length eus)%nat /\
      length (values st) = (length rts0 * length eus)%nat /\
      dict_keys (end_use_totals st) = dict_keys eus
  | Crash _ => True
  end.

(** ** One step *)

Lemma flow_step_Ok_inv i j r t e a st st' :
  flow_step n i j r t e a st = Ok st' ->
  sources st' = sources st ++ [i] /\ targets st' = targets st ++ [(n + j)%nat] /\
  length (values st') = S (length (values st)) /\
  dict_keys (end_use_totals st') = dict_keys (end_use_totals st).
Proof.
  unfold flow_step, flow_update. destruct (getitem r a) as [p|]; cbn [mbind result_bind]; [|done].
  destruct (dict_iadd e (t * p) (end_use_totals st)) as [eut|] eqn:He; cbn [mbind result_bind]; [|done].
  intros [= <-]. cbn. rewrite length_app. cbn. split_and!; [done|done|lia|].
  by eapply dict_iadd_keys.
Qed.

Lemma step_det c c1 c2 : step c c1 -> step c c2 -> c1 = c2.
Proof. destruct 1; inversion 1; congruence. Qed.

Lemma final_stuck c c' : final c = true -> ~ step c c'.
Proof. destruct c; cbn; try done; inversion 2. Qed.

Lemma loop_inv_step rts0 c c' : loop_inv rts0 c -> step c c' -> loop_inv rts0 c'.
Proof.
  intros Hinv Hs. destruct Hs as [i r t rts st|i st|i r t j e a eus' rts st st' Hf|?|i r t j rts st];
    cbn in Hinv |- *; try done.
  - destruct Hinv as (Hi & Hs & Ht & Hv & Hk). cbn in Hi. split_and!; lia || done.
  - destruct Hinv as (Hi & Hs & Ht & Hv & Hk). cbn in Hi. split_and!; [rewrite Hs|rewrite Ht|rewrite Hv|done];
      f_equal; lia.
  - destruct Hinv as (Hi & Hj & Hs & Ht & Hv & Hk). cbn in Hj.
    destruct (flow_step_Ok_inv _ _ _ _ _ _ _ _ Hf) as (Hs' & Ht' & Hv' & Hk').
    rewrite Hs', Ht', !length_app, Hv', Hk'. cbn. split_and!; lia || done.
  - destruct Hinv as (Hi & Hj & Hs & Ht & Hv & Hk). cbn in Hj. split_and!; lia || done.
Qed.

(** ** Runs *)

Lemma rtc_final_det c c1 c2 :
  rtc step c c1 -> rtc step c c2 -> final c2 = true -> rtc step c1 c2.
Proof.
  induction 1 as [c|c c' c1 Hs _ IH]; intros H2 Hf; [done|].
  inversion H2 as [|? c'' ? Hs' H2']; subst.
  - by destruct (final_stuck _ _ Hf Hs).
  - rewrite (step_det _ _ _ Hs Hs') in IH. by apply IH.
Qed.

(** The final configuration that corresponds to an outcome of the
    big-step loop. *)
Definition result_cfg (r : result link_state) : cfg :=
  match r with Ok st => Done st | Err e => Crash e end.

Lemma inner_loop_run i r t j eus' rts st :
  rtc step (Inner i r t j eus' rts st)
    (match inner_loop n i r t j eus' st with
     | Ok st' => Outer (S i) rts st'
     | Err e => Crash e
     end).
Proof.
  revert j st. induction eus' as [|[e a] eus' IH]; intros j st; cbn [inner_loop].
  - apply rtc_once. constructor.
  - destruct (flow_step n i j r t e a st) as [st1|err] eqn:Hf; cbn [mbind result_bind].
    + eapply rtc_l; [by constructor|]. apply IH.
    + apply rtc_once. by constructor.
Qed.

Lemma outer_loop_run i rts st :
  rtc step (Outer i rts st) (result_cfg (outer_loop n eus i rts st)).
Proof.
  revert i st. induction rts as [|[r t] rts IH]; intros i st; cbn [outer_loop].
  - apply rtc_once. constructor.
  - eapply rtc_l; [constructor|]. etrans; [apply inner_loop_run|].
    destruct (inner_loop n i r t 0 eus st); cbn [mbind result_bind]; [apply IH|done].
Qed.

Lemma loop_inv_rtc rts0 c c' : loop_inv rts0 c -> rtc step c c' -> loop_inv rts0 c'.
Proof. intros Hc H. induction H as [|x y z Hs _ IH]; [done|]. apply IH. by eapply loop_inv_step. Qed.

End Loop.

Lemma loop_inv_init eus rts : loop_inv eus rts (init_cfg eus rts).
Proof. cbn. split_and!; [lia|done|done|done|apply init_state_keys]. Qed.

(** ** Properties of the loop as a transition system *)

(** C36 (invariant). In every configuration the loop reaches, the
    counters [i] and [j] of [enumerate] agree with what is left to
    iterate over, the three link lists have one entry per flow step taken
    ([i * len(end_uses) + j]) and [end_use_totals] keeps the keys of the
    table; a completed loop has [len(resource_totals) * len(end_uses)]
    links. *)
Theorem loop_inv_reachable eus rts c :
  rtc (step (length rts) eus) (init_cfg eus rts) c -> loop_inv eus rts c.
Proof. apply loop_inv_rtc, loop_inv_init. Qed.

Lemma loop_inv_reachable_witness :
  loop_inv end_uses spec_example_totals (init_cfg end_uses spec_example_totals).
Proof. apply loop_inv_reachable. apply rtc_refl. Defined.

(** C39 (liveness). With a dense table every flow is eventually drawn:
    from every configuration the loop reaches, it goes on to one whose
    state holds the link of the [i]-th resource and the [j]-th end use,
    at position [i * len(end_uses) + j], with value
    [total_amount * fraction]. *)
Theorem loop_emits_every_link eus rts i j r t e a c :
  first_missing rts eus = None -> rts !! i = Some (r, t) -> eus !! j = Some (e, a) ->
  rtc (step (length rts) eus) (init_cfg eus rts) c ->
  exists c' st, rtc (step (length rts) eus) c c' /\ cfg_state c' = Some st /\
    sources st !! (i * length eus + j)%nat = Some i /\
    targets st !! (i * length eus + j)%nat = Some (length rts + j)%nat /\
    values st !! (i * length eus + j)%nat = Some (t * pct a r).
Proof.
  intros Hm Hi Hj Hc. pose proof (allocate_spec rts eus) as H. rewrite Hm in H.
  destruct H as (st & Ha & Hs & Ht & Hv & _).
  pose proof (outer_loop_run (length rts) eus 0 rts (init_state eus)) as Hrun.
  fold (allocate rts eus) in Hrun. fold (init_cfg eus rts) in Hrun. rewrite Ha in Hrun.
  exists (Done st), st. split_and!; [by eapply rtc_final_det|done|..];
    rewrite ?Hs, ?Ht, ?Hv; apply (ref_lookup rts eus i j r t e a Hi Hj).
Qed.

Lemma loop_emits_every_link_witness :
  exists c' st, rtc (step 4 end_uses) (init_cfg end_uses spec_example_totals) c' /\
    cfg_state c' = Some st /\
    sources st !! 8%nat = Some 1%nat /\ targets st !! 8%nat = Some 6%nat /\
    values st !! 8%nat = Some (200 * pct [("Forest Processing Waste", 0.20); ("Logging Residues", 0.15);
                                         ("Other Forest Waste", 0.20); ("Small-Diameter Trees", 0.30)]
                                        "Logging Residues").
Proof.
  apply (loop_emits_every_link end_uses spec_example_totals 1 2 "Logging Residues" 200 "Wood Pellets");
    [reflexivity|reflexivity|reflexivity|apply rtc_refl].
Defined.

End LoopSemantics.
